(** * Arcane Forum Archiver: a shallow embedding of the archival engine

    The development follows [src/ArcaneForumArch.py].  Python [str] values
    are Rocq strings (a character stands for one code point below 256),
    dictionaries are [gmap]s, sets are [gset]s or duplicate-free lists where
    the iteration order is observable, and the network, the HTML parser and
    the clock are explicit arguments of the functions that use them. *)

From Stdlib Require Import ZArith Lia List Bool Ascii String Permutation Sorted Wellfounded Relation_Operators.
From stdpp Require Import base option list gmap strings.

Set Warnings "-register-all,-clear-no-such-hyp".

Local Open Scope string_scope.

(** ** Python string primitives *)

Module PyStr.

Definition code (c : ascii) : nat := nat_of_ascii c.

Definition ch (n : nat) : ascii := ascii_of_nat n.

Definition eqc (a b : ascii) : bool := Ascii.eqb a b.

(** [c in s] for a one-character [c]. *)
Fixpoint mem (c : ascii) (s : string) : bool :=
  match s with
  | EmptyString => false
  | String a r => eqc a c || mem c r
  end.

(** [s.rstrip(c)] for a one-character argument. *)
Fixpoint rstrip (c : ascii) (s : string) : string :=
  match s with
  | EmptyString => EmptyString
  | String a r =>
      match rstrip c r with
      | EmptyString => if eqc a c then EmptyString else String a EmptyString
      | r' => String a r'
      end
  end.

(** [s.lstrip(chars)], the set of characters given as a predicate. *)
Fixpoint lstrip_by (p : ascii -> bool) (s : string) : string :=
  match s with
  | EmptyString => EmptyString
  | String a r => if p a then lstrip_by p r else s
  end.

(** [s.rstrip(chars)], the set of characters given as a predicate. *)
Fixpoint rstrip_by (p : ascii -> bool) (s : string) : string :=
  match s with
  | EmptyString => EmptyString
  | String a r =>
      match rstrip_by p r with
      | EmptyString => if p a then EmptyString else String a EmptyString
      | r' => String a r'
      end
  end.

(** Removes every character satisfying [p] ([str.replace(b, empty)] for
    one-character [b]). *)
Fixpoint remove_by (p : ascii -> bool) (s : string) : string :=
  match s with
  | EmptyString => EmptyString
  | String a r => if p a then remove_by p r else String a (remove_by p r)
  end.

Fixpoint all_by (p : ascii -> bool) (s : string) : bool :=
  match s with
  | EmptyString => true
  | String a r => p a && all_by p r
  end.

(** [s.split(c, 1)] when [c in s]: the text before the first [c] and the
    text after it. *)
Fixpoint split_first (c : ascii) (s : string) : option (string * string) :=
  match s with
  | EmptyString => None
  | String a r =>
      if eqc a c then Some (EmptyString, r)
      else match split_first c r with
           | Some (x, y) => Some (String a x, y)
           | None => None
           end
  end.

(** The split at the last [c] of [s]: [s[:s.rfind(c)]] and [s[s.rfind(c)+1:]]. *)
Fixpoint split_last (c : ascii) (s : string) : option (string * string) :=
  match s with
  | EmptyString => None
  | String a r =>
      match split_last c r with
      | Some (x, y) => Some (String a x, y)
      | None => if eqc a c then Some (EmptyString, r) else None
      end
  end.

(** The longest prefix whose characters all fail [p], and the rest. *)
Fixpoint span_until (p : ascii -> bool) (s : string) : string * string :=
  match s with
  | EmptyString => (EmptyString, EmptyString)
  | String a r =>
      if p a then (EmptyString, s)
      else let '(x, y) := span_until p r in (String a x, y)
  end.

(** [s.startswith(p)] with the remainder of [s] when it does. *)
Fixpoint strip_prefix (p s : string) : option string :=
  match p, s with
  | EmptyString, _ => Some s
  | String a p', String b s' => if eqc a b then strip_prefix p' s' else None
  | String _ _, EmptyString => None
  end.

Definition startswith (p s : string) : bool :=
  match strip_prefix p s with Some _ => true | None => false end.

(** [p in s] for a substring [p]. *)
Fixpoint contains (p s : string) : bool :=
  startswith p s ||
  match s with
  | EmptyString => false
  | String _ r => contains p r
  end.

Definition between (lo hi : nat) (c : ascii) : bool :=
  Nat.leb lo (code c) && Nat.leb (code c) hi.

Definition is_upper (c : ascii) : bool := between 65 90 c.
Definition is_lower (c : ascii) : bool := between 97 122 c.
Definition is_digit (c : ascii) : bool := between 48 57 c.
Definition is_ascii_alpha (c : ascii) : bool := is_upper c || is_lower c.

(** The code points below 256 that [str.lower] changes: A-Z, and the
    Latin-1 capitals 192-214 and 216-222. *)
Definition lower_char (c : ascii) : ascii :=
  if is_upper c || between 192 214 c || between 216 222 c
  then ch (code c + 32) else c.

(** [s.lower()]. *)
Fixpoint lower (s : string) : string :=
  match s with
  | EmptyString => EmptyString
  | String a r => String (lower_char a) (lower r)
  end.

(** [str.isspace] on code points below 256. *)
Definition is_space (c : ascii) : bool :=
  between 9 13 c || between 28 32 c || Nat.eqb (code c) 133 || Nat.eqb (code c) 160.

(** [s.strip()]. *)
Definition strip (s : string) : string := rstrip_by is_space (lstrip_by is_space s).

Definition is_empty (s : string) : bool :=
  match s with EmptyString => true | _ => false end.

(** The decimal digits of a number, as [str(n)] and an f-string print it. *)
Fixpoint digits_fuel (fuel n : nat) (acc : string) : string :=
  match fuel with
  | O => acc
  | S f =>
      let acc' := String (ch (48 + n mod 10)) acc in
      if Nat.eqb (n / 10) 0 then acc' else digits_fuel f (n / 10) acc'
  end.

Definition str_of_nat (n : nat) : string := digits_fuel (S n) n EmptyString.

(** [int(s)] for a string of decimal digits. *)
Definition int_of_digits (s : string) : nat :=
  fold_left (fun acc c => 10 * acc + (code c - 48)) (list_ascii_of_string s) 0.

(** [len(s.encode('utf-8'))]: one byte below 128, two from 128 to 255. *)
Fixpoint utf8_len (s : string) : nat :=
  match s with
  | EmptyString => 0
  | String a r => (if Nat.ltb (code a) 128 then 1 else 2) + utf8_len r
  end.

End PyStr.

(** ** The pieces of [urllib.parse] the crawler calls

    [urldefrag] is a function of Python's standard library; the model below
    follows CPython 3.11's [urllib/parse.py] line by line.  The two checks of
    a network location that need Unicode tables ([_check_bracketed_netloc],
    [_checknetloc]) are the argument [netloc_ok]; a URL they refuse makes
    the call raise [ValueError], which is [None] here. *)

Module UrlLib.
Import PyStr.

Record SplitResult := mkSplit {
  scheme : string; netloc : string; path : string; query : string; fragment : string }.

Definition uses_netloc : list string :=
  [ ""; "ftp"; "http"; "gopher"; "nntp"; "telnet"; "imap"; "wais"; "file"; "mms";
    "https"; "shttp"; "snews"; "prospero"; "rtsp"; "rtspu"; "rsync"; "svn";
    "svn+ssh"; "sftp"; "nfs"; "git"; "git+ssh"; "ws"; "wss" ].

Definition uses_params : list string :=
  [ ""; "ftp"; "hdl"; "prospero"; "http"; "imap"; "https"; "shttp"; "rtsp";
    "rtspu"; "sip"; "sips"; "mms"; "sftp"; "tel" ].

Definition str_in (s : string) (l : list string) : bool := existsb (String.eqb s) l.

Definition scheme_char (c : ascii) : bool :=
  is_ascii_alpha c || is_digit c || eqc c "+" || eqc c "-" || eqc c ".".

Definition c0_or_space (c : ascii) : bool := Nat.leb (code c) 32.

Definition unsafe_byte (c : ascii) : bool :=
  Nat.eqb (code c) 9 || Nat.eqb (code c) 13 || Nat.eqb (code c) 10.

(** The scheme of [url] and the text after its colon, when [url] starts
    with a letter and only scheme characters stand before the first colon. *)
Definition split_scheme (url : string) : string * string :=
  match split_first ":" url with
  | Some (String a pre, rest) =>
      if is_ascii_alpha a && all_by scheme_char (String a pre)
      then (lower (String a pre), rest) else (EmptyString, url)
  | _ => (EmptyString, url)
  end.

Definition netloc_delim (c : ascii) : bool := eqc c "/" || eqc c "?" || eqc c "#".

Definition brackets_ok (n : string) : bool :=
  negb ((mem "[" n && negb (mem "]" n)) || (mem "]" n && negb (mem "[" n))).

Section urlsplit.
Variable netloc_ok : string -> bool.

Definition urlsplit (url0 : string) : option SplitResult :=
  let url := remove_by unsafe_byte (lstrip_by c0_or_space url0) in
  let '(sch, url) := split_scheme url in
  let '(nl, url) :=
    match strip_prefix "//" url with
    | Some r => span_until netloc_delim r
    | None => (EmptyString, url)
    end in
  if negb (brackets_ok nl) then None else
  let '(url, frag) :=
    match split_first "#" url with Some p => p | None => (url, EmptyString) end in
  let '(url, q) :=
    match split_first "?" url with Some p => p | None => (url, EmptyString) end in
  if negb (netloc_ok nl) then None else
  Some (mkSplit sch nl url q frag).

Definition _splitparams (url : string) : string * string :=
  match split_last "/" url with
  | Some (dir, base) =>
      match split_first ";" base with
      | Some (b, params) => (dir ++ String "/" b, params)
      | None => (url, EmptyString)
      end
  | None =>
      match split_first ";" url with
      | Some p => p
      | None => (url, EmptyString)
      end
  end.

(** [urlparse]: the split result with the parameters taken off the path. *)
Definition urlparse (url : string) : option (SplitResult * string) :=
  match urlsplit url with
  | Some r =>
      if str_in (scheme r) uses_params && mem ";" (path r)
      then let '(p, params) := _splitparams (path r) in
           Some (mkSplit (scheme r) (netloc r) p (query r) (fragment r), params)
      else Some (r, EmptyString)
  | None => None
  end.

Definition urlunsplit (r : SplitResult) : string :=
  let url := path r in
  let url :=
    if negb (is_empty (netloc r)) ||
       (negb (is_empty (scheme r)) && str_in (scheme r) uses_netloc
        && negb (startswith "//" url))
    then "//" ++ netloc r ++
         (if negb (is_empty url) && negb (startswith "/" url) then String "/" url else url)
    else url in
  let url := if is_empty (scheme r) then url else scheme r ++ String ":" url in
  let url := if is_empty (query r) then url else url ++ String "?" (query r) in
  if is_empty (fragment r) then url else url ++ String "#" (fragment r).

Definition urlunparse (r : SplitResult) (params : string) : string :=
  urlunsplit
    (mkSplit (scheme r) (netloc r)
       (if is_empty params then path r else path r ++ String ";" params)
       (query r) (fragment r)).

(** [urldefrag(url)]: the URL without its fragment, and the fragment. *)
Definition urldefrag (url : string) : option (string * string) :=
  if mem "#" url then
    match urlparse url with
    | Some (r, params) =>
        Some (urlunparse (mkSplit (scheme r) (netloc r) (path r) (query r) EmptyString)
                params,
              fragment r)
    | None => None
    end
  else Some (url, EmptyString).

End urlsplit.
End UrlLib.

(** ** The site mirror crawler: URL helpers *)

Module MirrorUrl.
Import PyStr.

Section normalize.
Variable netloc_ok : string -> bool.

(** [MirrorCrawler._normalize]. *)
Definition _normalize (url : string) : option string :=
  match UrlLib.urldefrag netloc_ok url with
  | Some (url, _) => Some (rstrip "/" url)
  | None => None
  end.

End normalize.
End MirrorUrl.

(** ** The restoration engine: markup conversion *)

Module Restoration.
Import PyStr.

Definition nl : ascii := "010"%char.

(** A parsed document as BeautifulSoup hands it over: text, an element with
    its name, attributes and children, a string of one of the subclasses
    of [NavigableString] that [get_text] leaves out (a comment, a
    declaration, a doctype, a processing instruction), or another page
    element. *)
Inductive Node : Type :=
| NavigableString (text : string)
| Tag (name : string) (attrs : gmap string string) (children : list Node)
| Comment (text : string)
| OtherElement.

(** [element.get(key, empty)]. *)
Definition attr (attrs : gmap string string) (key : string) : string :=
  default EmptyString (attrs !! key).

Definition tag_in (tag : string) (names : list string) : bool :=
  existsb (String.eqb tag) names.

Definition heading_size (tag : string) : string :=
  default "4"
    (snd <$> find (fun kv => String.eqb (fst kv) tag)
       [("h1", "6"); ("h2", "5"); ("h3", "4"); ("h4", "3"); ("h5", "2"); ("h6", "1")]).

(** [_html_to_bbcode]. *)
Fixpoint _html_to_bbcode (element : Node) : string :=
  match element with
  | NavigableString text => text
  | Comment text => text
  | OtherElement => EmptyString
  | Tag name attrs children =>
      let tag := lower name in
      let inner :=
        (fix join (cs : list Node) : string :=
           match cs with
           | [] => EmptyString
           | c :: cs' => _html_to_bbcode c ++ join cs'
           end) children in
      if tag_in tag ["b"; "strong"] then "[B]" ++ inner ++ "[/B]"
      else if tag_in tag ["i"; "em"] then "[I]" ++ inner ++ "[/I]"
      else if String.eqb tag "u" then "[U]" ++ inner ++ "[/U]"
      else if tag_in tag ["s"; "strike"; "del"] then "[S]" ++ inner ++ "[/S]"
      else if String.eqb tag "a" then
        let href := attr attrs "href" in
        if is_empty href then inner else "[URL=" ++ href ++ "]" ++ inner ++ "[/URL]"
      else if String.eqb tag "img" then
        let src := attr attrs "src" in
        if startswith "data:" src then "[IMG]<embedded>[/IMG]"
        else "[IMG]" ++ src ++ "[/IMG]"
      else if String.eqb tag "blockquote" then "[QUOTE]" ++ inner ++ "[/QUOTE]"
      else if tag_in tag ["code"; "pre"] then "[CODE]" ++ inner ++ "[/CODE]"
      else if tag_in tag ["h1"; "h2"; "h3"; "h4"; "h5"; "h6"] then
        "[SIZE=" ++ heading_size tag ++ "][B]" ++ inner ++ "[/B][/SIZE]" ++ String nl EmptyString
      else if String.eqb tag "br" then String nl EmptyString
      else if String.eqb tag "p" then strip inner ++ String nl (String nl EmptyString)
      else if tag_in tag ["ul"; "ol"] then
        "[LIST]" ++ String nl inner ++ "[/LIST]" ++ String nl EmptyString
      else if String.eqb tag "li" then "[*]" ++ strip inner ++ String nl EmptyString
      else if tag_in tag ["div"; "span"; "section"; "article"] then inner
      else if tag_in tag ["script"; "style"; "head"; "meta"; "link"; "noscript"]
      then EmptyString
      else inner
  end.

(** The text of a list of nodes, one after the other: [join] over the
    children of an element. *)
Definition convert_children (cs : list Node) : string :=
  fold_right (fun c acc => _html_to_bbcode c ++ acc) EmptyString cs.

(** The element names [_html_to_bbcode] has a branch for. *)
Definition handled_tags : list string :=
  [ "b"; "strong"; "i"; "em"; "u"; "s"; "strike"; "del"; "a"; "img"; "blockquote";
    "code"; "pre"; "h1"; "h2"; "h3"; "h4"; "h5"; "h6"; "br"; "p"; "ul"; "ol"; "li";
    "div"; "span"; "section"; "article";
    "script"; "style"; "head"; "meta"; "link"; "noscript" ].

Fixpoint newlines (n : nat) : string :=
  match n with O => EmptyString | S k => String nl (newlines k) end.

(** What a run of [n] newlines becomes under [re.sub] of three or more
    newlines by two. *)
Definition emit_run (n : nat) : string :=
  if Nat.leb 3 n then newlines 2 else newlines n.

(** [re.sub(r'\n{3,}', '\n\n', text)], scanning left to right with the
    length [run] of the run of newlines read so far. *)
Fixpoint sub_newlines (run : nat) (text : string) : string :=
  match text with
  | EmptyString => emit_run run
  | String a r =>
      if eqc a nl then sub_newlines (S run) r
      else emit_run run ++ String a (sub_newlines 0 r)
  end.

(** [_clean_bbcode]. *)
Definition _clean_bbcode (text : string) : string := strip (sub_newlines 0 text).

End Restoration.

(** ** Regular expressions

    The patterns of the program are written as terms of [re] and matched the
    way Python's [re] module matches them: the leftmost match, alternatives
    tried in order, repetitions greedy with backtracking.  A match hands the
    rest of the text and the text of group 1 to its continuation. *)

Module Regex.
Import PyStr.

Inductive re : Type :=
| Eps                       (* the empty pattern *)
| Cls (p : ascii -> bool)   (* one character of a class *)
| Seq (r1 r2 : re)
| Alt (r1 r2 : re)          (* r1|r2 *)
| Star (r : re)             (* r*, greedy; r matches no empty text *)
| Grp (r : re).             (* (r), group 1 *)

Definition Plus (r : re) : re := Seq r (Star r).
Definition Opt (r : re) : re := Alt r Eps.
Definition Chr (c : ascii) : re := Cls (eqc c).

(** A literal text. *)
Fixpoint Lit (s : string) : re :=
  match s with
  | EmptyString => Eps
  | String a r => Seq (Chr a) (Lit r)
  end.

(** [[abc]]: one of the characters of [s]. *)
Definition OneOf (s : string) : re := Cls (fun c => mem c s).
Definition Digit : re := Cls is_digit.
(** [.]: any character but a newline. *)
Definition Dot : re := Cls (fun c => negb (Nat.eqb (code c) 10)).

(** The first [n] characters of [s]. *)
Fixpoint take_str (n : nat) (s : string) : string :=
  match n, s with
  | S k, String a r => String a (take_str k r)
  | _, _ => EmptyString
  end.

Section matcher.
Context {A : Type}.

(** [match_re r s cap k]: the first way, in Python's order, of matching [r]
    at the start of [s] that [k] accepts. *)
Fixpoint match_re (r : re) :
    string -> option string -> (string -> option string -> option A) -> option A :=
  match r with
  | Eps => fun s cap k => k s cap
  | Cls p => fun s cap k =>
      match s with
      | String a s' => if p a then k s' cap else None
      | EmptyString => None
      end
  | Seq r1 r2 => fun s cap k =>
      match_re r1 s cap (fun s' cap' => match_re r2 s' cap' k)
  | Alt r1 r2 => fun s cap k =>
      match match_re r1 s cap k with
      | Some x => Some x
      | None => match_re r2 s cap k
      end
  | Star r1 => fun s cap k =>
      (fix star (n : nat) (s : string) (cap : option string) : option A :=
         match n with
         | O => k s cap
         | S n' =>
             match match_re r1 s cap
                     (fun s' cap' =>
                        if Nat.ltb (String.length s') (String.length s)
                        then star n' s' cap' else None) with
             | Some x => Some x
             | None => k s cap
             end
         end) (String.length s) s cap
  | Grp r1 => fun s cap k =>
      match_re r1 s cap
        (fun s' _ => k s' (Some (take_str (String.length s - String.length s') s)))
  end.

End matcher.

(** A match at the start of [s]: the text after it and group 1. *)
Definition match_here (r : re) (s : string) : option (string * option string) :=
  match_re r s None (fun rest cap => Some (rest, cap)).

(** [re.search(r, s)]: group 1 of the leftmost match. *)
Fixpoint search (r : re) (s : string) : option (option string) :=
  match match_here r s with
  | Some (_, cap) => Some cap
  | None =>
      match s with
      | EmptyString => None
      | String _ s' => search r s'
      end
  end.

(** [m.group(1)] of [re.search(r, s)], when there is a match. *)
Definition search_group (r : re) (s : string) : option string :=
  match search r s with
  | Some (Some g) => Some g
  | _ => None
  end.

Definition matches (r : re) (s : string) : bool :=
  match search r s with Some _ => true | None => false end.

(** [re.sub(r, repl, s)] for a pattern that matches no empty text: the
    matches are replaced from left to right, the text between them is kept. *)
Fixpoint sub_fuel (n : nat) (r : re) (repl s : string) : string :=
  match n with
  | O => s
  | S n' =>
      match match_here r s with
      | Some (rest, _) =>
          if Nat.ltb (String.length rest) (String.length s)
          then repl ++ sub_fuel n' r repl rest
          else match s with
               | EmptyString => EmptyString
               | String a s' => String a (sub_fuel n' r repl s')
               end
      | None =>
          match s with
          | EmptyString => EmptyString
          | String a s' => String a (sub_fuel n' r repl s')
          end
      end
  end.

Definition sub (r : re) (repl s : string) : string :=
  sub_fuel (S (String.length s)) r repl s.

End Regex.

(** ** [os.path] on POSIX paths *)

Module OsPath.
Import PyStr.

(** [os.path.basename]. *)
Definition basename (p : string) : string :=
  match split_last "/" p with
  | Some (_, b) => b
  | None => p
  end.

(** [os.path.splitext] of a name without a separator: the extension starts
    at the last dot, unless only dots stand before it. *)
Definition splitext_name (name : string) : string * string :=
  match split_last "." name with
  | Some (stem, ext) =>
      if all_by (eqc ".") stem then (name, EmptyString)
      else (stem, String "." ext)
  | None => (name, EmptyString)
  end.

(** [os.path.splitext]. *)
Definition splitext (p : string) : string * string :=
  match split_last "/" p with
  | Some (dir, b) =>
      let '(stem, ext) := splitext_name b in (dir ++ String "/" stem, ext)
  | None => splitext_name p
  end.

(** [s.endswith(suffix)]. *)
Definition endswith (suffix s : string) : bool :=
  let n := String.length s - String.length suffix in
  Nat.leb (String.length suffix) (String.length s) &&
  String.eqb (String.substring n (String.length suffix) s) suffix.

End OsPath.

(** ** The cancellation flag

    One [threading.Event] is shared by a run and set by the caller at a
    moment of its choice.  The program only ever asks [is_set()], and the
    flag is never cleared during a run, so all a sequential run sees of it is
    how many polls still answer [False]: [Some n] is a flag that is set
    after [n] more polls, [None] one that is never set. *)

Module Cancel.

Definition Flag : Type := option nat.

Definition is_set (f : Flag) : bool * Flag :=
  match f with
  | None => (false, None)
  | Some O => (true, Some O)
  | Some (S n) => (false, Some n)
  end.

End Cancel.

(** ** The media downloader *)

Module Media.
Import PyStr OsPath Cancel.

Definition IMAGE_EXTS : list string :=
  [".jpg"; ".jpeg"; ".png"; ".gif"; ".webp"; ".bmp"; ".svg"; ".tiff"; ".avif"].
Definition VIDEO_EXTS : list string :=
  [".mp4"; ".webm"; ".mov"; ".avi"; ".mkv"; ".ogv"; ".flv"; ".m4v"].
Definition AUDIO_EXTS : list string :=
  [".mp3"; ".ogg"; ".wav"; ".aac"; ".flac"; ".m4a"; ".opus"].
Definition MEDIA_EXTS : list string := (IMAGE_EXTS ++ VIDEO_EXTS ++ AUDIO_EXTS)%list.

Definition str_in (s : string) (l : list string) : bool := existsb (String.eqb s) l.

(** The characters [safe_filename] replaces: [<>:], the double quote, [/],
    the backslash, [|?*], newline, carriage return and tab. *)
Definition unsafe_char (c : ascii) : bool :=
  existsb (Nat.eqb (code c)) [60; 62; 58; 34; 47; 92; 124; 63; 42; 10; 13; 9].

Fixpoint map_chars (f : ascii -> ascii) (s : string) : string :=
  match s with
  | EmptyString => EmptyString
  | String a r => String (f a) (map_chars f r)
  end.

(** [safe_filename(name, maxlen)]. *)
Definition safe_filename (name : string) (maxlen : nat) : string :=
  Regex.take_str maxlen (map_chars (fun c => if unsafe_char c then "_"%char else c) name).

(** What BeautifulSoup finds in a page for the harvest, in document order:
    the [src] of images, of [video] and [audio] elements, of [source]
    elements, the [href] of anchors, and the [data-src] attributes. *)
Record MediaTags := mkMediaTags {
  img_src : list string;
  av_src : list string;
  source_src : list string;
  a_href : list string;
  data_src : list string }.

(** The world outside the downloader.  [urljoin] is [None] when the call
    raises [ValueError]; [media_get] is the response to a GET as the chunks
    of its body, [None] when the request or its status raises; [set_order]
    is the order in which Python iterates a set built from the given
    elements; [can_write] is whether a file of the given name can be
    opened for writing in the media directory. *)
Record Env := mkEnv {
  netloc_ok : string -> bool;
  urljoin : string -> string -> option string;
  soup_media : string -> MediaTags;
  set_order : list string -> list string;
  media_get : string -> option (list string);
  can_write : string -> bool }.

(** The media directory, the index in memory and on disk, and the GET
    requests made so far, the latest first. *)
Record State := mkState {
  index : gmap string string;
  media_files : gmap string string;
  index_file : option (gmap string string);
  fetched : list string }.

Definition index_name : string := "_media_index.json".

(** [MediaDownloader.__init__] over a media directory as found on disk. *)
Definition init (files : gmap string string) (saved : option (gmap string string)) : State :=
  mkState (default ∅ saved) files saved [].

(** [os.path.exists] of a name in the media directory. *)
Definition path_exists (st : State) (name : string) : bool :=
  bool_decide (is_Some (media_files st !! name)) ||
  (String.eqb name index_name && bool_decide (is_Some (index_file st))).

Section downloader.
Variable E : Env.

(** [get_ext]. *)
Definition get_ext (url : string) : option string :=
  match UrlLib.urlparse (netloc_ok E) url with
  | Some (r, _) => Some (lower (snd (splitext (UrlLib.path r))))
  | None => None
  end.

Definition url_path (url : string) : option string :=
  match UrlLib.urlparse (netloc_ok E) url with
  | Some (r, _) => Some (UrlLib.path r)
  | None => None
  end.

Definition url_scheme (url : string) : option string :=
  match UrlLib.urlparse (netloc_ok E) url with
  | Some (r, _) => Some (UrlLib.scheme r)
  | None => None
  end.

(** The body read chunk by chunk, the flag polled before each chunk is kept. *)
Fixpoint read_chunks (chunks : list string) (acc : string) (fl : Flag)
    : option string * Flag :=
  match chunks with
  | [] => (Some acc, fl)
  | c :: rest =>
      let '(stop, fl) := is_set fl in
      if stop then (None, fl) else read_chunks rest (acc ++ c) fl
  end.

(** [MediaDownloader._fetch_bytes]. *)
Definition _fetch_bytes (url : string) (fl : Flag) (st : State)
    : option string * Flag * State :=
  let st := mkState (index st) (media_files st) (index_file st) (url :: fetched st) in
  match media_get E url with
  | Some chunks => let '(data, fl) := read_chunks chunks EmptyString fl in (data, fl, st)
  | None => (None, fl, st)
  end.

(** The [urls] set of [download_from_html], as the list of what is added to
    it; [None] when a call raises. *)
Definition harvest_candidates (html page_base_url : string) : option (list string) :=
  let t := soup_media E html in
  imgs ← mapM (urljoin E page_base_url) (img_src t);
  avs ← mapM (urljoin E page_base_url) (av_src t);
  srcs ← mapM (urljoin E page_base_url) (source_src t);
  hrefs ← mapM (fun h => href ← urljoin E page_base_url h;
                         ext ← get_ext href;
                         Some (href, str_in ext MEDIA_EXTS)) (a_href t);
  lazy ← mapM (urljoin E page_base_url) (data_src t);
  Some (imgs ++ avs ++ srcs ++ map fst (filter (fun p => snd p = true) hrefs) ++ lazy)%list.

(** The [media_urls] list. *)
Definition media_urls (html page_base_url : string) : option (list string) :=
  cands ← harvest_candidates html page_base_url;
  marked ← mapM (fun u => ext ← get_ext u;
                          sch ← url_scheme u;
                          Some (u, str_in ext MEDIA_EXTS && str_in sch ["http"; "https"]))
                (set_order E (remove_dups cands));
  Some (map fst (filter (fun p => snd p = true) marked)).

(** The name a download is first given. *)
Definition first_name (url : string) : string :=
  let ext := match default EmptyString (get_ext url) with
             | EmptyString => ".bin"
             | e => e
             end in
  let base := match basename (default EmptyString (url_path url)) with
              | EmptyString => "media"
              | b => b
              end in
  let fname := safe_filename base 120 in
  if endswith ext (lower fname) then fname else fname ++ ext.

(** The [n]th name tried after a collision. *)
Definition numbered (fname : string) (n : nat) : string :=
  let '(base, e) := splitext fname in base ++ "_" ++ str_of_nat n ++ e.

(** The collision loop: [fpath] is tried, then the names numbered from
    [counter]; [None] when [fuel] names were all taken. *)
Fixpoint free_name (fuel : nat) (st : State) (fname fpath : string) (counter : nat)
    : option string :=
  match fuel with
  | O => None
  | S f =>
      if path_exists st fpath
      then free_name f st fname (numbered fname counter) (S counter)
      else Some fpath
  end.

(** More names than the directory has files: the loop has ended by then. *)
Definition name_fuel (st : State) : nat := size (media_files st) + 3.

(** The downloader with [data] in the file [fpath] and [url] in the index. *)
Definition store (url fpath data : string) (st : State) : State :=
  mkState (<[url := fpath]> (index st)) (<[fpath := data]> (media_files st))
          (index_file st) (fetched st).

(** [with open(fpath, 'wb') as f: f.write(data)] and the index entry that
    follows; [None] when [open] raises. *)
Definition save_media (url fpath data : string) (st : State) : option State :=
  if can_write E fpath then Some (store url fpath data st) else None.

(** The loop of [download_from_html] over the media URLs. *)
Fixpoint harvest_loop (urls : list string) (downloaded : nat) (fl : Flag) (st : State)
    : nat * Flag * State :=
  match urls with
  | [] => (downloaded, fl, st)
  | url :: rest =>
      let '(stop, fl) := is_set fl in
      if stop then (downloaded, fl, st)
      else if bool_decide (is_Some (index st !! url)) then harvest_loop rest downloaded fl st
      else
        let '(data, fl, st) := _fetch_bytes url fl st in
        match data with
        | None => harvest_loop rest downloaded fl st
        | Some bytes =>
            let fname := first_name url in
            match free_name (name_fuel st) st fname fname 1 with
            | Some fpath =>
                match save_media url fpath bytes st with
                | Some st => harvest_loop rest (S downloaded) fl st
                | None => harvest_loop rest downloaded fl st
                end
            | None => harvest_loop rest downloaded fl st
            end
        end
  end.

(** [MediaDownloader._save_index]. *)
Definition _save_index (st : State) : State :=
  mkState (index st) (media_files st) (Some (index st)) (fetched st).

(** [MediaDownloader.download_from_html]: the count it returns ([None] when
    it raises, before anything is fetched), the flag and the downloader
    afterwards. *)
Definition download_from_html (html page_base_url : string) (fl : Flag) (st : State)
    : option nat * Flag * State :=
  match media_urls html page_base_url with
  | None => (None, fl, st)
  | Some urls =>
      let '(n, fl, st) := harvest_loop urls 0 fl st in
      (Some n, fl, _save_index st)
  end.

(** [MediaDownloader.get_local_path], as the stored name. *)
Definition get_local_name (st : State) (url : string) : option string :=
  match index st !! url with
  | Some EmptyString => None
  | r => r
  end.

End downloader.
End Media.

(** A small world for the media downloader: a page with two images and a
    link; [a.png] is served in two chunks, every other request fails; the
    media directory already holds a file [a.png]. *)

Module MediaSample.
Import Media.

Definition page : string := "<img src=a.png><img src=b.png><a href=c.html>".
Definition base : string := "http://h/".
Definition url_a : string := "http://h/a.png".
Definition url_b : string := "http://h/b.png".

Definition env : Env :=
  mkEnv (fun _ => true)
        (fun b u => Some (b ++ u))
        (fun html => if String.eqb html page
                     then mkMediaTags ["a.png"; "b.png"] [] [] ["c.html"] []
                     else mkMediaTags [] [] [] [] [])
        (fun l => l)
        (fun u => if String.eqb u url_a then Some ["PNG"; "data"] else None)
        (fun _ => true).

Definition st0 : State := init {[ "a.png" := "old" ]} None.

Definition st1 : State :=
  mkState {[ url_a := "a_1.png" ]}
          {[ "a.png" := "old"; "a_1.png" := "PNGdata" ]}
          (Some {[ url_a := "a_1.png" ]})
          [url_b; url_a].

Definition st2 : State :=
  mkState {[ url_a := "a_1.png" ]}
          {[ "a.png" := "old"; "a_1.png" := "PNGdata" ]}
          (Some {[ url_a := "a_1.png" ]})
          [url_b; url_b; url_a].

End MediaSample.

(** ** The archive crawler *)

Module Backup.
Import PyStr Regex OsPath Cancel.

(** A discovered unit: the dictionary with the keys [id], [url], [title]. *)
Record Thread := mkThread { t_id : string; t_url : string; t_title : string }.

(** An entry of [metadata['threads']]. *)
Record ThreadRecord := mkRecord {
  r_title : string; r_url : string; pages : nat; downloaded_at : nat }.

(** [self.metadata]. *)
Record Metadata := mkMetadata {
  threads : gmap string ThreadRecord;
  last_backup : option nat;
  total_threads : nat;
  completed_threads : nat }.

(** The world outside the crawler during a run: the answer of the site to a
    GET ([None] when the request or its status raises), what BeautifulSoup
    finds in a page (every anchor with an [href] as [(href, text)] in
    document order; the [href]s the pager selectors of [get_thread_pages]
    select), and whether a page file of a given name can be opened and
    written ([open] raises for a name the file system refuses). *)
Record Env := mkEnv {
  media_env : Media.Env;
  http_get : string -> option string;
  soup_anchors : string -> list (string * string);
  soup_pager_hrefs : string -> list string;
  writable : string -> bool }.

(** The crawler and its output directory: the shared flag, the page files
    by name, the metadata in memory and on disk, the clock read by
    [datetime.now()], the GET requests of [get_page] so far (the latest
    first), and the media downloader when media are downloaded. *)
Record State := mkState {
  flag : Flag;
  files : gmap string string;
  metadata : Metadata;
  metadata_file : option Metadata;
  clock : nat;
  requests : list string;
  media : option Media.State }.

Definition set_flag (fl : Flag) (st : State) : State :=
  mkState fl (files st) (metadata st) (metadata_file st) (clock st) (requests st) (media st).

Definition set_metadata (m : Metadata) (st : State) : State :=
  mkState (flag st) (files st) m (metadata_file st) (clock st) (requests st) (media st).

(** [self._stop_event.is_set()]. *)
Definition poll (st : State) : bool * State :=
  let '(b, fl) := is_set (flag st) in (b, set_flag fl st).

(** [datetime.now()]. *)
Definition now (st : State) : nat * State :=
  (clock st,
   mkState (flag st) (files st) (metadata st) (metadata_file st) (S (clock st))
           (requests st) (media st)).

Definition empty_metadata : Metadata := mkMetadata ∅ None 0 0.

(** [VBulletinBackup.load_metadata]. *)
Definition load_metadata (saved : option Metadata) : Metadata :=
  default empty_metadata saved.

(** [VBulletinBackup.__init__] over an output directory as found on disk. *)
Definition init (download_media : bool) (fl : Flag) (page_files : gmap string string)
    (saved : option Metadata) (media_files : gmap string string)
    (saved_index : option (gmap string string)) (time : nat) (log : list string) : State :=
  mkState fl page_files (load_metadata saved) saved time log
          (if download_media then Some (Media.init media_files saved_index) else None).

(** A new instance over the directory a run has left. *)
Definition reopen (st : State) : State :=
  mkState (flag st) (files st) (load_metadata (metadata_file st)) (metadata_file st)
          (clock st) (requests st)
          (fmap (fun m => Media.init (Media.media_files m) (Media.index_file m)) (media st)).

(** [VBulletinBackup.save_metadata]. *)
Definition save_metadata (st : State) : State :=
  let '(t, st) := now st in
  let m := mkMetadata (threads (metadata st)) (Some t)
                      (total_threads (metadata st)) (completed_threads (metadata st)) in
  mkState (flag st) (files st) m (Some m) (clock st) (requests st) (media st).

Section crawler.
Variable E : Env.
Variable base_url : string.    (* [self.base_url] *)
Variable start_page : nat.     (* [self.start_page] *)
(* The order in which [as_completed] yields the futures of the listing
   pages in this run: thread timing decides it anew for every run. *)
Variable order : list (list Thread) -> list (list Thread).

(** [VBulletinBackup.get_page]. *)
Definition get_page (url : string) (st : State) : option string * State :=
  (http_get E url,
   mkState (flag st) (files st) (metadata st) (metadata_file st) (clock st)
           (url :: requests st) (media st)).

(** [if not html_content]. *)
Definition no_content (c : option string) : bool :=
  match c with
  | Some (String _ _) => false
  | _ => true
  end.

Definition thread_id_patterns : list re :=
  [ Seq (Lit "showthread.php")
      (Seq (Star Dot) (Seq (OneOf "?&") (Seq (Lit "t=") (Grp (Plus Digit)))));
    Seq (Lit "/threads/")
      (Seq (Star (Cls (fun c => negb (eqc c "/")))) (Seq (Chr ".") (Grp (Plus Digit))));
    Seq (Lit "viewtopic.php")
      (Seq (Star Dot) (Seq (OneOf "?&") (Seq (Lit "t=") (Grp (Plus Digit))))) ].

(** [VBulletinBackup.extract_thread_id]. *)
Definition extract_thread_id (url : string) : option string :=
  (fix go (ps : list re) : option string :=
     match ps with
     | [] => None
     | p :: ps' =>
         match search_group p url with
         | Some g => Some g
         | None => go ps'
         end
     end) thread_id_patterns.

(** The loop that keeps the first unit of each id: [seen] holds the ids met
    so far. *)
Fixpoint unique_by_id (seen : gset string) (ts : list Thread) : list Thread :=
  match ts with
  | [] => []
  | t :: rest =>
      if decide (t_id t ∈ seen) then unique_by_id seen rest
      else t :: unique_by_id ({[ t_id t ]} ∪ seen) rest
  end.

(** The links one selector of [extract_thread_links] contributes. *)
Definition links_of_pattern (anchors : list (string * string)) (pat : string)
    : option (list Thread) :=
  fmap (omap (fun x => x))
    (mapM (fun a : string * string =>
             full_url ← Media.urljoin (media_env E) base_url (fst a);
             Some (match extract_thread_id full_url with
                   | Some tid => Some (mkThread tid full_url (snd a))
                   | None => None
                   end))
          (filter (fun a => contains pat (fst a) = true) anchors)).

(** [VBulletinBackup.extract_thread_links]; [None] when [urljoin] raises. *)
Definition extract_thread_links (html_content : string) : option (list Thread) :=
  let anchors := soup_anchors E html_content in
  l1 ← links_of_pattern anchors "showthread.php";
  l2 ← links_of_pattern anchors "/threads/";
  l3 ← links_of_pattern anchors "viewtopic.php";
  Some (unique_by_id ∅ (l1 ++ l2 ++ l3)%list).

Definition page_number_pattern : re :=
  Seq (Alt (Seq (OneOf "?&") (Lit "page=")) (Lit "/page-")) (Grp (Plus Digit)).

(** The [page_numbers] of a listing page, one for each link that has one. *)
Definition page_numbers (html_content : string) : list nat :=
  omap (fun a : string * string =>
          fmap int_of_digits (search_group page_number_pattern (fst a)))
       (soup_anchors E html_content).

Definition max_list (l : list nat) : nat := fold_right Nat.max 0 l.

Definition page_segment : re := Seq (Lit "/page-") (Plus Digit).

(** The URL built for page [page_num] of the section. *)
Definition section_page_url (section_url : string) (page_num : nat) : string :=
  if Nat.eqb page_num 1 then section_url
  else if contains "/page-" section_url then
    sub page_segment EmptyString (rstrip "/" section_url) ++ "/page-" ++ str_of_nat page_num
  else if mem "?" section_url then section_url ++ "&page=" ++ str_of_nat page_num
  else section_url ++ "?page=" ++ str_of_nat page_num.

(** [VBulletinBackup.get_all_pages_urls]. *)
Definition get_all_pages_urls (section_url : string) (st : State)
    : list string * State :=
  let '(html_content, st) := get_page section_url st in
  match html_content with
  | Some (String a r) =>
      let nums := page_numbers (String a r) in
      match nums with
      | [] => ([section_url], st)
      | _ =>
          (section_url ::
             map (section_page_url section_url)
                 (seq start_page (S (max_list nums) - start_page)),
           st)
      end
  | _ => ([section_url], st)
  end.

(** [process_page] of [discover_all_threads]. *)
Definition process_page (page_url : string) (st : State) : list Thread * State :=
  let '(stop, st) := poll st in
  if stop then ([], st)
  else
    let '(html_content, st) := get_page page_url st in
    match html_content with
    | Some (String a r) => (default [] (extract_thread_links (String a r)), st)
    | _ => ([], st)
    end.

(** The pool of [discover_all_threads]: every page is processed. *)
Fixpoint process_pages (pages : list string) (st : State)
    : list (list Thread) * State :=
  match pages with
  | [] => ([], st)
  | p :: rest =>
      let '(ts, st) := process_page p st in
      let '(tss, st) := process_pages rest st in
      (ts :: tss, st)
  end.

(** The loop over the completed futures: it stops when the flag is set. *)
Fixpoint collect (results : list (list Thread)) (st : State) : list Thread * State :=
  match results with
  | [] => ([], st)
  | ts :: rest =>
      let '(stop, st) := poll st in
      if stop then ([], st)
      else let '(more, st) := collect rest st in ((ts ++ more)%list, st)
  end.

(** The [all_threads] of [discover_all_threads]: what the pages yield, in
    the order of their completion. *)
Definition gather_threads (st : State) : list Thread * State :=
  let '(pages, st) := get_all_pages_urls base_url st in
  let '(results, st) := process_pages pages st in
  collect (order results) st.

(** [VBulletinBackup.discover_all_threads]. *)
Definition discover_all_threads (st : State) : list Thread * State :=
  let '(all_threads, st) := gather_threads st in
  (unique_by_id ∅ all_threads, st).

Definition pager_pattern : re :=
  Seq (Seq (OneOf "?&/") (Seq (Alt (Lit "page") (Lit "p")) (Opt (OneOf "=-"))))
      (Grp (Plus Digit)).

Definition pager_segment : re :=
  Seq (OneOf "?&/") (Seq (Alt (Lit "page") (Lit "p")) (Seq (Opt (OneOf "=-")) (Plus Digit))).

(** The URL [get_thread_pages] builds for page [i] of a unit. *)
Definition thread_page_url (thread_url : string) (i : nat) : string :=
  let base := rstrip "/" (sub pager_segment EmptyString thread_url) in
  if matches page_segment thread_url
  then sub page_segment EmptyString base ++ "/page-" ++ str_of_nat i
  else base ++ (if mem "?" base then "&" else "?") ++ "page=" ++ str_of_nat i.

(** [VBulletinBackup.get_thread_pages]. *)
Definition get_thread_pages (thread_url html_content : string) : list string :=
  let nums :=
    omap (fun href => fmap int_of_digits (search_group pager_pattern href))
         (soup_pager_hrefs E html_content) in
  match nums with
  | [] => [thread_url]
  | _ => thread_url :: map (thread_page_url thread_url) (seq 2 (max_list nums - 1))
  end.

(** The file of a page: [thread_<id>_<title>__page<n>.html]. *)
Definition page_file (thread : Thread) (page_num : nat) : string :=
  "thread_" ++ t_id thread ++ "_" ++ Media.safe_filename (t_title thread) 80
  ++ "__page" ++ str_of_nat page_num ++ ".html".

(** [self._media_dl.download_from_html(html, page_url)], when media are
    downloaded. *)
Definition harvest_media (html page_url : string) (st : State) : State :=
  match media st with
  | Some m =>
      let '(_, fl, m') := Media.download_from_html (media_env E) html page_url (flag st) m in
      mkState fl (files st) (metadata st) (metadata_file st) (clock st) (requests st)
              (Some m')
  | None => st
  end.

(** The output directory with [content] in the file [filepath]. *)
Definition written (filepath content : string) (st : State) : State :=
  mkState (flag st) (<[filepath := content]> (files st)) (metadata st) (metadata_file st)
          (clock st) (requests st) (media st).

(** [with open(filepath, 'w') as f: f.write(page_content)]; [None] when
    [open] raises, and then no file is there. *)
Definition write_page (filepath content : string) (st : State) : option State :=
  if writable E filepath then Some (written filepath content st) else None.

(** The loop of [download_thread] over the pages of a unit, from page
    [page_num] on: the pages counted and the state when it ends. *)
Fixpoint download_pages (thread : Thread) (thread_pages : list string) (page_num : nat)
    (downloaded_pages : nat) (previous_size : option nat) (st : State) : nat * State :=
  match thread_pages with
  | [] => (downloaded_pages, st)
  | page_url :: rest =>
      let '(stop, st) := poll st in
      if stop then (downloaded_pages, st)
      else
        let filepath := page_file thread page_num in
        match files st !! filepath with
        | Some saved_html =>
            let size := utf8_len saved_html in
            let st := if Nat.eqb size 0 then st else harvest_media saved_html page_url st in
            download_pages thread rest (S page_num) (S downloaded_pages) (Some size) st
        | None =>
            let '(page_content, st) := get_page page_url st in
            match page_content with
            | Some (String a r) =>
                let current_size := utf8_len (String a r) in
                if bool_decide (previous_size = Some current_size)
                then (downloaded_pages, st)
                else
                  match write_page filepath (String a r) st with
                  | Some st =>
                      let st := harvest_media (String a r) page_url st in
                      download_pages thread rest (S page_num) (S downloaded_pages)
                                     (Some current_size) st
                  | None =>
                      (* the exception is caught: the page is neither written
                         nor counted, and the loop goes on *)
                      download_pages thread rest (S page_num) downloaded_pages
                                     previous_size st
                  end
            | _ => download_pages thread rest (S page_num) downloaded_pages previous_size st
            end
        end
  end.

(** The entry [download_thread] writes into [metadata['threads']]. *)
Definition record_thread (thread : Thread) (downloaded_pages : nat) (st : State) : State :=
  let '(t, st) := now st in
  let m := metadata st in
  set_metadata
    (mkMetadata
       (<[t_id thread := mkRecord (t_title thread) (t_url thread) downloaded_pages t]>
          (threads m))
       (last_backup m) (total_threads m) (completed_threads m)) st.

(** [VBulletinBackup.download_thread]. *)
Definition download_thread (thread : Thread) (st : State) : bool * State :=
  let '(stop, st) := poll st in
  if stop then (false, st)
  else
    let '(html_content, st) := get_page (t_url thread) st in
    match html_content with
    | Some (String a r) =>
        let thread_pages := get_thread_pages (t_url thread) (String a r) in
        let '(downloaded_pages, st) := download_pages thread thread_pages 1 0 None st in
        (true, record_thread thread downloaded_pages st)
    | _ => (false, st)
    end.

(** [download_single] of [run_backup]: one retry. *)
Definition download_single (thread : Thread) (st : State) : bool * State :=
  let '(result, st) := download_thread thread st in
  if result then (true, st) else download_thread thread st.

Definition set_completed (n : nat) (st : State) : State :=
  let m := metadata st in
  set_metadata (mkMetadata (threads m) (last_backup m) (total_threads m) n) st.

Definition set_total (n : nat) (st : State) : State :=
  let m := metadata st in
  set_metadata (mkMetadata (threads m) (last_backup m) n (completed_threads m)) st.

(** The pool of [run_backup] with the loop over its completed futures: the
    units are downloaded one after the other and each result is handled as
    it arrives.  Once the loop has left on the flag ([stopped]) the units
    still queued are run by the pool all the same, and their results are
    dropped. *)
Fixpoint run_units (units : list Thread) (stopped : bool) (successful : nat) (st : State)
    : nat * State :=
  match units with
  | [] => (successful, st)
  | thread :: rest =>
      let '(result, st) := download_single thread st in
      if stopped then run_units rest true successful st
      else
        let '(stop, st) := poll st in
        if stop then run_units rest true successful st
        else if result then
          run_units rest false (S successful)
                    (save_metadata (set_completed (S successful) st))
        else run_units rest false successful st
  end.

(** [VBulletinBackup.run_backup]. *)
Definition run_backup (st : State) : nat * State :=
  let '(found, st) := discover_all_threads st in
  match found with
  | [] => (0, st)
  | _ =>
      let st := set_total (length found) st in
      let threads_to_download :=
        filter (fun t => threads (metadata st) !! t_id t = None) found in
      let '(successful, st) := run_units threads_to_download false 0 st in
      (successful, save_metadata st)
  end.

End crawler.
End Backup.

(** A small forum: two listing pages that both link unit 2; unit 1 has
    three pages of which the third repeats the second; unit 2 has one page;
    the first page of unit 3 cannot be fetched. *)

Module ForumSample.
Import Backup.

Definition base_url : string := "http://f/forum".

Definition lookup {A : Type} (d : A) (table : list (string * A)) (key : string) : A :=
  default d (snd <$> find (fun kv => String.eqb (fst kv) key) table).

Definition site : list (string * string) :=
  [ ("http://f/forum", "LISTING-ONE");
    ("http://f/forum?page=2", "LISTING-TWO");
    ("http://f/showthread.php?t=1", "UNIT-1 FIRST PAGE");
    ("http://f/showthread.php?t=1&page=2", "UNIT-1 SECOND AND LAST PAGE");
    ("http://f/showthread.php?t=1&page=3", "UNIT-1 SECOND AND LAST PAGE");
    ("http://f/showthread.php?t=2", "UNIT-2 ONLY PAGE") ].

Definition anchors : list (string * list (string * string)) :=
  [ ("LISTING-ONE",
     [ ("showthread.php?t=1", "Alpha"); ("showthread.php?t=2", "Beta");
       ("forum?page=2", "2") ]);
    ("LISTING-TWO",
     [ ("showthread.php?t=2", "Beta again"); ("showthread.php?t=3", "Gamma") ]) ].

Definition pagers : list (string * list string) :=
  [ ("UNIT-1 FIRST PAGE", [ "showthread.php?t=1&page=2"; "showthread.php?t=1&page=3" ]) ].

Definition media_env : Media.Env :=
  Media.mkEnv (fun _ => true) (fun _ u => Some ("http://f/" ++ u))
              (fun _ => Media.mkMediaTags [] [] [] [] []) (fun l => l) (fun _ => None)
              (fun _ => true).

Definition env : Env :=
  mkEnv media_env
        (fun u => lookup None (map (fun kv => (fst kv, Some (snd kv))) site) u)
        (lookup [] anchors) (lookup [] pagers) (fun _ => true).

(** The listing pages complete in the order they were submitted. *)
Definition in_order (results : list (list Thread)) : list (list Thread) := results.

(** An empty output directory, no media, at time 0. *)
Definition fresh (fl : Cancel.Flag) : State := init false fl ∅ None ∅ None 0 [].

Definition unit1 : Thread := mkThread "1" "http://f/showthread.php?t=1" "Alpha".
Definition unit2 : Thread := mkThread "2" "http://f/showthread.php?t=2" "Beta".
Definition unit3 : Thread := mkThread "3" "http://f/showthread.php?t=3" "Gamma".

End ForumSample.

(** ** The content extractor *)

Module Extractor.
Import PyStr Restoration Cancel.

(** A naive [datetime] as [strptime] builds it from the format
    [%b %d, %Y at %I:%M %p]: no seconds. *)
Record datetime := mkDatetime {
  year : nat; month : nat; day : nat; hour : nat; minute : nat }.

(** A [div.message-userContent] of a page: its [data-lb-caption-desc]
    attribute and the [div.bbWrapper] that [find_next] finds after it. *)
Record Block := mkBlock {
  caption : option string;
  wrapper : option Node }.

(** A reference to a medium of a post, as the restoration engine lists it. *)
Record MediaRef := mkMediaRef {
  kind : string; origin : string; mime : option string;
  local_path : option string; ref_url : option string }.

(** The standard library and the media helpers: [strptime] with the format
    of [parse_date] ([None] when it raises); the snippets
    [extract_posts_html] renders for the media of a post ([None] when
    [urljoin] or [get_ext] raises on one of them); what the media loops of
    [_parse_single_html] make of the body of a post: the references they
    collect and the body with the sources of the inlined media they wrote
    to files replaced by the paths of the files ([None] when [get_ext]
    raises on the [href] of an anchor). *)
Record Env := mkEnv {
  strptime : string -> option datetime;
  render_media : Node -> option (list string);
  materialise : Node -> option (Node * list MediaRef) }.

(** The middle dot that separates author and date in a caption. *)
Definition middle_dot : ascii := "183"%char.

(** [s.split(c)]. *)
Fixpoint split_on (c : ascii) (s : string) : list string :=
  match s with
  | EmptyString => [EmptyString]
  | String a r =>
      if eqc a c then EmptyString :: split_on c r
      else match split_on c r with
           | w :: ws => String a w :: ws
           | [] => [String a EmptyString]
           end
  end.

(** [s.split()]: the words between runs of whitespace. *)
Fixpoint words (cur : string) (s : string) : list string :=
  match s with
  | EmptyString => if is_empty cur then [] else [cur]
  | String a r =>
      if is_space a
      then (if is_empty cur then words EmptyString r else cur :: words EmptyString r)
      else words (cur ++ String a EmptyString) r
  end.

Fixpoint join (sep : string) (ws : list string) : string :=
  match ws with
  | [] => EmptyString
  | [w] => w
  | w :: rest => w ++ sep ++ join sep rest
  end.

(** [clean_text]. *)
Definition clean_text (text : string) : string :=
  let t := strip text in
  let t := remove_by (fun c => Nat.eqb (code c) 13) t in
  let t := Media.map_chars (fun c => if Nat.eqb (code c) 160 then " "%char else c) t in
  join " " (words EmptyString t).

(** [element.get_text()]: the strings of the types [get_text] asks for. *)
Fixpoint get_text (element : Node) : string :=
  match element with
  | NavigableString text => text
  | Comment _ => EmptyString
  | OtherElement => EmptyString
  | Tag _ _ children =>
      (fix go (cs : list Node) : string :=
         match cs with
         | [] => EmptyString
         | c :: cs' => get_text c ++ go cs'
         end) children
  end.

(** Author and date of a caption, when it holds a middle dot. *)
Definition author_and_date (desc : string) : option (string * string) :=
  if mem middle_dot desc then
    match split_on middle_dot desc with
    | a :: d :: _ => Some (clean_text a, clean_text d)
    | _ => None
    end
  else None.

(** A post of [extract_posts_html]. *)
Record Post := mkPost {
  date_obj : option datetime;
  author : string;
  date : string;
  body : string;
  media : list string }.

(** A post of [_parse_single_html]. *)
Record RestoredPost := mkRestoredPost {
  index : nat;
  r_author : string;
  r_date : string;
  bbcode : string;
  r_media : list MediaRef;
  is_original : bool }.

(** The order of datetimes: field by field. *)
Definition datetime_fields (d : datetime) : list nat :=
  [year d; month d; day d; hour d; minute d].

(** The sort key [(x['date_obj'] is None, x['date_obj'])] as a list of
    numbers compared from the left: a parsed date comes before none. *)
Definition sort_key (p : Post) : list nat :=
  match date_obj p with
  | Some d => 0 :: datetime_fields d
  | None => [1]
  end.

(** [k1 < k2] on keys. *)
Fixpoint key_ltb (k1 k2 : list nat) : bool :=
  match k1, k2 with
  | [], [] => false
  | [], _ :: _ => true
  | _ :: _, [] => false
  | a :: r1, b :: r2 => Nat.ltb a b || (Nat.eqb a b && key_ltb r1 r2)
  end.

Section sorting.
Context {A : Type} (key : A -> list nat).

(** [x] goes before the first element that is not smaller than it. *)
Fixpoint insert_sorted (x : A) (l : list A) : list A :=
  match l with
  | [] => [x]
  | y :: rest =>
      if key_ltb (key y) (key x) then y :: insert_sorted x rest
      else x :: y :: rest
  end.

(** [list.sort(key=...)]: the stable sort by the key.  Python's algorithm is
    another one; a stable sort has one result. *)
Definition stable_sort (l : list A) : list A := fold_right insert_sorted [] l.

End sorting.

Section extractor.
Variable E : Env.

(** [parse_date]. *)
Definition parse_date (text : string) : option datetime := strptime E text.

(** The post [extract_posts_html] makes of a block; [None] when the media
    loops raise. *)
Definition post_of_block (b : Block) : option Post :=
  let '(au, da, dobj) :=
    match author_and_date (default EmptyString (caption b)) with
    | Some (a, d) => (a, d, parse_date d)
    | None => ("Unknown user", "Unknown date", None)
    end in
  match wrapper b with
  | Some w =>
      media_tags ← render_media E w;
      Some (mkPost dobj au da (clean_text (get_text w)) media_tags)
  | None => Some (mkPost dobj au da EmptyString [])
  end.

(** [extract_posts_html], from the message blocks of the page on: the
    posts it returns, [None] when it raises (nothing in it catches an
    exception of the loop over the blocks, which comes before the sort). *)
Definition extract_posts_html (message_blocks : list Block) : option (list Post) :=
  posts ← mapM post_of_block message_blocks;
  Some (stable_sort sort_key posts).

(** The post [_parse_single_html] makes of block [block_idx] of a page in
    the raw format; [None] when the media loops raise.  The conversion of
    the body is total here, so the fallback to [get_text] is never taken. *)
Definition restored_post (block_idx : nat) (b : Block) : option RestoredPost :=
  let '(au, da) :=
    match author_and_date (default EmptyString (caption b)) with
    | Some p => p
    | None => ("Unknown Scribe", "Date unknown")
    end in
  match wrapper b with
  | Some w =>
      '(w', refs) ← materialise E w;
      Some (mkRestoredPost block_idx au da (_clean_bbcode (_html_to_bbcode w')) refs
                           (Nat.eqb block_idx 0))
  | None => Some (mkRestoredPost block_idx au da EmptyString [] (Nat.eqb block_idx 0))
  end.

(** The loop of [_parse_single_html] over the message blocks of a page in
    the raw format (no [div.thread-block] in it): the [posts_data], in the
    order of the blocks; it stops when the flag is set, and is [None] when
    a block raises. *)
Fixpoint restore_posts (block_idx : nat) (message_blocks : list Block) (se : Flag)
    : option (list RestoredPost * Flag) :=
  match message_blocks with
  | [] => Some ([], se)
  | b :: rest =>
      let '(stop, se) := is_set se in
      if stop then Some ([], se)
      else
        p ← restored_post block_idx b;
        '(ps, se) ← restore_posts (S block_idx) rest se;
        Some (p :: ps, se)
  end.

(** [_parse_single_html] on a page in the raw format: the [posts] of each
    thread of [all_threads].  The page is one thread; an exception of the
    loop is caught at the end of the function, and then the page has
    yielded no thread. *)
Definition _parse_single_html (message_blocks : list Block) (se : Flag)
    : list (list RestoredPost) :=
  match restore_posts 0 message_blocks se with
  | Some (posts_data, _) => [posts_data]
  | None => []
  end.

End extractor.
End Extractor.

(** A page with two posts, the later one first. *)

Module PostSample.
Import Restoration Extractor.

Definition later : string := "Jan 02, 2024 at 10:00 AM".
Definition earlier : string := "Jan 01, 2024 at 09:30 PM".

Definition env : Env :=
  mkEnv (fun text =>
           if String.eqb text later then Some (mkDatetime 2024 1 2 10 0)
           else if String.eqb text earlier then Some (mkDatetime 2024 1 1 21 30)
           else None)
        (fun _ => Some []) (fun w => Some (w, [])).

Definition caption_of (who when : string) : string :=
  who ++ String " " (String middle_dot (String " " when)).

Definition blocks : list Block :=
  [ mkBlock (Some (caption_of "bob" later)) (Some (Tag "div" ∅ [NavigableString "second"]));
    mkBlock (Some (caption_of "amy" earlier)) (Some (Tag "div" ∅ [NavigableString "first"]));
    mkBlock (Some (caption_of "cat" "yesterday")) (Some (Tag "div" ∅ [NavigableString "?"])) ].

(** The same page where the media loops raise on a body that holds an
    anchor (as [get_ext] does on an [href] that [urlparse] refuses). *)
Definition has_anchor (w : Node) : bool :=
  match w with
  | Tag _ _ children =>
      existsb (fun c => match c with
                        | Tag name _ _ => String.eqb name "a"
                        | _ => false
                        end) children
  | _ => false
  end.

Definition strict_env : Env :=
  mkEnv (strptime env)
        (fun w => if has_anchor w then None else Some [])
        (fun w => if has_anchor w then None else Some (w, [])).

Definition blocks_with_link : list Block :=
  (blocks ++
   [ mkBlock (Some (caption_of "dan" later))
             (Some (Tag "div" ∅ [ NavigableString "see ";
                                  Tag "a" {[ "href" := "http://[x" ]} [NavigableString "x"];
                                  Comment "hidden" ])) ])%list.

End PostSample.

(** ** The site mirror crawler *)

Module Mirror.
Import PyStr OsPath.

(** The answer to a GET of the session: the request raised, or a status,
    a [Content-Type] and a body. *)
Inductive Response : Type :=
| Failed
| Answer (status : nat) (ctype : string) (body : string).

(** The world outside the crawler: the two checks of [urlparse] on a
    network location, [urljoin] ([None] when it raises), the answers of the
    site, the links BeautifulSoup finds in a body (the [href] of each [a]
    and [link], the [src] of each [script], [img], [video], [audio] and
    [source], in document order, [None] for an element without the
    attribute), the bytes of the document after its links have been
    rewritten, and whether [os.makedirs] and [open] succeed for a path,
    the files of the mirror being what they are (they raise, for one, when
    a directory of the path is a file). *)
Record Env := mkEnv {
  netloc_ok : string -> bool;
  urljoin : string -> string -> option string;
  respond : string -> Response;
  soup_links : string -> list (option string);
  rewritten : string -> string -> string;
  save_ok : gmap string string -> string -> bool }.

Section crawler.
Variable E : Env.
Variable seed : string.         (* the [base_url] given to the constructor *)
Variable output_dir : string.

(** [self.base_url]. *)
Definition base_url : string := rstrip "/" seed.

Definition netloc_of (url : string) : option string :=
  match UrlLib.urlparse (netloc_ok E) url with
  | Some (r, _) => Some (UrlLib.netloc r)
  | None => None
  end.

(** [self.base_domain]; [None] when the constructor raises. *)
Definition base_domain : option string := netloc_of seed.

Definition _normalize (url : string) : option string :=
  MirrorUrl._normalize (netloc_ok E) url.

(** [os.path.join(a, b)]. *)
Definition path_join (a b : string) : string :=
  if startswith "/" b then b
  else if is_empty a || endswith "/" a then a ++ b
  else a ++ String "/" b.

(** [s.replace(":", "_")]. *)
Definition colons_to_underscores (s : string) : string :=
  Media.map_chars (fun c => if eqc c ":" then "_"%char else c) s.

(** [MirrorCrawler._url_to_path]; [None] when [urlparse] raises. *)
Definition _url_to_path (url : string) : option string :=
  match UrlLib.urlparse (netloc_ok E) url with
  | Some (parsed, _) =>
      let path := if is_empty (UrlLib.path parsed) then "/" else UrlLib.path parsed in
      let path :=
        if is_empty path || endswith "/" path then path ++ "index.html"
        else if negb (mem "." (basename path)) then rstrip "/" path ++ "/index.html"
        else if endswith ".php" (lower path) then path ++ ".html"
        else path in
      Some (path_join output_dir (colons_to_underscores (UrlLib.netloc parsed) ++ path))
  | None => None
  end.

(** The links that are not followed. *)
Definition skipped_link (link : string) : bool :=
  is_empty link ||
  existsb (fun p => startswith p link) ["mailto:"; "tel:"; "javascript:"; "#"; "data:"].

(** The loop of [_worker] over the links of the page at [url]: the URLs it
    puts on the queue, and whether it ran to its end ([false] when a call
    in it raised). *)
Fixpoint scan_links (url : string) (links : list (option string)) : list string * bool :=
  match links with
  | [] => ([], true)
  | None :: rest => scan_links url rest
  | Some link :: rest =>
      if skipped_link link then scan_links url rest
      else
        match urljoin E url link ≫= _normalize with
        | None => ([], false)
        | Some absolute =>
            match netloc_of absolute with
            | None => ([], false)
            | Some domain =>
                if negb (bool_decide (Some domain = base_domain)) then scan_links url rest
                else
                  match _url_to_path absolute with
                  | None => ([], false)
                  | Some _ =>
                      let '(more, ok) := scan_links url rest in (absolute :: more, ok)
                  end
            end
        end
  end.

(** What a worker does with a URL it has marked visited: the URLs it puts
    on the queue, the file it saves, and whether it survives ([_url_to_path]
    is called outside every [try]). *)
Record Outcome := mkOutcome {
  enqueued : list string;
  saved : option (string * string);
  survives : bool }.

Definition process_url (url : string) : Outcome :=
  match respond E url with
  | Failed => mkOutcome [] None true
  | Answer status ctype body =>
      if negb (Nat.eqb status 200) then mkOutcome [] None true
      else
        match _url_to_path url with
        | None => mkOutcome [] None false
        | Some local_out =>
            if contains "text/html" ctype then
              let '(urls, ok) := scan_links url (soup_links E body) in
              mkOutcome urls (Some (local_out, if ok then rewritten E url body else body))
                        true
            else mkOutcome [] (Some (local_out, body)) true
        end
  end.

(** The crawler during a run: the work queue, the visited set, the workers
    by what they are doing (waiting on the queue; holding a URL they have
    taken from it; working on a URL they have marked visited; dead), the
    GET requests made, the calls of [_save] as [(url, path)], the files of
    the mirror, and the counter.  Logs have the latest entry first. *)
Record State := mkState {
  queue : list string;
  visited : gset string;
  idle : nat;
  holding : list string;
  working : list string;
  dead : nat;
  fetched : list string;
  saves : list (string * string);
  files : gmap string string;
  downloaded : nat }.

(** [run] before the workers start: the seed is on the queue. *)
Definition init (max_workers : nat) : State :=
  mkState [base_url] ∅ max_workers [] [] 0 [] [] ∅ 0.

(** [MirrorCrawler._save]: an error of [os.makedirs] or [open] is caught
    and leaves the files as they are. *)
Definition _save (path content : string) (files : gmap string string)
    : gmap string string :=
  if save_ok E files path then <[path := content]> files else files.

(** The state after a worker has dealt with [url]: the counter is
    incremented after every call of [_save], whether it wrote or not. *)
Definition after_work (url : string) (o : Outcome) (w1 w2 : list string) (s : State) : State :=
  mkState (queue s ++ enqueued o)%list (visited s)
          (if survives o then S (idle s) else idle s) (holding s) (w1 ++ w2)%list
          (if survives o then dead s else S (dead s))
          (url :: fetched s)
          (match saved o with Some (p, _) => (url, p) :: saves s | None => saves s end)
          (match saved o with Some (p, c) => _save p c (files s) | None => files s end)
          (match saved o with Some _ => S (downloaded s) | None => downloaded s end).

(** What one worker does next, the others waiting; a run is any
    interleaving of such steps.  The visited set is read and written in one
    step, as under the lock. *)
Inductive step : State -> State -> Prop :=
| step_get (s : State) (url : string) (q : list string) (k : nat) :
    queue s = url :: q -> idle s = S k ->
    step s (mkState q (visited s) k (url :: holding s) (working s) (dead s)
                    (fetched s) (saves s) (files s) (downloaded s))
| step_raise (s : State) (url : string) (h1 h2 : list string) :
    holding s = (h1 ++ url :: h2)%list -> _normalize url = None ->
    step s (mkState (queue s) (visited s) (idle s) (h1 ++ h2)%list (working s) (S (dead s))
                    (fetched s) (saves s) (files s) (downloaded s))
| step_seen (s : State) (url v : string) (h1 h2 : list string) :
    holding s = (h1 ++ url :: h2)%list -> _normalize url = Some v -> v ∈ visited s ->
    step s (mkState (queue s) (visited s) (S (idle s)) (h1 ++ h2)%list (working s) (dead s)
                    (fetched s) (saves s) (files s) (downloaded s))
| step_visit (s : State) (url v : string) (h1 h2 : list string) :
    holding s = (h1 ++ url :: h2)%list -> _normalize url = Some v -> v ∉ visited s ->
    step s (mkState (queue s) ({[ v ]} ∪ visited s) (idle s) (h1 ++ h2)%list
                    (v :: working s) (dead s)
                    (fetched s) (saves s) (files s) (downloaded s))
| step_work (s : State) (url : string) (w1 w2 : list string) :
    working s = (w1 ++ url :: w2)%list ->
    step s (after_work url (process_url url) w1 w2 s).

(** The run has come to rest: no worker can take a step. *)
Definition at_rest (s : State) : Prop := forall s', ~ step s s'.

(** One schedule of the workers: a worker that is working on a URL goes
    first, then one that holds a URL, then a waiting one takes a URL from
    the queue; [None] when no worker can take a step. *)
Definition next (s : State) : option State :=
  match working s with
  | url :: w2 => Some (after_work url (process_url url) [] w2 s)
  | [] =>
      match holding s with
      | url :: h2 =>
          match _normalize url with
          | None =>
              Some (mkState (queue s) (visited s) (idle s) h2 (working s) (S (dead s))
                            (fetched s) (saves s) (files s) (downloaded s))
          | Some v =>
              if decide (v ∈ visited s)
              then Some (mkState (queue s) (visited s) (S (idle s)) h2 (working s) (dead s)
                                 (fetched s) (saves s) (files s) (downloaded s))
              else Some (mkState (queue s) ({[ v ]} ∪ visited s) (idle s) h2
                                 (v :: working s) (dead s)
                                 (fetched s) (saves s) (files s) (downloaded s))
          end
      | [] =>
          match queue s, idle s with
          | url :: q, S k =>
              Some (mkState q (visited s) k (url :: holding s) (working s) (dead s)
                            (fetched s) (saves s) (files s) (downloaded s))
          | _, _ => None
          end
      end
  end.

Fixpoint run_steps (fuel : nat) (s : State) : State :=
  match fuel with
  | 0 => s
  | S fuel' => match next s with Some s' => run_steps fuel' s' | None => s end
  end.

End crawler.
End Mirror.

(** A small site: five pages that link to one another, and to two pages
    of other hosts. *)
Module MirrorSample.
Import PyStr Mirror.

Definition seed : string := "http://m/".
Definition output_dir : string := "mirror".

Definition pages : list (string * (string * list (option string))) :=
  [ ("http://m", ("HOME", [Some "/a"; Some "/b/"; Some "http://x/ext"; None;
                             Some "mailto:me@m"; Some "#top"]));
    ("http://m/a", ("A", [Some "/a/c"; Some "/"; Some "/a#frag"]));
    ("http://m/b", ("B", [Some "/d.html"; Some "http://y/other"; Some "/a"]));
    ("http://m/a/c", ("C", [Some "/b"]));
    ("http://m/d.html", ("D", [Some "/"; Some "/a/c/"])) ].

Definition site : list string := map fst pages.

Fixpoint lookup {A : Type} (k : string) (l : list (string * A)) : option A :=
  match l with
  | [] => None
  | (k', v) :: rest => if String.eqb k k' then Some v else lookup k rest
  end.

(** The links of the sample are absolute, or start at the root of [m]. *)
Definition urljoin (base link : string) : option string :=
  if startswith "/" link then Some ("http://m" ++ link) else Some link.

Definition respond (url : string) : Response :=
  match lookup url pages with
  | Some (body, _) => Answer 200 "text/html; charset=utf-8" body
  | None => Answer 404 "text/html" "NOT FOUND"
  end.

Definition soup_links (body : string) : list (option string) :=
  match lookup body (map snd pages) with
  | Some links => links
  | None => []
  end.

Definition env : Env :=
  mkEnv (fun _ => true) urljoin respond soup_links (fun _ body => body) (fun _ _ => true).

(** A site of three pages, two of which have one local path: the home page
    links [/a] and [/a/index.html]. *)
Definition twin_pages : list (string * (string * list (option string))) :=
  [ ("http://m", ("HOME", [Some "/a"; Some "/a/index.html"]));
    ("http://m/a", ("A", []));
    ("http://m/a/index.html", ("A-INDEX", [])) ].

Definition twin_env : Env :=
  mkEnv (fun _ => true) urljoin
        (fun url => match lookup url twin_pages with
                    | Some (body, _) => Answer 200 "text/html" body
                    | None => Answer 404 "text/html" "NOT FOUND"
                    end)
        (fun body => match lookup body (map snd twin_pages) with
                     | Some links => links
                     | None => []
                     end)
        (fun _ body => body) (fun _ _ => true).

End MirrorSample.

(** ** The HTML converter: the body of a post *)

Module Converter.
Import PyStr.

(** [s.replace(c, repl)] for a one-character [c]. *)
Fixpoint replace_char (c : ascii) (repl s : string) : string :=
  match s with
  | EmptyString => EmptyString
  | String a r =>
      if eqc a c then repl ++ replace_char c repl r
      else String a (replace_char c repl r)
  end.

(** The [safe_body] of [build_html_output]: the body of a post with [&],
    [<] and [>] replaced, in this order. *)
Definition safe_body (body : string) : string :=
  replace_char ">" "&gt;" (replace_char "<" "&lt;" (replace_char "&" "&amp;" body)).

End Converter.

(** ** Inlined media: [data:] URIs *)

Module DataUri.
Import PyStr.

(** The standard library behind the helpers: [base64.b64encode],
    [base64.b64decode] ([None] when it raises), the type
    [mimetypes.guess_type] gives for a file name, the extension
    [mimetypes.guess_extension] gives for a type, and the 22 characters
    [random.choices] yields at the [k]th call of [_random_media_name]. *)
Record Env := mkEnv {
  netloc_ok : string -> bool;
  b64encode : string -> string;
  b64decode : string -> option string;
  guess_type : string -> option string;
  guess_extension : string -> option string;
  random_stem : nat -> string }.

(** The directory [recovered_media] and the number of names drawn. *)
Record State := mkState {
  recovered : gmap string string;
  draws : nat }.

Section helpers.
Variable E : Env.

(** [get_ext]. *)
Definition get_ext (url : string) : option string :=
  match UrlLib.urlparse (netloc_ok E) url with
  | Some (r, _) => Some (lower (snd (OsPath.splitext (UrlLib.path r))))
  | None => None
  end.

(** [guess_mime]; [None] when [urlparse] raises. *)
Definition guess_mime (url : string) (data : option string) : option string :=
  match get_ext url with
  | None => None
  | Some ext =>
      match guess_type E ("file" ++ ext) with
      | Some (String a m) => Some (String a m)
      | _ =>
          match data with
          | Some (String b d) =>
              if Nat.leb 4 (String.length (String b d)) then
                let sig := Regex.take_str 4 (String b d) in
                if String.eqb (Regex.take_str 3 sig)
                     (String (ch 255) (String (ch 216) (String (ch 255) EmptyString)))
                then Some "image/jpeg"
                else if String.eqb (Regex.take_str 4 sig) (String (ch 137) "PNG")
                then Some "image/png"
                else if String.eqb (Regex.take_str 6 sig) "GIF87a" ||
                        String.eqb (Regex.take_str 6 sig) (Regex.take_str 4 "GIF89a")
                then Some "image/gif"
                else if String.eqb (Regex.take_str 4 sig) "RIFF" then Some "video/webm"
                else Some "application/octet-stream"
              else Some "application/octet-stream"
          | _ => Some "application/octet-stream"
          end
      end
  end.

(** [data_uri]. *)
Definition data_uri (data_bytes mime : string) : string :=
  "data:" ++ mime ++ ";base64," ++ b64encode E data_bytes.

(** [_random_media_name], at the [k]th call. *)
Definition _random_media_name (ext : string) (k : nat) : string := random_stem E k ++ ext.

(** [_extract_b64_media]: the path of the file written and the type, or
    [None]; the [try] catches what the header, the decoder and the write
    raise. *)
Definition _extract_b64_media (src_attr recovered_dir : string) (st : State)
    : option (string * string) * State :=
  if negb (startswith "data:" src_attr) then (None, st)
  else
    match split_first "," src_attr with
    | None => (None, st)
    | Some (header, b64data) =>
        match Extractor.split_on ":" header with
        | _ :: m :: _ =>
            let mime := strip (hd EmptyString (Extractor.split_on ";" m)) in
            let ext := match guess_extension E mime with
                       | Some (String a e) => String a e
                       | _ => ".bin"
                       end in
            let ext := if String.eqb ext ".jpe" || String.eqb ext ".jpeg" then ".jpg"
                       else ext in
            let fname := _random_media_name ext (draws st) in
            let fpath := Mirror.path_join recovered_dir fname in
            let st := mkState (recovered st) (S (draws st)) in
            match b64decode E (b64data ++ "==") with
            | None => (None, st)
            | Some raw => (Some (fpath, mime), mkState (<[fpath := raw]> (recovered st)) (draws st))
            end
        | _ => (None, st)
        end
    end.

End helpers.
End DataUri.

(** A stand-in for the library, to run the helpers on: the encoding leaves
    the bytes as they are and the decoder takes the padding off. *)
Module DataUriSample.
Import PyStr DataUri.

Definition env : Env :=
  mkEnv (fun _ => true)
        (fun d => d)
        (fun s => Some (Regex.take_str (String.length s - 2) s))
        (fun name => if OsPath.endswith ".png" name then Some "image/png" else None)
        (fun mime => if String.eqb mime "image/png" then Some ".png" else None)
        (fun k => "a3f9c2d0814b07" ++ "0000000" ++ str_of_nat (k mod 10)).

End DataUriSample.

(** A unit of three pages: the second page has the byte length of the
    first and another content, and the third returns the second again. *)

Module PagerSample.
Import Backup.

Definition site : list (string * string) :=
  [ ("http://f/showthread.php?t=7", "PAGE ONE");
    ("http://f/showthread.php?t=7&page=2", "PAGE TWO");
    ("http://f/showthread.php?t=7&page=3", "PAGE TWO") ].

Definition pagers : list (string * list string) :=
  [ ("PAGE ONE", [ "showthread.php?t=7&page=2"; "showthread.php?t=7&page=3" ]) ].

Definition env : Env :=
  mkEnv ForumSample.media_env
        (fun u => ForumSample.lookup None (map (fun kv => (fst kv, Some (snd kv))) site) u)
        (fun _ => []) (ForumSample.lookup [] pagers) (fun _ => true).

Definition unit7 : Thread := mkThread "7" "http://f/showthread.php?t=7" "Eta".

End PagerSample.

(** A forum of two listing pages that link one unit under two URLs: the
    first listing page under a URL that cannot be fetched, the second under
    one that can. *)

Module TwoLinksSample.
Import Backup.

Definition base_url : string := "http://g/forum".

Definition site : list (string * string) :=
  [ ("http://g/forum", "LISTING-ONE");
    ("http://g/forum?page=2", "LISTING-TWO");
    ("http://g/showthread.php?t=3", "UNIT-3 ONLY PAGE") ].

Definition anchors : list (string * list (string * string)) :=
  [ ("LISTING-ONE", [ ("showthread.php?t=3&goto=newpost", "Gamma"); ("forum?page=2", "2") ]);
    ("LISTING-TWO", [ ("showthread.php?t=3", "Gamma") ]) ].

Definition media_env : Media.Env :=
  Media.mkEnv (fun _ => true) (fun _ u => Some ("http://g/" ++ u))
              (fun _ => Media.mkMediaTags [] [] [] [] []) (fun l => l) (fun _ => None)
              (fun _ => true).

Definition env : Env :=
  mkEnv media_env
        (fun u => ForumSample.lookup None (map (fun kv => (fst kv, Some (snd kv))) site) u)
        (ForumSample.lookup [] anchors) (fun _ => []) (fun _ => true).

(** The listing pages complete in the order they were submitted, or the
    last submitted first. *)
Definition in_order (results : list (list Thread)) : list (list Thread) := results.
Definition last_first (results : list (list Thread)) : list (list Thread) := rev results.

End TwoLinksSample.

(** * Part II: properties of the embedded program *)

(** ** Facts about the string primitives *)

Module PyStrFacts.
Import PyStr.

Lemma eqc_true (a b : ascii) : eqc a b = true <-> a = b.
Proof. unfold eqc. apply Ascii.eqb_eq. Qed.

Lemma eqc_refl (a : ascii) : eqc a a = true.
Proof. apply eqc_true. reflexivity. Qed.

Lemma mem_app (c : ascii) (s t : string) :
  mem c (s ++ t) = mem c s || mem c t.
Proof.
  induction s as [|a s IH]; simpl; [reflexivity|].
  rewrite IH. apply orb_assoc.
Qed.

Lemma rstrip_mem (c d : ascii) (s : string) :
  mem d s = false -> mem d (rstrip c s) = false.
Proof.
  induction s as [|a s IH]; simpl; [reflexivity|].
  intros H. apply orb_false_iff in H as [Ha Hs]. specialize (IH Hs).
  destruct (rstrip c s) as [|b r] eqn:E.
  - destruct (eqc a c); simpl; [reflexivity|]. rewrite Ha. reflexivity.
  - change (mem d (String a (String b r))) with (eqc a d || mem d (String b r)).
    rewrite Ha, IH. reflexivity.
Qed.

(** Stripping twice strips nothing more. *)
Lemma rstrip_idem (c : ascii) (s : string) : rstrip c (rstrip c s) = rstrip c s.
Proof.
  induction s as [|a s IH]; simpl; [reflexivity|].
  destruct (rstrip c s) as [|b r] eqn:E.
  - destruct (eqc a c) eqn:Ea; simpl; [reflexivity|]. rewrite Ea. reflexivity.
  - change (rstrip c (String a (String b r)))
      with (match rstrip c (String b r) with
            | EmptyString => if eqc a c then EmptyString else String a EmptyString
            | r' => String a r'
            end).
    rewrite IH. reflexivity.
Qed.

Lemma split_first_spec (c : ascii) (s x y : string) :
  split_first c s = Some (x, y) -> s = x ++ String c y /\ mem c x = false.
Proof.
  revert x y. induction s as [|a s IH]; simpl; intros x y H; [discriminate|].
  destruct (eqc a c) eqn:Ea.
  - injection H as <- <-. apply eqc_true in Ea as ->. split; reflexivity.
  - destruct (split_first c s) as [[x' y']|]; [|discriminate].
    injection H as <- <-. destruct (IH _ _ eq_refl) as [-> Hm].
    split; [reflexivity|]. simpl. rewrite Ea, Hm. reflexivity.
Qed.

Lemma split_first_None (c : ascii) (s : string) :
  split_first c s = None <-> mem c s = false.
Proof.
  induction s as [|a s IH]; simpl; [tauto|].
  destruct (eqc a c); simpl.
  - split; discriminate.
  - destruct (split_first c s) as [[x y]|].
    + split; [discriminate|]. intros H. apply IH in H. discriminate.
    + tauto.
Qed.

Lemma split_last_spec (c : ascii) (s x y : string) :
  split_last c s = Some (x, y) -> s = x ++ String c y.
Proof.
  revert x y. induction s as [|a s IH]; simpl; intros x y H; [discriminate|].
  destruct (split_last c s) as [[x' y']|].
  - injection H as <- <-. rewrite (IH _ _ eq_refl). reflexivity.
  - destruct (eqc a c) eqn:Ea; [|discriminate].
    injection H as <- <-. apply eqc_true in Ea as ->. reflexivity.
Qed.

Lemma span_until_spec (p : ascii -> bool) (s x y : string) :
  span_until p s = (x, y) -> s = x ++ y /\ all_by (fun a => negb (p a)) x = true.
Proof.
  revert x y. induction s as [|a s IH]; simpl; intros x y H.
  - injection H as <- <-. split; reflexivity.
  - destruct (p a) eqn:Ea.
    + injection H as <- <-. split; reflexivity.
    + destruct (span_until p s) as [x' y']. injection H as <- <-.
      destruct (IH _ _ eq_refl) as [-> Hx]. split; [reflexivity|].
      simpl. rewrite Ea, Hx. reflexivity.
Qed.

Lemma strip_prefix_spec (p s r : string) : strip_prefix p s = Some r -> s = p ++ r.
Proof.
  revert s. induction p as [|a p IH]; intros [|b s]; simpl; intros H;
    try discriminate; try (injection H as <-; reflexivity).
  destruct (eqc a b) eqn:E; [|discriminate].
  apply eqc_true in E as ->. rewrite (IH _ H). reflexivity.
Qed.

(** A string whose characters all satisfy [p] holds no character outside [p]. *)
Lemma all_by_mem (p : ascii -> bool) (c : ascii) (s : string) :
  all_by p s = true -> p c = false -> mem c s = false.
Proof.
  intros Hs Hc. induction s as [|a s IH]; simpl in *; [reflexivity|].
  apply andb_true_iff in Hs as [Ha Hs]. rewrite (IH Hs), orb_false_r.
  destruct (eqc a c) eqn:E; [|reflexivity].
  apply eqc_true in E as ->. congruence.
Qed.

Lemma remove_by_mem (p : ascii -> bool) (c : ascii) (s : string) :
  mem c s = false -> mem c (remove_by p s) = false.
Proof.
  induction s as [|a s IH]; simpl; [reflexivity|].
  intros H. apply orb_false_iff in H as [Ha Hs].
  destruct (p a); simpl; [auto|]. rewrite Ha. auto.
Qed.

Lemma lstrip_by_mem (p : ascii -> bool) (c : ascii) (s : string) :
  mem c s = false -> mem c (lstrip_by p s) = false.
Proof.
  induction s as [|a s IH]; simpl; [reflexivity|].
  intros H. destruct (p a); [|exact H].
  apply orb_false_iff in H as [_ Hs]. auto.
Qed.

Lemma app_length_str (s t : string) :
  String.length (s ++ t) = String.length s + String.length t.
Proof.
  induction s as [|a s IH]; [reflexivity|].
  change (S (String.length (s ++ t)) = S (String.length s + String.length t)).
  rewrite IH. reflexivity.
Qed.

Lemma app_inv_head_str (s t u : string) : s ++ t = s ++ u -> t = u.
Proof.
  induction s as [|a s IH]; intros H; [exact H|].
  change (String a (s ++ t) = String a (s ++ u)) in H. injection H as H. auto.
Qed.

Lemma app_inv_tail_str (s t u : string) : s ++ u = t ++ u -> s = t.
Proof.
  revert t. induction s as [|a s IH]; intros [|b t] H.
  - reflexivity.
  - apply (f_equal String.length) in H. rewrite !app_length_str in H. simpl in H. lia.
  - apply (f_equal String.length) in H. rewrite !app_length_str in H. simpl in H. lia.
  - change (String a (s ++ u) = String b (t ++ u)) in H.
    injection H as -> H. rewrite (IH _ H). reflexivity.
Qed.

Lemma code_ch (n : nat) : n < 256 -> code (ch n) = n.
Proof. intros H. unfold code, ch. apply nat_ascii_embedding. exact H. Qed.

Definition digit_step (acc : nat) (c : ascii) : nat := 10 * acc + (code c - 48).

Lemma int_of_digits_fold (s : string) :
  int_of_digits s = fold_left digit_step (list_ascii_of_string s) 0.
Proof. reflexivity. Qed.

Lemma fold_digit_cons (a : ascii) (s : string) (v : nat) :
  fold_left digit_step (list_ascii_of_string (String a s)) v =
  fold_left digit_step (list_ascii_of_string s) (10 * v + (code a - 48)).
Proof. reflexivity. Qed.

Lemma digits_fuel_value (fuel n : nat) (acc : string) :
  n < fuel ->
  fold_left digit_step (list_ascii_of_string (digits_fuel fuel n acc)) 0 =
  fold_left digit_step (list_ascii_of_string acc) n.
Proof.
  revert n acc. induction fuel as [|f IH]; intros n acc Hn; [lia|].
  pose proof (Nat.div_mod_eq n 10) as Hdm.
  pose proof (Nat.mod_upper_bound n 10 ltac:(lia)) as Hm.
  assert (Hc : code (ch (48 + n mod 10)) - 48 = n mod 10).
  { rewrite code_ch; lia. }
  cbn [digits_fuel]. cbv zeta.
  destruct (Nat.eqb (n / 10) 0) eqn:E.
  - apply Nat.eqb_eq in E. rewrite fold_digit_cons, Hc. f_equal. lia.
  - apply Nat.eqb_neq in E.
    assert (Hlt : n / 10 < f) by (apply Nat.lt_le_trans with n; [apply Nat.div_lt|]; lia).
    rewrite (IH _ _ Hlt), fold_digit_cons, Hc. f_equal. lia.
Qed.

(** [int(str(n)) = n]. *)
Lemma int_of_str_of_nat (n : nat) : int_of_digits (str_of_nat n) = n.
Proof.
  unfold str_of_nat. rewrite int_of_digits_fold.
  rewrite digits_fuel_value by lia. reflexivity.
Qed.

Lemma str_of_nat_inj (m n : nat) : str_of_nat m = str_of_nat n -> m = n.
Proof.
  intros H. rewrite <- (int_of_str_of_nat m), <- (int_of_str_of_nat n), H. reflexivity.
Qed.

End PyStrFacts.

(** ** Facts about the [urllib.parse] model *)

Module UrlLibFacts.
Import PyStr PyStrFacts UrlLib.

Definition hash : ascii := "#"%char.

Lemma scheme_char_lower_not_hash (a : ascii) :
  scheme_char a = true -> eqc (lower_char a) hash = false.
Proof.
  destruct a as [[] [] [] [] [] [] [] []]; vm_compute; congruence.
Qed.

Lemma lower_scheme_no_hash (s : string) :
  all_by scheme_char s = true -> mem hash (lower s) = false.
Proof.
  induction s as [|a s IH]; simpl; [reflexivity|].
  intros H. apply andb_true_iff in H as [Ha Hs].
  rewrite (scheme_char_lower_not_hash a Ha). auto.
Qed.

Lemma mem_app_false (c : ascii) (s t : string) :
  mem c (s ++ t) = false <-> mem c s = false /\ mem c t = false.
Proof. rewrite mem_app. apply orb_false_iff. Qed.

Lemma mem_cons_false (c a : ascii) (s : string) :
  mem c (String a s) = false <-> eqc a c = false /\ mem c s = false.
Proof. simpl. apply orb_false_iff. Qed.

Lemma split_scheme_no_hash (url sch rest : string) :
  split_scheme url = (sch, rest) -> mem hash url = false ->
  mem hash sch = false /\ mem hash rest = false.
Proof.
  unfold split_scheme. intros H Hu.
  destruct (split_first ":" url) as [[[|a pre] r]|] eqn:E;
    try (injection H as <- <-; split; [reflexivity|exact Hu]).
  destruct (is_ascii_alpha a && all_by scheme_char (String a pre)) eqn:Ea;
    injection H as <- <-; [|split; [reflexivity|exact Hu]].
  apply andb_true_iff in Ea as [_ Hall].
  apply split_first_spec in E as [-> _].
  apply mem_app_false in Hu as [_ Hr]. apply mem_cons_false in Hr as [_ Hr].
  split; [exact (lower_scheme_no_hash (String a pre) Hall) | exact Hr].
Qed.

(** A scheme never holds the fragment sign, whatever the URL. *)
Lemma split_scheme_scheme (url sch rest : string) :
  split_scheme url = (sch, rest) -> mem hash sch = false.
Proof.
  unfold split_scheme. intros H.
  destruct (split_first ":" url) as [[[|a pre] r]|] eqn:E;
    try (injection H as <- <-; reflexivity).
  destruct (is_ascii_alpha a && all_by scheme_char (String a pre)) eqn:Ea;
    injection H as <- <-; [|reflexivity].
  apply andb_true_iff in Ea as [_ Hall]. exact (lower_scheme_no_hash (String a pre) Hall).
Qed.

Lemma first_or_all_no_hash (c : ascii) (url x y : string) :
  match split_first c url with Some p => p | None => (url, EmptyString) end = (x, y) ->
  mem hash url = false -> mem hash x = false /\ mem hash y = false.
Proof.
  intros H Hu. destruct (split_first c url) as [[x' y']|] eqn:E.
  - injection H as <- <-. apply split_first_spec in E as [-> _].
    apply mem_app_false in Hu as [Hx Hy]. apply mem_cons_false in Hy as [_ Hy]. auto.
  - injection H as <- <-. auto.
Qed.

Section defrag.
Variable netloc_ok : string -> bool.

Lemma urlsplit_no_hash (url : string) (r : SplitResult) :
  urlsplit netloc_ok url = Some r ->
  mem hash (scheme r) = false /\ mem hash (netloc r) = false /\
  mem hash (path r) = false /\ mem hash (query r) = false.
Proof.
  unfold urlsplit. intros H.
  destruct (split_scheme _) as [sch u1] eqn:Es.
  destruct (match strip_prefix "//" u1 with
            | Some r0 => span_until netloc_delim r0
            | None => (EmptyString, u1) end) as [nl u2] eqn:En.
  destruct (negb (brackets_ok nl)); [discriminate|].
  destruct (match split_first "#" u2 with Some p => p | None => (u2, EmptyString) end)
    as [u3 frag] eqn:Ef.
  destruct (match split_first "?" u3 with Some p => p | None => (u3, EmptyString) end)
    as [u4 q] eqn:Eq.
  destruct (negb (netloc_ok nl)); [discriminate|].
  injection H as <-. simpl.
  assert (Hnl : mem hash nl = false).
  { destruct (strip_prefix "//" u1) as [r0|].
    - apply span_until_spec in En as [_ Hall].
      apply (all_by_mem _ _ _ Hall). reflexivity.
    - injection En as <- <-. reflexivity. }
  assert (Hu3 : mem hash u3 = false).
  { destruct (split_first "#" u2) as [[x y]|] eqn:E.
    - injection Ef as <- <-. apply split_first_spec in E as [_ Hx]. exact Hx.
    - injection Ef as <- <-. apply split_first_None in E. exact E. }
  destruct (first_or_all_no_hash _ _ _ _ Eq Hu3) as [H4 Hq].
  repeat split; try assumption.
  eapply split_scheme_scheme; exact Es.
Qed.

Lemma _splitparams_no_hash (url p params : string) :
  _splitparams url = (p, params) -> mem hash url = false ->
  mem hash p = false /\ mem hash params = false.
Proof.
  unfold _splitparams. intros H Hu.
  destruct (split_last "/" url) as [[dir base]|] eqn:El.
  - apply split_last_spec in El. subst url.
    apply mem_app_false in Hu as [Hd Hb]. apply mem_cons_false in Hb as [_ Hb].
    destruct (split_first ";" base) as [[b ps]|] eqn:E.
    + injection H as <- <-. apply split_first_spec in E as [-> _].
      apply mem_app_false in Hb as [Hb Hp]. apply mem_cons_false in Hp as [_ Hp].
      split; [|exact Hp]. apply mem_app_false. split; [exact Hd|].
      apply mem_cons_false. split; [reflexivity|exact Hb].
    + injection H as <- <-. split; [|reflexivity].
      apply mem_app_false. split; [exact Hd|].
      apply mem_cons_false. split; [reflexivity|exact Hb].
  - apply (first_or_all_no_hash ";" url); [|exact Hu].
    destruct (split_first ";" url) as [[x y]|]; exact H.
Qed.

Lemma urlunsplit_no_hash (r : SplitResult) :
  mem hash (scheme r) = false -> mem hash (netloc r) = false ->
  mem hash (path r) = false -> mem hash (query r) = false ->
  fragment r = EmptyString ->
  mem hash (urlunsplit r) = false.
Proof.
  intros Hs Hn Hp Hq Hf. unfold urlunsplit. rewrite Hf. simpl is_empty. cbv iota.
  set (u1 := if _ : bool then _ else path r).
  assert (H1 : mem hash u1 = false).
  { subst u1. destruct (_ || _ : bool); [|exact Hp].
    rewrite !mem_app, Hn. change (mem hash "//") with false.
    destruct (negb (is_empty (path r)) && negb (startswith "/" (path r)));
      simpl; exact Hp. }
  clearbody u1.
  set (u2 := if is_empty (scheme r) then u1 else _).
  assert (H2 : mem hash u2 = false).
  { subst u2. destruct (is_empty (scheme r)); [exact H1|].
    rewrite mem_app, Hs. simpl. exact H1. }
  clearbody u2.
  destruct (is_empty (query r)); [exact H2|].
  rewrite mem_app, H2. simpl. exact Hq.
Qed.

(** The URL [urldefrag] returns holds no fragment sign. *)
Lemma urldefrag_no_hash (url d f : string) :
  urldefrag netloc_ok url = Some (d, f) -> mem hash d = false.
Proof.
  unfold urldefrag. destruct (mem "#" url) eqn:Eh.
  - destruct (urlparse netloc_ok url) as [[r params]|] eqn:Ep; [|discriminate].
    intros H. injection H as <- <-.
    assert (Hr : mem hash (scheme r) = false /\ mem hash (netloc r) = false /\
                 mem hash (path r) = false /\ mem hash (query r) = false /\
                 mem hash params = false).
    { unfold urlparse in Ep.
      destruct (urlsplit netloc_ok url) as [r0|] eqn:Es; [|discriminate].
      apply urlsplit_no_hash in Es as (Hs & Hn & Hp & Hq).
      destruct (str_in (scheme r0) uses_params && mem ";" (path r0)).
      - destruct (_splitparams (path r0)) as [p ps] eqn:Esp.
        injection Ep as <- <-. simpl.
        destruct (_splitparams_no_hash _ _ _ Esp Hp). auto.
      - injection Ep as <- <-. auto. }
    destruct Hr as (Hs & Hn & Hp & Hq & Hps).
    unfold urlunparse. apply urlunsplit_no_hash; simpl; try assumption; try reflexivity.
    destruct (is_empty params); [exact Hp|].
    rewrite mem_app, Hp. simpl. exact Hps.
  - intros H. injection H as <- <-. exact Eh.
Qed.

End defrag.
End UrlLibFacts.

(** ** The mirror's URL normalisation *)

Module MirrorUrlFacts.
Import PyStr PyStrFacts UrlLib UrlLibFacts MirrorUrl.

Section normalize.
Variable netloc_ok : string -> bool.

Lemma _normalize_no_hash (u v : string) :
  _normalize netloc_ok u = Some v -> mem hash v = false.
Proof.
  unfold _normalize.
  destruct (urldefrag netloc_ok u) as [[d f]|] eqn:E; [|discriminate].
  intros H. injection H as <-. apply rstrip_mem.
  eapply urldefrag_no_hash; exact E.
Qed.

(** A normalised URL is a fixed point of [_normalize]. *)
Lemma _normalize_fixed (u v : string) :
  _normalize netloc_ok u = Some v -> _normalize netloc_ok v = Some v.
Proof.
  intros H. pose proof (_normalize_no_hash _ _ H) as Hv.
  unfold _normalize in *.
  destruct (urldefrag netloc_ok u) as [[d f]|]; [|discriminate].
  injection H as <-.
  unfold urldefrag. unfold hash in Hv. rewrite Hv. rewrite rstrip_idem. reflexivity.
Qed.

(** C10. [MirrorCrawler._normalize] is idempotent on every URL string:
    normalising the result of a normalisation returns that result again (a
    call that raises is [None] and stays [None]); the result holds no
    fragment sign and no trailing slash, so every member of the visited set
    is a fixed point and re-normalising it yields no new key. *)
Theorem normalize_idempotent (u : string) :
  (_normalize netloc_ok u ≫= _normalize netloc_ok) = _normalize netloc_ok u
  /\ (forall v, _normalize netloc_ok u = Some v ->
        mem "#" v = false /\ rstrip "/" v = v /\ _normalize netloc_ok v = Some v).
Proof.
  split.
  - destruct (_normalize netloc_ok u) as [v|] eqn:E; simpl; [|reflexivity].
    eapply _normalize_fixed; exact E.
  - intros v Hv. split; [exact (_normalize_no_hash _ _ Hv)|]. split.
    + unfold _normalize in Hv.
      destruct (urldefrag netloc_ok u) as [[d f]|]; [|discriminate].
      injection Hv as <-. apply rstrip_idem.
    + eapply _normalize_fixed; exact Hv.
Qed.

End normalize.
End MirrorUrlFacts.

(** ** The markup conversion *)

Module RestorationFacts.
Import PyStr PyStrFacts Restoration.

Lemma tag_in_In (tag : string) (names : list string) :
  tag_in tag names = true <-> In tag names.
Proof.
  unfold tag_in. rewrite existsb_exists. split.
  - intros (x & Hx & E). apply String.eqb_eq in E. subst. exact Hx.
  - intros H. exists tag. split; [exact H | apply String.eqb_refl].
Qed.

Lemma tag_in_false (tag : string) (names : list string) :
  ~ In tag names -> tag_in tag names = false.
Proof.
  intros H. destruct (tag_in tag names) eqn:E; [|reflexivity].
  apply tag_in_In in E. contradiction.
Qed.

Lemma eqb_false_not_in (tag x : string) (names : list string) :
  ~ In tag names -> In x names -> String.eqb tag x = false.
Proof.
  intros H Hx. apply String.eqb_neq. intros ->. contradiction.
Qed.

Lemma join_children (cs : list Node) :
  (fix join (cs : list Node) : string :=
     match cs with
     | [] => EmptyString
     | c :: cs' => _html_to_bbcode c ++ join cs'
     end) cs = convert_children cs.
Proof. induction cs as [|c cs IH]; simpl; [reflexivity | rewrite IH; reflexivity]. Qed.

(** The conversion of an element, as a function of its lower-cased name. *)
Lemma _html_to_bbcode_tag (name : string) (attrs : gmap string string) (cs : list Node) :
  _html_to_bbcode (Tag name attrs cs) =
  let tag := lower name in
  let inner := convert_children cs in
  if tag_in tag ["b"; "strong"] then "[B]" ++ inner ++ "[/B]"
  else if tag_in tag ["i"; "em"] then "[I]" ++ inner ++ "[/I]"
  else if String.eqb tag "u" then "[U]" ++ inner ++ "[/U]"
  else if tag_in tag ["s"; "strike"; "del"] then "[S]" ++ inner ++ "[/S]"
  else if String.eqb tag "a" then
    let href := attr attrs "href" in
    if is_empty href then inner else "[URL=" ++ href ++ "]" ++ inner ++ "[/URL]"
  else if String.eqb tag "img" then
    let src := attr attrs "src" in
    if startswith "data:" src then "[IMG]<embedded>[/IMG]"
    else "[IMG]" ++ src ++ "[/IMG]"
  else if String.eqb tag "blockquote" then "[QUOTE]" ++ inner ++ "[/QUOTE]"
  else if tag_in tag ["code"; "pre"] then "[CODE]" ++ inner ++ "[/CODE]"
  else if tag_in tag ["h1"; "h2"; "h3"; "h4"; "h5"; "h6"] then
    "[SIZE=" ++ heading_size tag ++ "][B]" ++ inner ++ "[/B][/SIZE]" ++ String nl EmptyString
  else if String.eqb tag "br" then String nl EmptyString
  else if String.eqb tag "p" then strip inner ++ String nl (String nl EmptyString)
  else if tag_in tag ["ul"; "ol"] then
    "[LIST]" ++ String nl inner ++ "[/LIST]" ++ String nl EmptyString
  else if String.eqb tag "li" then "[*]" ++ strip inner ++ String nl EmptyString
  else if tag_in tag ["div"; "span"; "section"; "article"] then inner
  else if tag_in tag ["script"; "style"; "head"; "meta"; "link"; "noscript"]
  then EmptyString
  else inner.
Proof.
  cbv zeta. rewrite <- (join_children cs). reflexivity.
Qed.

(** *** Blank lines *)

Definition nl3 : string := newlines 3.

Lemma eqc_nl_false (a : ascii) : eqc a nl = false -> eqc nl a = false.
Proof.
  intros H. destruct (eqc nl a) eqn:E; [|reflexivity].
  apply eqc_true in E. subst a. rewrite eqc_refl in H. discriminate.
Qed.

Lemma startswith_cons (a b : ascii) (p s : string) :
  startswith (String a p) (String b s) = eqc a b && startswith p s.
Proof. unfold startswith. simpl. destruct (eqc a b); reflexivity. Qed.

Lemma contains_cons (p : string) (a : ascii) (s : string) :
  contains p (String a s) = startswith p (String a s) || contains p s.
Proof. reflexivity. Qed.

(** At most two newlines, then another character, then text without three
    newlines in a row: no three newlines in a row. *)
Lemma emit_run_sep (n : nat) (a : ascii) (s : string) :
  eqc a nl = false -> contains nl3 s = false ->
  contains nl3 (emit_run n ++ String a s) = false.
Proof.
  intros Ha Hs. pose proof (eqc_nl_false a Ha) as Ha'.
  assert (H0 : contains nl3 (String a s) = false).
  { rewrite contains_cons. unfold nl3. simpl newlines.
    rewrite startswith_cons, Ha'. exact Hs. }
  assert (H1 : contains nl3 (String nl (String a s)) = false).
  { rewrite contains_cons. unfold nl3 at 1. simpl newlines.
    rewrite !startswith_cons, Ha', andb_false_r. exact H0. }
  assert (H2 : contains nl3 (String nl (String nl (String a s))) = false).
  { rewrite contains_cons. unfold nl3 at 1. simpl newlines.
    rewrite !startswith_cons, Ha', !andb_false_r. exact H1. }
  unfold emit_run. destruct n as [|[|[|n]]]; simpl; assumption.
Qed.

Lemma emit_run_clean (n : nat) : contains nl3 (emit_run n) = false.
Proof. destruct n as [|[|[|n]]]; reflexivity. Qed.

Lemma sub_newlines_clean (run : nat) (text : string) :
  contains nl3 (sub_newlines run text) = false.
Proof.
  revert run. induction text as [|a r IH]; intros run; simpl.
  - apply emit_run_clean.
  - destruct (eqc a nl) eqn:Ea; [apply IH|].
    apply emit_run_sep; [exact Ea | apply IH].
Qed.

Lemma startswith_app (p s t : string) :
  startswith p s = true -> startswith p (s ++ t) = true.
Proof.
  unfold startswith. revert s. induction p as [|a p IH]; intros [|b s]; simpl;
    try reflexivity; try discriminate.
  destruct (eqc a b); [apply IH | discriminate].
Qed.

Lemma contains_prefix (p s t : string) :
  contains p (s ++ t) = false -> contains p s = false.
Proof.
  induction s as [|a s IH].
  - intros H. destruct p as [|b p]; [|reflexivity].
    destruct t; simpl in H; discriminate.
  - change (String a s ++ t) with (String a (s ++ t)). rewrite !contains_cons.
    intros H. apply orb_false_iff in H as [H1 H2]. rewrite (IH H2), orb_false_r.
    destruct (startswith p (String a s)) eqn:E; [|reflexivity].
    apply (startswith_app _ _ t) in E.
    change (String a s ++ t) with (String a (s ++ t)) in E. congruence.
Qed.

Lemma rstrip_by_prefix (f : ascii -> bool) (s : string) :
  exists t, s = rstrip_by f s ++ t.
Proof.
  induction s as [|a s [t IH]]; [exists EmptyString; reflexivity|].
  simpl. destruct (rstrip_by f s) as [|b r] eqn:E.
  - destruct (f a).
    + exists (String a s). reflexivity.
    + exists s. reflexivity.
  - exists t. simpl. rewrite IH at 1. reflexivity.
Qed.

Lemma contains_lstrip (p : string) (f : ascii -> bool) (s : string) :
  contains p s = false -> contains p (lstrip_by f s) = false.
Proof.
  induction s as [|a s IH]; [intros H; exact H|].
  simpl lstrip_by. destruct (f a); [|intros H; exact H].
  rewrite contains_cons. intros H. apply orb_false_iff in H as [_ H]. auto.
Qed.

Lemma contains_strip (p s : string) :
  contains p s = false -> contains p (strip s) = false.
Proof.
  intros H. unfold strip. apply (contains_lstrip p is_space) in H.
  destruct (rstrip_by_prefix is_space (lstrip_by is_space s)) as [t Ht].
  rewrite Ht in H. exact (contains_prefix _ _ _ H).
Qed.

Lemma newlines_shift (n : nat) (r : string) :
  newlines (S n) ++ r = newlines n ++ String nl r.
Proof.
  induction n as [|n IH]; [reflexivity|].
  change (String nl (newlines (S n) ++ r) = String nl (newlines n ++ String nl r)).
  rewrite IH. reflexivity.
Qed.

Lemma contains_newlines_tail (n : nat) (s : string) :
  contains nl3 (newlines n ++ s) = false -> contains nl3 s = false.
Proof.
  induction n as [|n IH]; [intros H; exact H|].
  change (newlines (S n) ++ s) with (String nl (newlines n ++ s)).
  rewrite contains_cons. intros H. apply orb_false_iff in H as [_ H]. auto.
Qed.

(** A text without a run of three newlines passes the substitution unchanged. *)
Lemma sub_newlines_short (run : nat) (text : string) :
  contains nl3 (newlines run ++ text) = false ->
  sub_newlines run text = newlines run ++ text.
Proof.
  revert run. induction text as [|a r IH]; intros run H.
  - simpl. unfold emit_run. destruct run as [|[|[|n]]]; try reflexivity.
    simpl in H. discriminate.
  - simpl sub_newlines. destruct (eqc a nl) eqn:Ea.
    + apply eqc_true in Ea. subst a. rewrite <- newlines_shift in H |- *.
      apply IH. exact H.
    + pose proof (contains_newlines_tail _ _ H) as Hr.
      rewrite contains_cons in Hr. apply orb_false_iff in Hr as [_ Hr].
      rewrite (IH 0 Hr). unfold emit_run.
      destruct run as [|[|[|n]]]; try reflexivity.
      simpl in H. discriminate.
Qed.

Lemma not_in_cons_inv (tag x : string) (names : list string) :
  ~ In tag (x :: names) -> String.eqb tag x = false /\ ~ In tag names.
Proof.
  intros H. split.
  - apply String.eqb_neq. intros ->. apply H. left. reflexivity.
  - intros Hin. apply H. right. exact Hin.
Qed.

Ltac tag_cases H :=
  repeat (destruct H as [H|H]; [rewrite <- H; reflexivity|]); destruct H.

(** *** Runs of newlines *)

(** No newline in the text. *)
Definition no_newline (s : string) : bool := all_by (fun c => negb (eqc c nl)) s.

Lemma emit_run_min (n : nat) : emit_run n = newlines (Nat.min n 2).
Proof. destruct n as [|[|[|n]]]; reflexivity. Qed.

Lemma sub_newlines_run (n run : nat) :
  sub_newlines run (newlines n) = emit_run (run + n).
Proof.
  revert run. induction n as [|n IH]; intros run; simpl.
  - rewrite Nat.add_0_r. reflexivity.
  - rewrite ?eqc_refl, IH. f_equal. lia.
Qed.

Lemma sub_newlines_run_then (n run : nat) (a : ascii) (rest : string) :
  eqc a nl = false ->
  sub_newlines run (newlines n ++ String a rest)
  = emit_run (run + n) ++ String a (sub_newlines 0 rest).
Proof.
  intros Ha. revert run. induction n as [|n IH]; intros run.
  - change (newlines 0 ++ String a rest) with (String a rest). simpl.
    rewrite Ha, Nat.add_0_r. reflexivity.
  - change (newlines (S n) ++ String a rest) with (String nl (newlines n ++ String a rest)).
    simpl. rewrite ?eqc_refl, IH. do 2 f_equal. lia.
Qed.

Lemma append_empty (s : string) : s ++ EmptyString = s.
Proof.
  induction s as [|a r IH]; [reflexivity|].
  change (String a r ++ EmptyString) with (String a (r ++ EmptyString)). rewrite IH. reflexivity.
Qed.

Lemma append_assoc_r (s t u : string) : s ++ t ++ u = (s ++ t) ++ u.
Proof.
  induction s as [|a s IH]; [reflexivity|].
  change (String a (s ++ t ++ u) = String a ((s ++ t) ++ u)). rewrite IH. reflexivity.
Qed.

Lemma sub_newlines_plain (x s : string) :
  no_newline x = true -> sub_newlines 0 (x ++ s) = x ++ sub_newlines 0 s.
Proof.
  induction x as [|a x IH]; intros H; [reflexivity|].
  unfold no_newline in *. cbn [all_by] in H.
  apply andb_true_iff in H as [Ha Hx]. apply negb_true_iff in Ha.
  change (String a x ++ s) with (String a (x ++ s)). simpl sub_newlines.
  rewrite Ha, (IH Hx). reflexivity.
Qed.

Lemma not_space_not_newline (a : ascii) : is_space a = false -> eqc a nl = false.
Proof.
  intros H. destruct (eqc a nl) eqn:E; [|reflexivity].
  apply eqc_true in E. subst a. discriminate H.
Qed.

Lemma rstrip_by_kept (f : ascii -> bool) (s : string) (b : ascii) :
  f b = false -> rstrip_by f (s ++ String b EmptyString) = s ++ String b EmptyString.
Proof.
  intros Hb. induction s as [|a s IH]; simpl.
  - rewrite Hb. reflexivity.
  - change (String a s ++ String b EmptyString) with (String a (s ++ String b EmptyString)).
    simpl. rewrite IH. destruct s; reflexivity.
Qed.

Lemma strip_kept (a b : ascii) (m : string) :
  is_space a = false -> is_space b = false ->
  strip (String a (m ++ String b EmptyString)) = String a (m ++ String b EmptyString).
Proof.
  intros Ha Hb. unfold strip. simpl lstrip_by. rewrite Ha.
  change (String a (m ++ String b EmptyString)) with (String a m ++ String b EmptyString).
  apply rstrip_by_kept. exact Hb.
Qed.

(** A run of [n] newlines between two texts without a newline. *)
Lemma clean_bbcode_run (a b : ascii) (x y : string) (n : nat) :
  is_space a = false -> is_space b = false ->
  no_newline x = true -> no_newline y = true ->
  _clean_bbcode (String a x ++ newlines n ++ y ++ String b EmptyString)
  = String a x ++ newlines (Nat.min n 2) ++ y ++ String b EmptyString.
Proof.
  intros Ha Hb Hx Hy. unfold _clean_bbcode.
  assert (Hax : no_newline (String a x) = true).
  { unfold no_newline in *. cbn [all_by]. rewrite (not_space_not_newline a Ha). exact Hx. }
  rewrite (sub_newlines_plain _ _ Hax).
  assert (Htail : sub_newlines 0 (newlines n ++ y ++ String b EmptyString)
                  = newlines (Nat.min n 2) ++ y ++ String b EmptyString).
  { assert (Hyb : no_newline (y ++ String b EmptyString) = true).
    { clear -Hy Hb. unfold no_newline in *. induction y as [|c y IH].
      - change (EmptyString ++ String b EmptyString) with (String b EmptyString).
        cbn [all_by]. rewrite (not_space_not_newline b Hb). reflexivity.
      - cbn [all_by] in Hy. apply andb_true_iff in Hy as [Hc Hy].
        change (String c y ++ String b EmptyString) with (String c (y ++ String b EmptyString)).
        cbn [all_by]. rewrite Hc. apply IH, Hy. }
    destruct (y ++ String b EmptyString) as [|c rest] eqn:Ey.
    { destruct y; discriminate Ey. }
    unfold no_newline in Hyb. cbn [all_by] in Hyb.
    apply andb_true_iff in Hyb as [Hc Hrest]. apply negb_true_iff in Hc.
    rewrite (sub_newlines_run_then n 0 c rest Hc). simpl Nat.add. rewrite emit_run_min.
    rewrite <- (append_empty rest) at 1. rewrite (sub_newlines_plain rest EmptyString Hrest).
    simpl sub_newlines. change (emit_run 0) with EmptyString. rewrite append_empty.
    reflexivity. }
  rewrite Htail.
  change (String a x ++ newlines (Nat.min n 2) ++ y ++ String b EmptyString)
    with (String a (x ++ newlines (Nat.min n 2) ++ y ++ String b EmptyString)).
  rewrite !append_assoc_r. apply strip_kept; assumption.
Qed.


(** The conversion on a small document: a paragraph with bold text, a
    link, an inlined image and a script. *)
Example html_to_bbcode_sample :
  _html_to_bbcode
    (Tag "DIV" ∅
       [ Tag "p" ∅ [ NavigableString " Hello "; Tag "B" ∅ [ NavigableString "you" ] ];
         Tag "a" {[ "href" := "http://x/y" ]} [ NavigableString "link" ];
         Tag "img" {[ "src" := "data:image/png;base64,AAAA" ]} [];
         Tag "script" ∅ [ NavigableString "alert(1)" ];
         Tag "center" ∅ [ Tag "h2" ∅ [ NavigableString "T" ] ] ])
  = "Hello [B]you[/B]" ++ newlines 2 ++
    "[URL=http://x/y]link[/URL][IMG]<embedded>[/IMG][SIZE=5][B]T[/B][/SIZE]" ++ newlines 1.
Proof. vm_compute. reflexivity. Qed.

Example clean_bbcode_sample :
  _clean_bbcode (" a" ++ newlines 5 ++ "b" ++ newlines 2 ++ "c" ++ newlines 4)
  = "a" ++ newlines 2 ++ "b" ++ newlines 2 ++ "c".
Proof. vm_compute. reflexivity. Qed.

End RestorationFacts.

(** ** The media downloader *)

Module MediaFacts.
Import PyStr PyStrFacts OsPath Cancel Media.

Lemma splitext_name_app (name b e : string) :
  splitext_name name = (b, e) -> name = b ++ e.
Proof.
  unfold splitext_name. destruct (split_last "." name) as [[stem ext]|] eqn:E.
  - destruct (all_by (eqc ".") stem); intros H; injection H as <- <-.
    + clear. induction name as [|a s IH]; [reflexivity|].
      change (String a s = String a (s ++ EmptyString)). rewrite <- IH. reflexivity.
    + apply split_last_spec in E. exact E.
  - intros H. injection H as <- <-.
    clear. induction name as [|a s IH]; [reflexivity|].
    change (String a s = String a (s ++ EmptyString)). rewrite <- IH. reflexivity.
Qed.

Lemma app_assoc_str (s t u : string) : (s ++ t) ++ u = s ++ (t ++ u).
Proof.
  induction s as [|a s IH]; [reflexivity|].
  change (String a ((s ++ t) ++ u) = String a (s ++ t ++ u)). rewrite IH. reflexivity.
Qed.

Lemma splitext_app (p b e : string) : splitext p = (b, e) -> p = b ++ e.
Proof.
  unfold splitext. destruct (split_last "/" p) as [[dir base]|] eqn:E.
  - destruct (splitext_name base) as [stem ext] eqn:Es.
    intros H. injection H as <- <-.
    apply split_last_spec in E. apply splitext_name_app in Es. subst.
    rewrite app_assoc_str. reflexivity.
  - apply splitext_name_app.
Qed.

Lemma numbered_length (fname : string) (n : nat) :
  String.length fname < String.length (numbered fname n).
Proof.
  unfold numbered. destruct (splitext fname) as [b e] eqn:E.
  apply splitext_app in E. subst fname.
  rewrite !app_length_str. simpl. lia.
Qed.

Lemma numbered_neq (fname : string) (n : nat) : numbered fname n <> fname.
Proof.
  intros H. pose proof (numbered_length fname n) as Hl. rewrite H in Hl. lia.
Qed.

Lemma numbered_inj (fname : string) (m n : nat) :
  numbered fname m = numbered fname n -> m = n.
Proof.
  unfold numbered. destruct (splitext fname) as [b e]. intros H.
  apply app_inv_head_str in H. apply app_inv_head_str in H.
  apply app_inv_tail_str in H. apply str_of_nat_inj. exact H.
Qed.

(** The names the collision loop can return: the first name, or a numbered
    one. *)
Definition renamed (fname fpath : string) : Prop :=
  fpath = fname \/ exists k, 1 <= k /\ fpath = numbered fname k.

Lemma free_name_spec (fuel : nat) (st : State) (fname fpath r : string) (counter : nat) :
  free_name fuel st fname fpath counter = Some r ->
  path_exists st r = false /\
  (r = fpath \/ exists k, counter <= k /\ r = numbered fname k).
Proof.
  revert fpath counter. induction fuel as [|f IH]; intros fpath counter H; [discriminate|].
  simpl in H. destruct (path_exists st fpath) eqn:Ex.
  - destruct (IH _ _ H) as [Hr [->|(k & Hk & ->)]]; split; auto; right.
    + exists counter. split; [lia | reflexivity].
    + exists k. split; [lia | reflexivity].
  - injection H as <-. auto.
Qed.

(** The existing names of the media directory, as one set. *)
Definition taken (st : State) : gset string :=
  dom (media_files st) ∪
  (match index_file st with Some _ => {[ index_name ]} | None => ∅ end).

Lemma path_exists_taken (st : State) (p : string) :
  path_exists st p = true -> p ∈ taken st.
Proof.
  unfold path_exists, taken. intros H. apply orb_true_iff in H as [H|H].
  - apply bool_decide_eq_true in H. apply elem_of_union_l, elem_of_dom. exact H.
  - apply andb_true_iff in H as [Hn Hi]. apply String.eqb_eq in Hn. subst p.
    apply bool_decide_eq_true in Hi. destruct (index_file st); [|destruct Hi; discriminate].
    apply elem_of_union_r, elem_of_singleton. reflexivity.
Qed.

Lemma taken_size (st : State) : size (taken st) <= size (media_files st) + 1.
Proof.
  unfold taken. rewrite size_union_alt, size_dom.
  assert (size ((match index_file st with Some _ => {[index_name]} | None => ∅ end)
                  ∖ dom (media_files st) : gset string) <= 1); [|lia].
  etransitivity; [apply subseteq_size, subseteq_difference_l; reflexivity|].
  destruct (index_file st); [rewrite size_singleton | rewrite size_empty]; lia.
Qed.

(** The collision loop ends: among more names than files one is free. *)
Lemma free_name_total_from (fuel : nat) (st : State) (fname fpath : string)
    (counter : nat) (Y : gset string) :
  (forall k, counter <= k -> path_exists st (numbered fname k) = true ->
             numbered fname k ∈ Y) ->
  (path_exists st fpath = true ->
   fpath ∈ Y /\ forall k, counter <= k -> numbered fname k <> fpath) ->
  size Y < fuel ->
  is_Some (free_name fuel st fname fpath counter).
Proof.
  revert fpath counter Y. induction fuel as [|f IH]; intros fpath counter Y H1 H2 Hs; [lia|].
  simpl. destruct (path_exists st fpath) eqn:Ex; [|eexists; reflexivity].
  destruct (H2 eq_refl) as [HY Hne].
  apply (IH _ _ (Y ∖ {[ fpath ]})).
  - intros k Hk Hx. apply elem_of_difference. split.
    + apply H1; [lia | exact Hx].
    + rewrite elem_of_singleton. apply Hne. lia.
  - intros Hx. split.
    + apply elem_of_difference. split.
      * apply H1; [lia | exact Hx].
      * rewrite elem_of_singleton. apply Hne. lia.
    + intros k Hk Heq. apply numbered_inj in Heq. lia.
  - assert (size Y = size (Y ∖ {[fpath]}) + 1); [|lia].
    rewrite (union_difference_singleton_L fpath Y HY) at 1.
    rewrite size_union; [rewrite size_singleton; lia|].
    apply disjoint_singleton_l. apply not_elem_of_difference. right.
    apply elem_of_singleton. reflexivity.
Qed.

Lemma free_name_total (st : State) (fname : string) :
  is_Some (free_name (name_fuel st) st fname fname 1).
Proof.
  apply (free_name_total_from _ _ _ _ _ (taken st)).
  - intros k _. apply path_exists_taken.
  - intros Hx. split; [apply path_exists_taken; exact Hx|].
    intros k _. apply numbered_neq.
  - unfold name_fuel. pose proof (taken_size st). lia.
Qed.

(** *** One harvest *)

Definition cnt (u : string) (l : list string) : nat := count_occ string_dec l u.

Arguments cnt : simpl never.

Lemma cnt_cons_eq (u : string) (l : list string) : cnt u (u :: l) = S (cnt u l).
Proof. unfold cnt. apply count_occ_cons_eq. reflexivity. Qed.

Lemma cnt_cons_ne (u v : string) (l : list string) : v <> u -> cnt u (v :: l) = cnt u l.
Proof. intros H. unfold cnt. apply count_occ_cons_neq. exact H. Qed.

Section harvest.
Variable E : Env.

(** What a pass over the URLs [urls] may change, from [st] to [st']: files
    are only added, index entries are only added, and an entry is added for
    a URL of [urls] after exactly one GET of it, under a name that no file
    had. *)
Record Harvested (urls : list string) (st st' : State) : Prop := mkHarvested {
  hv_files : forall name c,
    media_files st !! name = Some c -> media_files st' !! name = Some c;
  hv_indexed : forall u f,
    index st !! u = Some f ->
    index st' !! u = Some f /\ cnt u (fetched st') = cnt u (fetched st);
  hv_other : forall u,
    u ∉ urls ->
    index st' !! u = index st !! u /\ cnt u (fetched st') = cnt u (fetched st);
  hv_new : forall u f,
    index st !! u = None -> index st' !! u = Some f ->
    cnt u (fetched st') = S (cnt u (fetched st)) /\
    renamed (first_name E u) f /\
    media_files st !! f = None /\ is_Some (media_files st' !! f);
  hv_once : forall u, cnt u (fetched st') <= S (cnt u (fetched st));
  hv_index_file : index_file st' = index_file st }.

Lemma Harvested_refl (urls : list string) (st : State) : Harvested urls st st.
Proof.
  constructor; try tauto; try congruence.
  intros u. lia.
Qed.

Lemma Harvested_skip (url : string) (rest : list string) (st st' : State) :
  is_Some (index st !! url) -> Harvested rest st st' -> Harvested (url :: rest) st st'.
Proof.
  intros [f0 Hi] H. destruct H as [HA HB HC HD HF HE].
  constructor; try assumption.
  intros u Hu. apply HC. intros Hin. apply Hu. right. exact Hin.
Qed.

Definition logged (url : string) (st : State) : State :=
  mkState (index st) (media_files st) (index_file st) (url :: fetched st).

(** A GET that brought nothing. *)
Lemma Harvested_failed (url : string) (rest : list string) (st st' : State) :
  url ∉ rest -> index st !! url = None ->
  Harvested rest (logged url st) st' -> Harvested (url :: rest) st st'.
Proof.
  intros Hnin Hi [HA HB HC HD HF HE]. unfold logged, store in *. simpl in *.
  constructor; simpl.
  - exact HA.
  - intros u f Hu. destruct (HB u f Hu) as [H1 H2]. split; [exact H1|].
    rewrite H2. apply cnt_cons_ne. congruence.
  - intros u Hu. destruct (HC u) as [H1 H2].
    + intros Hin. apply Hu. right. exact Hin.
    + split; [exact H1|]. rewrite H2. apply cnt_cons_ne.
      intros ->. apply Hu. left.
  - intros u f Hu Hf. destruct (decide (u = url)) as [->|Hne].
    + destruct (HC url Hnin) as [H1 _]. congruence.
    + destruct (HD u f Hu Hf) as (H1 & H2 & H3 & H4).
      rewrite cnt_cons_ne in H1 by congruence. auto.
  - intros u. destruct (decide (u = url)) as [->|Hne].
    + destruct (HC url Hnin) as [_ H2]. rewrite H2, cnt_cons_eq. lia.
    + specialize (HF u). rewrite cnt_cons_ne in HF by congruence. exact HF.
  - exact HE.
Qed.

(** A GET whose body was written under the free name [fpath]. *)
Lemma Harvested_stored (url fpath bytes : string) (rest : list string) (st st' : State) :
  url ∉ rest -> index st !! url = None ->
  media_files st !! fpath = None -> renamed (first_name E url) fpath ->
  Harvested rest (store url fpath bytes (logged url st)) st' ->
  Harvested (url :: rest) st st'.
Proof.
  intros Hnin Hi Hfree Hren [HA HB HC HD HF HE]. unfold logged, store in *. simpl in *.
  constructor; simpl.
  - intros name c Hn. apply HA. rewrite lookup_insert_ne; [exact Hn|]. congruence.
  - intros u f Hu. assert (Hne : url <> u) by congruence.
    destruct (HB u f) as [H1 H2].
    + rewrite lookup_insert_ne by exact Hne. exact Hu.
    + split; [exact H1|]. rewrite H2. apply cnt_cons_ne. exact Hne.
  - intros u Hu. assert (Hne : url <> u) by (intros ->; apply Hu; left).
    destruct (HC u) as [H1 H2].
    + intros Hin. apply Hu. right. exact Hin.
    + rewrite lookup_insert_ne in H1 by exact Hne. split; [exact H1|].
      rewrite H2. apply cnt_cons_ne. exact Hne.
  - intros u f Hu Hf. destruct (decide (u = url)) as [->|Hne].
    + destruct (HB url fpath) as [H1 H2]; [apply lookup_insert_eq|].
      assert (f = fpath) by congruence. subst f.
      rewrite H2, cnt_cons_eq. repeat split; try assumption; try reflexivity.
      exists bytes. apply HA. apply lookup_insert_eq.
    + destruct (HD u f) as (H1 & H2 & H3 & H4); [|exact Hf|].
      * rewrite lookup_insert_ne by congruence. exact Hu.
      * rewrite cnt_cons_ne in H1 by congruence.
        repeat split; try assumption.
        apply lookup_insert_None in H3 as [H3 _]. exact H3.
  - intros u. destruct (decide (u = url)) as [->|Hne].
    + destruct (HB url fpath) as [_ H2]; [apply lookup_insert_eq|].
      rewrite H2, cnt_cons_eq. lia.
    + specialize (HF u). rewrite cnt_cons_ne in HF by congruence. exact HF.
  - exact HE.
Qed.

Lemma _fetch_bytes_logged (url : string) (fl fl' : Flag) (st st' : State)
    (data : option string) :
  _fetch_bytes E url fl st = (data, fl', st') -> st' = logged url st.
Proof.
  unfold _fetch_bytes. destruct (media_get E url) as [chunks|].
  - destruct (read_chunks chunks EmptyString fl) as [d f]. intros H. injection H as _ _ <-.
    reflexivity.
  - intros H. injection H as _ _ <-. reflexivity.
Qed.

Lemma path_exists_false_files (st : State) (p : string) :
  path_exists st p = false -> media_files st !! p = None.
Proof.
  unfold path_exists. intros H. apply orb_false_iff in H as [H _].
  apply bool_decide_eq_false in H. apply eq_None_not_Some. exact H.
Qed.

Lemma harvest_loop_Harvested (urls : list string) :
  NoDup urls ->
  forall d fl st d' fl' st',
    harvest_loop E urls d fl st = (d', fl', st') -> Harvested urls st st'.
Proof.
  induction 1 as [|url rest Hnin Hnd IH]; intros d fl st d' fl' st' H; simpl in H.
  - injection H as _ _ <-. apply Harvested_refl.
  - destruct (is_set fl) as [stop fl1]. destruct stop.
    { injection H as _ _ <-. apply Harvested_refl. }
    destruct (bool_decide (is_Some (index st !! url))) eqn:Hix.
    { apply bool_decide_eq_true in Hix. apply Harvested_skip; [exact Hix|].
      eapply IH; exact H. }
    apply bool_decide_eq_false in Hix. apply eq_None_not_Some in Hix.
    destruct (_fetch_bytes E url fl1 st) as [[data fl2] st1] eqn:Ef.
    apply _fetch_bytes_logged in Ef. subst st1.
    destruct data as [bytes|].
    + destruct (free_name _ _ _ _ _) as [fpath|] eqn:En.
      * unfold save_media in H. destruct (can_write E fpath);
          [|apply Harvested_failed; try assumption; eapply IH; exact H].
        apply free_name_spec in En as [Hfree Hren].
        apply (Harvested_stored url fpath bytes); try assumption.
        -- apply path_exists_false_files in Hfree. exact Hfree.
        -- eapply IH; exact H.
      * apply Harvested_failed; try assumption. eapply IH; exact H.
    + apply Harvested_failed; try assumption. eapply IH; exact H.
Qed.

End harvest.

(** *** The URLs of one harvest are distinct *)

Lemma marked_fst {B : Type} (f : string -> option (string * B))
    (l : list string) (k : list (string * B)) :
  (forall u p, f u = Some p -> fst p = u) ->
  mapM f l = Some k -> map fst k = l.
Proof.
  intros Hf H. apply mapM_Some in H.
  induction H as [|u p l k Hup _ IH]; [reflexivity|].
  simpl. rewrite IH, (Hf _ _ Hup). reflexivity.
Qed.

Lemma NoDup_map_fst_filter {B : Type} (P : string * B -> Prop)
    `{!forall p, Decision (P p)} (k : list (string * B)) :
  NoDup (map fst k) -> NoDup (map fst (filter P k)).
Proof.
  induction k as [|p k IH]; intros Hnd; [constructor|].
  simpl in Hnd. apply NoDup_cons in Hnd as [Hp Hk].
  rewrite filter_cons. destruct (decide (P p)); [|auto].
  simpl. apply NoDup_cons. split; [|auto].
  intros Hin. apply Hp. apply list_elem_of_fmap in Hin as (q & Hq & Hin).
  apply list_elem_of_fmap. exists q. split; [exact Hq|].
  apply list_elem_of_filter in Hin as [_ Hin]. exact Hin.
Qed.

Section harvest_twice.
Variable E : Env.
Hypothesis set_order_perm : forall l, Permutation l (set_order E l).

Lemma media_urls_NoDup (html base : string) (urls : list string) :
  media_urls E html base = Some urls -> NoDup urls.
Proof.
  unfold media_urls. intros H.
  apply bind_Some in H as (cands & _ & H).
  apply bind_Some in H as (marked & Em & H). injection H as <-.
  apply NoDup_map_fst_filter.
  erewrite marked_fst; [|clear|exact Em].
  - rewrite <- (set_order_perm _). apply NoDup_remove_dups.
  - intros u p Hp.
    apply bind_Some in Hp as (ext & _ & Hp).
    apply bind_Some in Hp as (sch & _ & Hp). injection Hp as <-. reflexivity.
Qed.

Lemma download_from_html_Harvested (html base : string) (fl fl' : Flag)
    (st st' : State) (r : option nat) :
  download_from_html E html base fl st = (r, fl', st') ->
  exists urls mid,
    Harvested E urls st mid /\
    st' = match r with Some _ => _save_index mid | None => mid end.
Proof.
  unfold download_from_html.
  destruct (media_urls E html base) as [urls|] eqn:Eu.
  - destruct (harvest_loop E urls 0 fl st) as [[n fl1] mid] eqn:El.
    intros H. injection H as <- _ <-. exists urls, mid. split; [|reflexivity].
    eapply harvest_loop_Harvested; [|exact El].
    eapply media_urls_NoDup; exact Eu.
  - intros H. injection H as <- _ <-. exists [], st. split; [|reflexivity].
    apply Harvested_refl.
Qed.

(** One call of [download_from_html], seen from outside. *)
Lemma download_from_html_effect (html base : string) (fl fl' : Flag)
    (st st' : State) (r : option nat) :
  download_from_html E html base fl st = (r, fl', st') ->
  (forall name c, media_files st !! name = Some c -> media_files st' !! name = Some c) /\
  (forall u f, index st !! u = Some f ->
     index st' !! u = Some f /\ cnt u (fetched st') = cnt u (fetched st)) /\
  (forall u f, index st !! u = None -> index st' !! u = Some f ->
     cnt u (fetched st') = S (cnt u (fetched st)) /\
     renamed (first_name E u) f /\
     media_files st !! f = None /\ is_Some (media_files st' !! f)) /\
  (forall u, cnt u (fetched st') <= S (cnt u (fetched st))) /\
  (r <> None -> index_file st' = Some (index st')).
Proof.
  intros H. apply download_from_html_Harvested in H as (urls & mid & Hh & ->).
  destruct Hh as [HA HB HC HD HF HE].
  assert (Hs : forall st1 : State,
             st1 = _save_index mid \/ st1 = mid ->
             media_files st1 = media_files mid /\ index st1 = index mid /\
             fetched st1 = fetched mid).
  { intros st1 [->| ->]; repeat split; reflexivity. }
  destruct (Hs (match r with Some _ => _save_index mid | None => mid end))
    as (-> & -> & ->); [destruct r; auto|].
  split; [exact HA|]. split; [exact HB|]. split; [exact HD|]. split; [exact HF|].
  intros Hr. destruct r; [reflexivity | contradiction].
Qed.

End harvest_twice.

Lemma sample_first : download_from_html MediaSample.env MediaSample.page MediaSample.base
                       None MediaSample.st0 = (Some 1, None, MediaSample.st1).
Proof. vm_compute. reflexivity. Qed.

Lemma sample_second : download_from_html MediaSample.env MediaSample.page MediaSample.base
                        None MediaSample.st1 = (Some 0, None, MediaSample.st2).
Proof. vm_compute. reflexivity. Qed.

(** *** A flag that is never set *)

Lemma read_chunks_None (chunks : list string) (acc : string) :
  snd (read_chunks chunks acc None) = None.
Proof.
  revert acc. induction chunks as [|c r IH]; intros acc; simpl; [reflexivity | apply IH].
Qed.

Lemma _fetch_bytes_None (E : Env) (url : string) (st : State) :
  snd (fst (_fetch_bytes E url None st)) = None.
Proof.
  unfold _fetch_bytes. destruct (media_get E url) as [chunks|]; [|reflexivity].
  pose proof (read_chunks_None chunks EmptyString) as H.
  destruct (read_chunks chunks EmptyString None) as [d f]. simpl in *. exact H.
Qed.

Lemma harvest_loop_None (E : Env) (urls : list string) (d : nat) (st : State) :
  snd (fst (harvest_loop E urls d None st)) = None.
Proof.
  revert d st. induction urls as [|u r IH]; intros d st; simpl; [reflexivity|].
  destruct (bool_decide (is_Some (index st !! u))); [apply IH|].
  pose proof (_fetch_bytes_None E u st) as Hf.
  destruct (_fetch_bytes E u None st) as [[data fl] st1]. simpl in Hf. subst fl.
  destruct data as [bytes|]; [|apply IH].
  destruct (free_name _ _ _ _ _) as [fpath|]; [|apply IH].
  unfold save_media. destruct (can_write E fpath); apply IH.
Qed.

Lemma download_from_html_None (E : Env) (html base : string) (st : State) :
  snd (fst (download_from_html E html base None st)) = None.
Proof.
  unfold download_from_html. destruct (media_urls E html base) as [urls|]; [|reflexivity].
  pose proof (harvest_loop_None E urls 0 st) as H.
  destruct (harvest_loop E urls 0 None st) as [[n fl] st1]. simpl in *. exact H.
Qed.

End MediaFacts.

(** ** The archive crawler: discovery *)

Module DiscoveryFacts.
Import PyStr Backup.

Definition same_id (t x : Thread) : bool := String.eqb (t_id x) (t_id t).

Lemma unique_by_id_fresh (seen : gset string) (ts : list Thread) (t : Thread) :
  t ∈ unique_by_id seen ts -> (t_id t ∉ seen) /\ (t ∈ ts).
Proof.
  revert seen. induction ts as [|t0 ts IH]; intros seen H; simpl in H.
  - apply not_elem_of_nil in H. contradiction.
  - destruct (decide (t_id t0 ∈ seen)) as [Hin|Hnin].
    + destruct (IH _ H) as [H1 H2]. split; [exact H1 | right; exact H2].
    + apply elem_of_cons in H as [->|H].
      * split; [exact Hnin | left].
      * destruct (IH _ H) as [H1 H2]. split; [|right; exact H2].
        intros Hs. apply H1. apply elem_of_union_r. exact Hs.
Qed.

Lemma unique_by_id_NoDup (seen : gset string) (ts : list Thread) :
  NoDup (map t_id (unique_by_id seen ts)).
Proof.
  revert seen. induction ts as [|t0 ts IH]; intros seen; simpl; [constructor|].
  destruct (decide (t_id t0 ∈ seen)); [apply IH|].
  simpl. apply NoDup_cons. split; [|apply IH].
  intros Hin. apply list_elem_of_fmap in Hin as (t & Ht & Hin).
  apply unique_by_id_fresh in Hin as [Hf _]. apply Hf.
  apply elem_of_union_l, elem_of_singleton. symmetry. exact Ht.
Qed.

Lemma unique_by_id_sublist (seen : gset string) (ts : list Thread) :
  sublist (unique_by_id seen ts) ts.
Proof.
  revert seen. induction ts as [|t0 ts IH]; intros seen; simpl; [constructor|].
  destruct (decide (t_id t0 ∈ seen)).
  - apply sublist_cons, IH.
  - apply sublist_skip, IH.
Qed.

Lemma unique_by_id_covers (seen : gset string) (ts : list Thread) (t : Thread) :
  t ∈ ts -> t_id t ∉ seen ->
  exists t', t' ∈ unique_by_id seen ts /\ t_id t' = t_id t.
Proof.
  revert seen. induction ts as [|t0 ts IH]; intros seen Hin Hs.
  - apply not_elem_of_nil in Hin. contradiction.
  - simpl. destruct (decide (t_id t0 ∈ seen)) as [Hseen|Hnew].
    + apply elem_of_cons in Hin as [->|Hin]; [contradiction|]. apply IH; assumption.
    + destruct (decide (t_id t = t_id t0)) as [Heq|Hne].
      * exists t0. split; [left | symmetry; exact Heq].
      * apply elem_of_cons in Hin as [->|Hin]; [congruence|].
        destruct (IH ({[t_id t0]} ∪ seen) Hin) as (t' & Ht' & Hid).
        -- intros Hu. apply elem_of_union in Hu as [Hu|Hu]; [|contradiction].
           apply elem_of_singleton in Hu. contradiction.
        -- exists t'. split; [right; exact Ht' | exact Hid].
Qed.

(** A kept unit is the first of its id in the list. *)
Lemma unique_by_id_first (seen : gset string) (ts : list Thread) (t : Thread) :
  t ∈ unique_by_id seen ts -> List.find (same_id t) ts = Some t.
Proof.
  revert seen. induction ts as [|t0 ts IH]; intros seen H; simpl in H.
  - apply not_elem_of_nil in H. contradiction.
  - simpl. destruct (decide (t_id t0 ∈ seen)) as [Hseen|Hnew].
    + destruct (unique_by_id_fresh _ _ _ H) as [Hf _].
      unfold same_id at 1. destruct (String.eqb (t_id t0) (t_id t)) eqn:Ee.
      * apply String.eqb_eq in Ee. congruence.
      * eapply IH; exact H.
    + apply elem_of_cons in H as [->|H].
      * unfold same_id at 1. rewrite String.eqb_refl. reflexivity.
      * destruct (unique_by_id_fresh _ _ _ H) as [Hf _].
        unfold same_id at 1. destruct (String.eqb (t_id t0) (t_id t)) eqn:Ee.
        -- apply String.eqb_eq in Ee. exfalso. apply Hf.
           apply elem_of_union_l, elem_of_singleton. symmetry. exact Ee.
        -- eapply IH; exact H.
Qed.

(** C2. The units [discover_all_threads] returns carry pairwise different
    ids, however often the listing pages referenced a unit; they are the
    aggregate of the pages, in the order of its completion, with the later
    units of an id left out: a sublist of it, one unit for each id in it,
    each the first of its id. *)
Theorem discover_all_threads_unique
    (E : Env) (base_url : string) (start_page : nat)
    (order : list (list Thread) -> list (list Thread)) (st : State) :
  let all_threads := fst (gather_threads E base_url start_page order st) in
  let found := fst (discover_all_threads E base_url start_page order st) in
  NoDup (map t_id found) /\
  sublist found all_threads /\
  (forall t, t ∈ all_threads -> exists t', t' ∈ found /\ t_id t' = t_id t) /\
  (forall t, t ∈ found -> List.find (same_id t) all_threads = Some t).
Proof.
  cbv zeta. unfold discover_all_threads.
  destruct (gather_threads E base_url start_page order st) as [all st']. simpl.
  split; [apply unique_by_id_NoDup|]. split; [apply unique_by_id_sublist|]. split.
  - intros t Ht. apply unique_by_id_covers; [exact Ht | apply not_elem_of_empty].
  - intros t Ht. eapply unique_by_id_first; exact Ht.
Qed.

(** In the sample forum unit 2 is linked by both listing pages (and the
    first listing page is scanned twice): it is found once, with the title
    first seen. *)
Example discover_sample :
  fst (discover_all_threads ForumSample.env ForumSample.base_url 1 ForumSample.in_order (ForumSample.fresh None))
  = [ForumSample.unit1; ForumSample.unit2; ForumSample.unit3] /\
  length (fst (gather_threads ForumSample.env ForumSample.base_url 1 ForumSample.in_order (ForumSample.fresh None)))
  = 6.
Proof. split; vm_compute; reflexivity. Qed.

(** *** The pages of a section *)

(** What [get_all_pages_urls] returns: the input URL alone when the page
    cannot be fetched or shows no page number; otherwise the input URL
    followed by the URL of each page from the start page to the largest
    number shown. *)
Lemma get_all_pages_urls_spec (E : Env) (start_page : nat) (section_url : string)
    (st : State) :
  fst (get_all_pages_urls E start_page section_url st) =
  match http_get E section_url with
  | Some (String a r) =>
      match page_numbers E (String a r) with
      | [] => [section_url]
      | nums =>
          section_url ::
          map (section_page_url section_url)
              (seq start_page (S (max_list nums) - start_page))
      end
  | _ => [section_url]
  end.
Proof.
  unfold get_all_pages_urls, get_page.
  destruct (http_get E section_url) as [[|a r]|]; try reflexivity.
  destruct (page_numbers E (String a r)); reflexivity.
Qed.

(** C7, where the code departs from it.  The listing page of the sample
    forum shows the page number 2; with the start page 1 the two pages of
    the section come back as three URLs, the first page twice. *)
Example get_all_pages_urls_repeats_first_page :
  fst (get_all_pages_urls ForumSample.env 1 "http://f/forum" (ForumSample.fresh None))
  = ["http://f/forum"; "http://f/forum"; "http://f/forum?page=2"] /\
  map (section_page_url "http://f/forum") (seq 1 2)
  = ["http://f/forum"; "http://f/forum?page=2"].
Proof. split; vm_compute; reflexivity. Qed.

(** The three rules for the URL of a page. *)
Example section_page_url_rules :
  section_page_url "http://f/forums/news.5/page-3" 4 = "http://f/forums/news.5/page-4" /\
  section_page_url "http://f/forumdisplay.php?f=2" 4 = "http://f/forumdisplay.php?f=2&page=4" /\
  section_page_url "http://f/forum" 4 = "http://f/forum?page=4" /\
  section_page_url "http://f/forum" 1 = "http://f/forum".
Proof. repeat split; vm_compute; reflexivity. Qed.

End DiscoveryFacts.

(** ** The archive crawler: downloading a unit *)

Module DownloadFacts.
Import PyStr PyStrFacts Cancel Backup.

Lemma poll_None (st : State) : flag st = None -> poll st = (false, st).
Proof. destruct st as [fl f m mf c r md]. simpl. intros ->. reflexivity. Qed.

Lemma poll_set (st : State) : flag st = Some 0 -> poll st = (true, st).
Proof. destruct st as [fl f m mf c r md]. simpl. intros ->. reflexivity. Qed.

(** What a step of the crawler leaves alone. *)
Record same_pages (st st' : State) : Prop := mkSame {
  sp_files : files st' = files st;
  sp_metadata : metadata st' = metadata st;
  sp_metadata_file : metadata_file st' = metadata_file st;
  sp_requests : requests st' = requests st }.

Lemma same_pages_refl (st : State) : same_pages st st.
Proof. constructor; reflexivity. Qed.

Lemma same_pages_trans (a b c : State) : same_pages a b -> same_pages b c -> same_pages a c.
Proof. intros [] []. constructor; congruence. Qed.

Section download.
Variable E : Env.

Lemma harvest_media_same (html url : string) (st : State) :
  same_pages st (harvest_media E html url st) /\
  (flag st = None -> flag (harvest_media E html url st) = None).
Proof.
  unfold harvest_media. destruct (media st) as [m|]; [|split; [apply same_pages_refl | auto]].
  pose proof (MediaFacts.download_from_html_None (media_env E) html url m) as Hn.
  destruct (Media.download_from_html (media_env E) html url (flag st) m) as [[r fl] m'] eqn:Ed.
  split; [constructor; reflexivity|]. intros Hf. rewrite Hf in Ed. rewrite Ed in Hn. exact Hn.
Qed.

Lemma page_file_inj (t : Thread) (m n : nat) : page_file t m = page_file t n -> m = n.
Proof.
  unfold page_file. intros H.
  repeat apply app_inv_head_str in H.
  apply app_inv_tail_str in H. apply str_of_nat_inj. exact H.
Qed.

(** The sizes of consecutive pages differ, [prev] being the size before
    the first of them. *)
Fixpoint sizes_differ (prev : option nat) (contents : list string) : Prop :=
  match contents with
  | [] => True
  | c :: rest => prev <> Some (utf8_len c) /\ sizes_differ (Some (utf8_len c)) rest
  end.

(** The size the loop remembers after the pages [contents]. *)
Definition last_size (prev : option nat) (contents : list string) : option nat :=
  match last contents with
  | Some c => Some (utf8_len c)
  | None => prev
  end.

Lemma last_size_cons (prev : option nat) (c : string) (cs : list string) :
  last_size prev (c :: cs) = last_size (Some (utf8_len c)) cs.
Proof.
  unfold last_size. destruct cs as [|c' cs]; [reflexivity|].
  rewrite last_cons. destruct (last (c' :: cs)); reflexivity.
Qed.

Lemma download_pages_cons (t : Thread) (page_url : string) (rest : list string)
    (page_num downloaded_pages : nat) (previous_size : option nat) (st : State) :
  download_pages E t (page_url :: rest) page_num downloaded_pages previous_size st =
  let '(stop, st) := poll st in
  if stop then (downloaded_pages, st)
  else
    match files st !! page_file t page_num with
    | Some saved_html =>
        download_pages E t rest (S page_num) (S downloaded_pages)
          (Some (utf8_len saved_html))
          (if Nat.eqb (utf8_len saved_html) 0 then st
           else harvest_media E saved_html page_url st)
    | None =>
        let '(page_content, st) := get_page E page_url st in
        match page_content with
        | Some (String a r) =>
            if bool_decide (previous_size = Some (utf8_len (String a r)))
            then (downloaded_pages, st)
            else if writable E (page_file t page_num) then
              download_pages E t rest (S page_num) (S downloaded_pages)
                (Some (utf8_len (String a r)))
                (harvest_media E (String a r) page_url
                   (written (page_file t page_num) (String a r) st))
            else download_pages E t rest (S page_num) downloaded_pages previous_size st
        | _ => download_pages E t rest (S page_num) downloaded_pages previous_size st
        end
    end.
Proof.
  cbn [download_pages]. destruct (poll st) as [stop st1]. destruct stop; [reflexivity|].
  destruct (files st1 !! page_file t page_num); [reflexivity|].
  unfold get_page. destruct (http_get E page_url) as [[|a r]|]; try reflexivity.
  destruct (bool_decide _); [reflexivity|].
  unfold write_page. destruct (writable E (page_file t page_num)); reflexivity.
Qed.

(** The loop over pages that are fetched one after the other and then one
    that repeats the size before it: the loop writes the former, stops at
    the latter and requests nothing after it. *)
Lemma download_pages_stop (t : Thread) (urls : list string) :
  forall (contents : list string) (next : string) (rest : list string)
         (page_num downloaded : nat) (prev : option nat) (st : State) (repeated : string),
    flag st = None ->
    Forall2 (fun u c => http_get E u = Some c /\ c <> EmptyString) urls contents ->
    (forall k, k <= length urls -> files st !! page_file t (page_num + k) = None) ->
    (forall k, k < length urls -> writable E (page_file t (page_num + k)) = true) ->
    sizes_differ prev contents ->
    http_get E next = Some repeated -> repeated <> EmptyString ->
    Some (utf8_len repeated) = last_size prev contents ->
    exists st',
      download_pages E t (urls ++ next :: rest) page_num downloaded prev st
        = (downloaded + length urls, st') /\
      flag st' = None /\
      (forall k c, contents !! k = Some c ->
                   files st' !! page_file t (page_num + k) = Some c) /\
      files st' !! page_file t (page_num + length urls) = None /\
      (forall name, (forall k, k < length urls -> name <> page_file t (page_num + k)) ->
                    files st' !! name = files st !! name) /\
      metadata st' = metadata st /\ metadata_file st' = metadata_file st /\
      clock st' = clock st /\
      requests st' = next :: (rev urls ++ requests st)%list.
Proof.
  induction urls as [|u urls IH];
    intros contents next rest page_num downloaded prev st repeated
           Hfl Hget Hfree Hwr Hsz Hnext Hne Hrep.
  - apply Forall2_nil_inv_l in Hget. subst contents.
    change ([] ++ next :: rest)%list with (next :: rest).
    rewrite download_pages_cons, (poll_None _ Hfl).
    specialize (Hfree 0 ltac:(simpl; lia)). rewrite Nat.add_0_r in Hfree |- *.
    rewrite Hfree. unfold get_page. rewrite Hnext.
    destruct repeated as [|a r]; [contradiction|].
    unfold last_size in Hrep. simpl last in Hrep. rewrite <- Hrep.
    rewrite bool_decide_eq_true_2 by reflexivity.
    eexists. split; [reflexivity|]. simpl.
    repeat split; try assumption; try reflexivity.
    + intros k c Hk. rewrite lookup_nil in Hk. discriminate.
    + rewrite Nat.add_0_r. exact Hfree.
  - apply Forall2_cons_inv_l in Hget as (c & cs & [Hu Hc] & Hget & ->).
    destruct Hsz as [Hprev Hsz]. rewrite last_size_cons in Hrep.
    change ((u :: urls) ++ next :: rest)%list with (u :: (urls ++ next :: rest))%list.
    rewrite download_pages_cons, (poll_None _ Hfl).
    pose proof (Hfree 0 ltac:(lia)) as Hf0. rewrite Nat.add_0_r in Hf0. rewrite Hf0.
    unfold get_page. rewrite Hu. destruct c as [|a r]; [contradiction|].
    rewrite bool_decide_eq_false_2 by exact Hprev.
    pose proof (Hwr 0 ltac:(simpl; lia)) as Hw0. rewrite Nat.add_0_r in Hw0. rewrite Hw0.
    set (st1 := written _ _ _).
    destruct (harvest_media_same (String a r) u st1) as [[Hs1 Hs2 Hs3 Hs4] Hs5].
    set (st2 := harvest_media E (String a r) u st1) in *.
    destruct (IH cs next rest (S page_num) (S downloaded) (Some (utf8_len (String a r)))
                st2 repeated) as (st' & Hrun & Hfl' & Hw & Hn & Ho & Hm & Hmf & Hck & Hrq);
      try assumption.
    + apply Hs5. exact Hfl.
    + intros k Hk. rewrite Hs1. subst st1. unfold written. cbn [files].
      rewrite lookup_insert_ne.
      * replace (S page_num + k) with (page_num + S k) by lia. apply Hfree. simpl. lia.
      * intros Heq. apply page_file_inj in Heq. lia.
    + intros k Hk. replace (S page_num + k) with (page_num + S k) by lia.
      apply Hwr. simpl. lia.
    + exists st'. split; [rewrite Hrun; f_equal; simpl; lia|].
      split; [exact Hfl'|]. split; [|split; [|split; [|split; [|split; [|split]]]]].
      * intros k c' Hk. destruct k as [|k].
        -- simpl in Hk. injection Hk as <-. rewrite Nat.add_0_r.
           rewrite Ho.
           ++ rewrite Hs1. subst st1. unfold written. cbn [files].
              apply lookup_insert_eq.
           ++ intros j _ Heq. apply page_file_inj in Heq. lia.
        -- simpl in Hk. replace (page_num + S k) with (S page_num + k) by lia.
           apply Hw. exact Hk.
      * replace (page_num + length (u :: urls)) with (S page_num + length urls)
          by (simpl; lia). exact Hn.
      * intros name Hname. rewrite Ho.
        -- rewrite Hs1. subst st1. unfold written. cbn [files].
           apply lookup_insert_ne.
           intros Heq. apply (Hname 0); [simpl; lia|].
           rewrite Nat.add_0_r. symmetry. exact Heq.
        -- intros k Hk. replace (S page_num + k) with (page_num + S k) by lia.
           apply Hname. simpl. lia.
      * rewrite Hm, Hs2. reflexivity.
      * rewrite Hmf, Hs3. reflexivity.
      * rewrite Hck. subst st2. unfold harvest_media.
        destruct (media st1) as [m|]; [|reflexivity].
        destruct (Media.download_from_html _ _ _ _ _) as [[? ?] ?]. reflexivity.
      * rewrite Hrq, Hs4. subst st1. unfold written. cbn [requests rev].
        rewrite <- app_assoc. reflexivity.
Qed.

Lemma download_thread_unfold (t : Thread) (st : State) :
  download_thread E t st =
  let '(stop, st) := poll st in
  if stop then (false, st)
  else
    let '(html_content, st) := get_page E (t_url t) st in
    match html_content with
    | Some (String a r) =>
        let '(downloaded_pages, st) :=
          download_pages E t (get_thread_pages E (t_url t) (String a r)) 1 0 None st in
        (true, record_thread t downloaded_pages st)
    | _ => (false, st)
    end.
Proof. reflexivity. Qed.

(** C4, as the code has it: the test is on the byte length.  A unit that
    is not cancelled, whose first [N] pages are fetched, none of them
    empty, into an output directory that holds none of them and accepts
    their names, each of a byte length different from the page before it,
    and whose page [N+1] is fetched with the byte length of page [N] (as
    when it returns the content of page [N] again): [download_thread]
    writes the [N] pages, does not write page [N+1], requests no page
    after it, and records [pages = N]. *)
Theorem download_thread_pagination_stop
    (t : Thread) (st : State) (html : string)
    (urls : list string) (contents : list string)
    (next : string) (rest : list string) (final repeated : string) :
  flag st = None ->
  http_get E (t_url t) = Some html -> html <> EmptyString ->
  get_thread_pages E (t_url t) html = (urls ++ next :: rest)%list ->
  Forall2 (fun u c => http_get E u = Some c /\ c <> EmptyString) urls contents ->
  (forall k, k <= length urls -> files st !! page_file t (1 + k) = None) ->
  (forall k, k < length urls -> writable E (page_file t (1 + k)) = true) ->
  sizes_differ None contents ->
  last contents = Some final ->
  http_get E next = Some repeated -> repeated <> EmptyString ->
  utf8_len repeated = utf8_len final ->
  exists st',
    download_thread E t st = (true, st') /\
    (exists r, threads (metadata st') !! t_id t = Some r /\ pages r = length urls) /\
    (forall k c, contents !! k = Some c -> files st' !! page_file t (1 + k) = Some c) /\
    files st' !! page_file t (1 + length urls) = None /\
    requests st' = next :: (rev urls ++ t_url t :: requests st)%list.
Proof.
  intros Hfl Hhtml Hne Hpages Hget Hfree Hwr Hsz Hlast Hnext Hrep Hlen.
  rewrite download_thread_unfold, (poll_None _ Hfl).
  unfold get_page. rewrite Hhtml. destruct html as [|a r]; [contradiction|].
  rewrite Hpages.
  set (st1 := mkState _ _ _ _ _ _ _).
  destruct (download_pages_stop t urls contents next rest 1 0 None st1 repeated)
    as (st' & Hrun & Hfl' & Hw & Hn & Ho & Hm & Hmf & Hck & Hrq); try assumption.
  { unfold last_size. rewrite Hlast, Hlen. reflexivity. }
  rewrite Hrun. eexists. split; [reflexivity|].
  unfold record_thread, now, set_metadata. cbn [files metadata threads requests].
  split; [|split; [|split]].
  - eexists. split; [apply lookup_insert_eq | reflexivity].
  - exact Hw.
  - exact Hn.
  - rewrite Hrq. reflexivity.
Qed.

(** *** What downloading a unit changes *)

(** From [st] to [st']: the page files that were there keep their content,
    the metadata on disk is not written, a flag that is never set stays so,
    and the metadata in memory keeps its entries and counters. *)
Record extends (st st' : State) : Prop := mkExtends {
  ex_files : forall name c, files st !! name = Some c -> files st' !! name = Some c;
  ex_metadata_file : metadata_file st' = metadata_file st;
  ex_flag : flag st = None -> flag st' = None;
  ex_metadata : metadata st' = metadata st }.

Lemma extends_refl (st : State) : extends st st.
Proof. constructor; auto. Qed.

Lemma extends_trans (a b c : State) : extends a b -> extends b c -> extends a c.
Proof.
  intros [A1 A2 A3 A4] [B1 B2 B3 B4]. constructor; auto; congruence.
Qed.

Lemma poll_extends (st st' : State) (b : bool) : poll st = (b, st') -> extends st st'.
Proof.
  unfold poll. destruct (is_set (flag st)) as [b' fl] eqn:Ei. intros H. injection H as <- <-.
  constructor; try reflexivity; auto.
  simpl. intros Hn. rewrite Hn in Ei. injection Ei as _ <-. reflexivity.
Qed.

Lemma get_page_extends (u : string) (st : State) : extends st (snd (get_page E u st)).
Proof. constructor; auto. Qed.

Lemma harvest_media_extends (html u : string) (st : State) :
  extends st (harvest_media E html u st).
Proof.
  destruct (harvest_media_same html u st) as [[H1 H2 H3 H4] H5].
  constructor; auto. intros name c. rewrite H1. auto.
Qed.

Lemma download_pages_extends (t : Thread) (thread_pages : list string) :
  forall page_num downloaded prev st,
    extends st (snd (download_pages E t thread_pages page_num downloaded prev st)).
Proof.
  induction thread_pages as [|u rest IH]; intros page_num downloaded prev st.
  - apply extends_refl.
  - rewrite download_pages_cons.
    destruct (poll st) as [stop st1] eqn:Ep. apply poll_extends in Ep.
    destruct stop; [exact Ep|].
    destruct (files st1 !! page_file t page_num) as [saved|] eqn:Ef.
    + eapply extends_trans; [exact Ep|]. eapply extends_trans; [|apply IH].
      destruct (Nat.eqb (utf8_len saved) 0);
        [apply extends_refl | apply harvest_media_extends].
    + unfold get_page.
      set (st2 := mkState (flag st1) (files st1) (metadata st1) (metadata_file st1)
                          (clock st1) (u :: requests st1) (media st1)).
      assert (Hg : extends st1 st2) by (constructor; auto).
      assert (H12 : extends st st2) by (eapply extends_trans; eassumption).
      destruct (http_get E u) as [[|a r]|];
        try (eapply extends_trans; [exact H12 | apply IH]).
      destruct (bool_decide _); [exact H12|].
      destruct (writable E (page_file t page_num));
        [|eapply extends_trans; [exact H12 | apply IH]].
      eapply extends_trans; [exact H12|]. eapply extends_trans; [|apply IH].
      eapply extends_trans; [|apply harvest_media_extends].
      constructor; try reflexivity; auto.
      intros name c Hc. unfold written. cbn [files].
      rewrite lookup_insert_ne; [exact Hc|].
      intros <-. subst st2. cbn [files] in Hc. congruence.
Qed.

(** A unit whose first page cannot be fetched: one request, and nothing
    else. *)
Lemma download_thread_no_content (t : Thread) (st : State) :
  flag st = None -> no_content (http_get E (t_url t)) = true ->
  download_thread E t st = (false, snd (get_page E (t_url t) st)).
Proof.
  intros Hfl Hno. rewrite download_thread_unfold, (poll_None _ Hfl).
  unfold get_page. simpl. destruct (http_get E (t_url t)) as [[|a r]|]; try reflexivity.
  discriminate.
Qed.

(** A unit whose first page is fetched is recorded, whatever follows. *)
Lemma download_thread_content (t : Thread) (st : State) :
  flag st = None -> no_content (http_get E (t_url t)) = false ->
  exists st' r,
    download_thread E t st = (true, st') /\
    flag st' = None /\
    threads (metadata st') = <[t_id t := r]> (threads (metadata st)) /\
    total_threads (metadata st') = total_threads (metadata st).
Proof.
  intros Hfl Hno. rewrite download_thread_unfold, (poll_None _ Hfl).
  pose proof (get_page_extends (t_url t) st) as Hg.
  unfold get_page in *. simpl in Hg.
  destruct (http_get E (t_url t)) as [[|a r]|]; try discriminate.
  set (st1 := mkState _ _ _ _ _ _ _) in *.
  pose proof (download_pages_extends t (get_thread_pages E (t_url t) (String a r))
                1 0 None st1) as Hd.
  destruct (download_pages E t _ 1 0 None st1) as [n st2]. simpl in Hd.
  destruct (extends_trans _ _ _ Hg Hd) as [A1 A2 A3 A4].
  eexists. eexists. split; [reflexivity|].
  unfold record_thread, now, set_metadata. cbn [flag metadata threads total_threads].
  rewrite A4. auto.
Qed.

(** *** With the flag set *)

Lemma download_thread_stopped (t : Thread) (st : State) :
  flag st = Some 0 -> download_thread E t st = (false, st).
Proof. intros H. rewrite download_thread_unfold, (poll_set _ H). reflexivity. Qed.

Lemma download_single_stopped (t : Thread) (st : State) :
  flag st = Some 0 -> download_single E t st = (false, st).
Proof.
  intros H. unfold download_single. rewrite (download_thread_stopped _ _ H).
  apply download_thread_stopped. exact H.
Qed.

Lemma download_pages_stopped (t : Thread) (thread_pages : list string)
    (page_num downloaded : nat) (prev : option nat) (st : State) :
  flag st = Some 0 ->
  download_pages E t thread_pages page_num downloaded prev st = (downloaded, st).
Proof.
  intros H. destruct thread_pages as [|u rest]; [reflexivity|].
  rewrite download_pages_cons, (poll_set _ H). reflexivity.
Qed.

Lemma run_units_stopped (units : list Thread) (stopped : bool) (successful : nat)
    (st : State) :
  flag st = Some 0 -> run_units E units stopped successful st = (successful, st).
Proof.
  intros H. revert stopped. induction units as [|t rest IH]; intros stopped; [reflexivity|].
  simpl. rewrite (download_single_stopped _ _ H). destruct stopped; [apply IH|].
  rewrite (poll_set _ H). apply IH.
Qed.

(** *** What [download_thread] returns and what it records *)

Lemma download_thread_false (t : Thread) (st st' : State) :
  download_thread E t st = (false, st') ->
  metadata st' = metadata st /\ files st' = files st /\
  metadata_file st' = metadata_file st.
Proof.
  rewrite download_thread_unfold. unfold poll, get_page.
  destruct (is_set (flag st)) as [stop fl]. destruct stop.
  - intros H. injection H as <-. auto.
  - cbn [set_flag flag files metadata metadata_file clock requests media].
    destruct (http_get E (t_url t)) as [[|a r]|]; try (intros H; injection H as <-; auto).
    destruct (download_pages E t _ 1 0 None _). discriminate.
Qed.

Lemma download_thread_true (t : Thread) (st st' : State) :
  download_thread E t st = (true, st') ->
  exists r, threads (metadata st') !! t_id t = Some r /\
            r_url r = t_url t /\ r_title r = t_title t.
Proof.
  rewrite download_thread_unfold. unfold poll, get_page.
  destruct (is_set (flag st)) as [stop fl]. destruct stop; [discriminate|].
  cbn [set_flag flag files metadata metadata_file clock requests media].
  destruct (http_get E (t_url t)) as [[|a r]|]; try discriminate.
  destruct (download_pages E t _ 1 0 None _) as [n st2].
  intros H. injection H as <-.
  unfold record_thread, now, set_metadata. cbn [metadata threads].
  eexists. split; [apply lookup_insert_eq|]. split; reflexivity.
Qed.

(** The flag set right after a unit has started: the unit is recorded with
    no page. *)
Lemma download_thread_cut_short (t : Thread) (st : State) (html : string) :
  flag st = Some 1 -> http_get E (t_url t) = Some html -> html <> EmptyString ->
  exists st',
    download_thread E t st = (true, st') /\ files st' = files st /\
    exists r, threads (metadata st') !! t_id t = Some r /\ pages r = 0.
Proof.
  intros Hfl Hget Hne. rewrite download_thread_unfold. unfold poll, get_page.
  rewrite Hfl. cbn [is_set set_flag flag files metadata metadata_file clock requests media].
  rewrite Hget. destruct html as [|a r]; [contradiction|].
  rewrite download_pages_stopped by reflexivity.
  eexists. split; [reflexivity|]. split; [reflexivity|].
  unfold record_thread, now, set_metadata. cbn [metadata threads].
  eexists. split; [apply lookup_insert_eq | reflexivity].
Qed.

End download.

(** The theorem at unit 1 of the sample forum: two pages, and a third that
    repeats the second. *)
Lemma download_thread_pagination_stop_witness :
  exists st',
    download_thread ForumSample.env ForumSample.unit1 (ForumSample.fresh None) = (true, st') /\
    (exists r, threads (metadata st') !! "1" = Some r /\ pages r = 2) /\
    (forall k c,
       ["UNIT-1 FIRST PAGE"; "UNIT-1 SECOND AND LAST PAGE"] !! k = Some c ->
       files st' !! page_file ForumSample.unit1 (1 + k) = Some c) /\
    files st' !! page_file ForumSample.unit1 3 = None /\
    requests st' =
      [ "http://f/showthread.php?t=1&page=3"; "http://f/showthread.php?t=1&page=2";
        "http://f/showthread.php?t=1"; "http://f/showthread.php?t=1" ].
Proof.
  apply (download_thread_pagination_stop ForumSample.env ForumSample.unit1
           (ForumSample.fresh None) "UNIT-1 FIRST PAGE"
           ["http://f/showthread.php?t=1"; "http://f/showthread.php?t=1&page=2"]
           ["UNIT-1 FIRST PAGE"; "UNIT-1 SECOND AND LAST PAGE"]
           "http://f/showthread.php?t=1&page=3" []
           "UNIT-1 SECOND AND LAST PAGE" "UNIT-1 SECOND AND LAST PAGE").
  - reflexivity.
  - vm_compute. reflexivity.
  - discriminate.
  - vm_compute. reflexivity.
  - repeat constructor; discriminate.
  - intros k Hk. vm_compute in Hk.
    destruct k as [|[|[|k]]]; [vm_compute; reflexivity .. | lia].
  - intros k Hk. reflexivity.
  - simpl. repeat split; discriminate.
  - reflexivity.
  - vm_compute. reflexivity.
  - discriminate.
  - reflexivity.
Defined.

(** C4 as stated fails.  The third page of the sample unit returns the
    content of its second page again, so the claim has the crawler stop at
    page 2 and record [pages = 2]; but the second page has the byte length
    of the first, and the loop stops there: one page is written and
    recorded, the second page is not persisted, the third is never
    requested. *)
Lemma equal_length_stops_early :
  let st' := snd (download_thread PagerSample.env PagerSample.unit7 (ForumSample.fresh None)) in
  get_thread_pages PagerSample.env "http://f/showthread.php?t=7" "PAGE ONE"
  = [ "http://f/showthread.php?t=7"; "http://f/showthread.php?t=7&page=2";
      "http://f/showthread.php?t=7&page=3" ] /\
  http_get PagerSample.env "http://f/showthread.php?t=7" = Some "PAGE ONE" /\
  http_get PagerSample.env "http://f/showthread.php?t=7&page=2" = Some "PAGE TWO" /\
  http_get PagerSample.env "http://f/showthread.php?t=7&page=3" = Some "PAGE TWO" /\
  (pages <$> threads (metadata st') !! "7") = Some 1 /\
  files st' !! page_file PagerSample.unit7 1 = Some "PAGE ONE" /\
  files st' !! page_file PagerSample.unit7 2 = None /\
  requests st'
  = [ "http://f/showthread.php?t=7&page=2"; "http://f/showthread.php?t=7";
      "http://f/showthread.php?t=7" ].
Proof. cbv zeta. repeat split; vm_compute; reflexivity. Qed.

End DownloadFacts.

(** ** The archive crawler: a run *)

Module RunFacts.
Import PyStr PyStrFacts Cancel Backup DownloadFacts.

Definition with_requests (reqs : list string) (st : State) : State :=
  mkState (flag st) (files st) (metadata st) (metadata_file st) (clock st) reqs (media st).

(** The metadata without the time of the last backup. *)
Definition forget_time (m : Metadata) : Metadata :=
  mkMetadata (threads m) None (total_threads m) (completed_threads m).

Section run.
Variable E : Env.
Variable base_url : string.
Variable start_page : nat.
Variable order : list (list Thread) -> list (list Thread).

(** *** Discovery, when the flag is never set *)

Definition section_pages : list string :=
  fst (get_all_pages_urls E start_page base_url (init false None ∅ None ∅ None 0 [])).

Definition page_result (u : string) : list Thread :=
  match http_get E u with
  | Some (String a r) => default [] (extract_thread_links E base_url (String a r))
  | _ => []
  end.

Definition found : list Thread :=
  unique_by_id ∅ (concat (order (map page_result section_pages))).

Lemma get_all_pages_urls_eq (st : State) :
  get_all_pages_urls E start_page base_url st
  = (section_pages, with_requests (base_url :: requests st) st).
Proof.
  unfold section_pages, get_all_pages_urls, get_page. simpl.
  destruct (http_get E base_url) as [[|a r]|]; try reflexivity.
  destruct (page_numbers E (String a r)); reflexivity.
Qed.

Lemma process_page_None (u : string) (st : State) :
  flag st = None ->
  process_page E base_url u st = (page_result u, with_requests (u :: requests st) st).
Proof.
  intros H. unfold process_page, page_result. rewrite (poll_None _ H).
  unfold get_page. destruct (http_get E u) as [[|a r]|]; reflexivity.
Qed.

Lemma process_pages_None (pages : list string) (st : State) :
  flag st = None ->
  process_pages E base_url pages st
  = (map page_result pages, with_requests (rev pages ++ requests st)%list st).
Proof.
  revert st. induction pages as [|u rest IH]; intros st H.
  - destruct st; reflexivity.
  - simpl. rewrite (process_page_None _ _ H), IH by exact H.
    unfold with_requests. simpl. rewrite <- app_assoc. reflexivity.
Qed.

Lemma collect_None (results : list (list Thread)) (st : State) :
  flag st = None -> collect results st = (concat results, st).
Proof.
  intros H. induction results as [|ts rest IH]; [reflexivity|].
  simpl. rewrite (poll_None _ H), IH. reflexivity.
Qed.

Lemma discover_None (st : State) :
  flag st = None ->
  discover_all_threads E base_url start_page order st
  = (found, with_requests (rev section_pages ++ base_url :: requests st)%list st).
Proof.
  intros H. unfold discover_all_threads, gather_threads.
  rewrite get_all_pages_urls_eq, process_pages_None by exact H.
  rewrite collect_None by exact H. reflexivity.
Qed.

(** *** The units of a run, when the flag is never set *)

Lemma download_single_no_content (t : Thread) (st : State) :
  flag st = None -> no_content (http_get E (t_url t)) = true ->
  download_single E t st
  = (false, with_requests (t_url t :: t_url t :: requests st) st).
Proof.
  intros Hfl Hno. unfold download_single.
  rewrite (download_thread_no_content E t st Hfl Hno).
  rewrite download_thread_no_content; [reflexivity | exact Hfl | exact Hno].
Qed.

Lemma download_single_content (t : Thread) (st : State) :
  flag st = None -> no_content (http_get E (t_url t)) = false ->
  exists st' r,
    download_single E t st = (true, st') /\
    flag st' = None /\
    threads (metadata st') = <[t_id t := r]> (threads (metadata st)) /\
    total_threads (metadata st') = total_threads (metadata st).
Proof.
  intros Hfl Hno. unfold download_single.
  destruct (download_thread_content E t st Hfl Hno) as (st' & r & -> & H1 & H2 & H3).
  exists st', r. auto.
Qed.

(** After the units have run, each of them is recorded or cannot be
    fetched. *)
Definition units_done (units : list Thread) (st st' : State) : Prop :=
  flag st' = None /\
  dom (threads (metadata st)) ⊆ dom (threads (metadata st')) /\
  total_threads (metadata st') = total_threads (metadata st) /\
  (forall t, t ∈ units ->
     no_content (http_get E (t_url t)) = true \/
     t_id t ∈ dom (threads (metadata st'))).

Lemma units_done_step (t : Thread) (rest : list Thread) (st st1 st' : State) :
  flag st1 = None ->
  dom (threads (metadata st)) ⊆ dom (threads (metadata st1)) ->
  total_threads (metadata st1) = total_threads (metadata st) ->
  (no_content (http_get E (t_url t)) = true \/ t_id t ∈ dom (threads (metadata st1))) ->
  units_done rest st1 st' -> units_done (t :: rest) st st'.
Proof.
  intros Hfl Hdom Htot Ht (I1 & I2 & I3 & I4).
  split; [exact I1|]. split; [set_solver|]. split; [congruence|].
  intros t0 Ht0. apply elem_of_cons in Ht0 as [->|Ht0]; [|apply I4; exact Ht0].
  destruct Ht as [Ht|Ht]; [left; exact Ht | right; set_solver].
Qed.

Lemma run_units_None (units : list Thread) :
  forall (stopped : bool) (successful : nat) (st : State),
    flag st = None ->
    units_done units st (snd (run_units E units stopped successful st)).
Proof.
  induction units as [|t rest IH]; intros stopped successful st Hfl.
  - simpl. split; [exact Hfl|]. split; [reflexivity|]. split; [reflexivity|].
    intros t Ht. apply not_elem_of_nil in Ht. contradiction.
  - cbn [run_units].
    destruct (no_content (http_get E (t_url t))) eqn:Hno.
    + rewrite (download_single_no_content t st Hfl Hno).
      set (st1 := with_requests _ st).
      assert (Hfl1 : flag st1 = None) by exact Hfl.
      assert (Hstep : forall b n, units_done (t :: rest) st (snd (run_units E rest b n st1))).
      { intros b n. apply (units_done_step t rest st st1); auto; try reflexivity. }
      destruct stopped; [apply Hstep|].
      rewrite (poll_None _ Hfl1). apply Hstep.
    + destruct (download_single_content t st Hfl Hno) as (st1 & r & -> & H1 & H2 & H3).
      destruct stopped.
      * apply (units_done_step t rest st st1); auto.
        -- rewrite H2, dom_insert. set_solver.
        -- right. rewrite H2, dom_insert. set_solver.
      * rewrite (poll_None _ H1).
        set (st2 := save_metadata (set_completed (S successful) st1)).
        assert (Hth : threads (metadata st2) = threads (metadata st1)) by reflexivity.
        apply (units_done_step t rest st st2).
        -- exact H1.
        -- rewrite Hth, H2, dom_insert. set_solver.
        -- exact H3.
        -- right. rewrite Hth, H2, dom_insert. set_solver.
        -- apply IH. exact H1.
Qed.

(** Units that cannot be fetched leave only their requests. *)
Definition retried (units : list Thread) : list string :=
  rev (flat_map (fun t => [t_url t; t_url t]) units).

Lemma run_units_no_content (units : list Thread) :
  forall (successful : nat) (st : State),
    flag st = None ->
    (forall t, t ∈ units -> no_content (http_get E (t_url t)) = true) ->
    run_units E units false successful st
    = (successful, with_requests (retried units ++ requests st)%list st).
Proof.
  induction units as [|t rest IH]; intros successful st Hfl Hno.
  - destruct st; reflexivity.
  - cbn [run_units]. rewrite (download_single_no_content t st Hfl); [|apply Hno; left].
    set (st1 := with_requests _ st).
    assert (Hfl1 : flag st1 = None) by exact Hfl.
    rewrite (poll_None _ Hfl1), IH; [|exact Hfl1|intros t0 Ht0; apply Hno; right; exact Ht0].
    unfold retried, with_requests. subst st1. simpl.
    rewrite <- !app_assoc. reflexivity.
Qed.

(** [run_backup], when the flag is never set. *)
Lemma run_backup_None (st : State) :
  flag st = None ->
  run_backup E base_url start_page order st =
  let stA := with_requests (rev section_pages ++ base_url :: requests st)%list st in
  match found with
  | [] => (0, stA)
  | _ =>
      let stT := set_total (length found) stA in
      let units := filter (fun t => threads (metadata stT) !! t_id t = None) found in
      (fst (run_units E units false 0 stT),
       save_metadata (snd (run_units E units false 0 stT)))
  end.
Proof.
  intros H. unfold run_backup. rewrite (discover_None st H). cbv zeta.
  destruct found as [|t ts]; [reflexivity|].
  destruct (run_units E _ false 0 _) as [n st']. reflexivity.
Qed.

Lemma run_backup_nothing_found (st : State) :
  flag st = None -> found = [] ->
  run_backup E base_url start_page order st
  = (0, with_requests (rev section_pages ++ base_url :: requests st)%list st).
Proof. intros H Hf. rewrite (run_backup_None st H), Hf. reflexivity. Qed.

Lemma run_backup_found (st : State) :
  flag st = None -> found <> [] ->
  run_backup E base_url start_page order st =
  let stA := with_requests (rev section_pages ++ base_url :: requests st)%list st in
  let stT := set_total (length found) stA in
  let units := filter (fun t => threads (metadata stT) !! t_id t = None) found in
  (fst (run_units E units false 0 stT),
   save_metadata (snd (run_units E units false 0 stT))).
Proof.
  intros H Hf. rewrite (run_backup_None st H).
  destruct found; [contradiction | reflexivity].
Qed.

(** A page whose file is there is counted; it is neither requested nor
    written. *)
Lemma download_pages_existing (t : Thread) (u : string) (rest : list string)
    (page_num downloaded : nat) (prev : option nat) (st : State) (saved : string) :
  flag st = None ->
  files st !! page_file t page_num = Some saved ->
  exists st',
    download_pages E t (u :: rest) page_num downloaded prev st
    = download_pages E t rest (S page_num) (S downloaded) (Some (utf8_len saved)) st' /\
    files st' = files st /\ requests st' = requests st /\ metadata st' = metadata st.
Proof.
  intros Hfl Hf. rewrite download_pages_cons, (poll_None _ Hfl), Hf.
  eexists. split; [reflexivity|].
  destruct (Nat.eqb (utf8_len saved) 0); [auto|].
  destruct (harvest_media_same E saved u st) as [[H1 H2 H3 H4] _]. auto.
Qed.

Lemma elem_of_retried (units : list Thread) (u : string) :
  u ∈ retried units -> exists t, t ∈ units /\ u = t_url t.
Proof.
  unfold retried. intros H.
  apply list_elem_of_In, in_rev, in_flat_map in H as (t & Ht & Hu).
  exists t. split; [apply list_elem_of_In; exact Ht|].
  destruct Hu as [<-|[<-|[]]]; reflexivity.
Qed.

End run.

(** The first run of the sample stores the two pages of unit 1 and the page
    of unit 2, and records both; the second run changes [last_backup] only. *)
Example run_backup_sample :
  let st1 := snd (run_backup ForumSample.env ForumSample.base_url 1 ForumSample.in_order (ForumSample.fresh None)) in
  let st2 := snd (run_backup ForumSample.env ForumSample.base_url 1 ForumSample.in_order (reopen st1)) in
  dom (files st1) = {[ "thread_1_Alpha__page1.html"; "thread_1_Alpha__page2.html";
                       "thread_2_Beta__page1.html" ]} /\
  dom (threads (metadata st1)) = {[ "1"; "2" ]} /\
  last_backup (metadata st1) = Some 4 /\ last_backup (metadata st2) = Some 5.
Proof. cbv zeta. repeat split; vm_compute; reflexivity. Qed.

(** *** Cancellation *)

Lemma run_backup_persists (E : Env) (base_url : string) (start_page : nat)
    (order : list (list Thread) -> list (list Thread)) (st : State) :
  fst (discover_all_threads E base_url start_page order st) <> [] ->
  let st' := snd (run_backup E base_url start_page order st) in
  metadata_file st' = Some (metadata st').
Proof.
  intros H. cbv zeta. unfold run_backup.
  destruct (discover_all_threads E base_url start_page order st) as [[|t ts] st1];
    [contradiction|].
  destruct (run_units E _ false 0 _) as [n st2]. reflexivity.
Qed.

End RunFacts.

(** ** The content extractor: the order of the posts *)

Module ExtractorFacts.
Import PyStr Cancel Extractor.

(** *** The order of the keys *)

Lemma key_ltb_cons (a b : nat) (r1 r2 : list nat) :
  key_ltb (a :: r1) (b :: r2) =
  if Nat.ltb a b then true else if Nat.eqb a b then key_ltb r1 r2 else false.
Proof. simpl. destruct (Nat.ltb a b), (Nat.eqb a b); reflexivity. Qed.

Ltac nat_cmp a b :=
  let H := fresh "Hcmp" in
  destruct (lt_eq_lt_dec a b) as [[H|H]|H];
  [ rewrite ?(proj2 (Nat.ltb_lt a b) H), ?(proj2 (Nat.ltb_ge b a) (Nat.lt_le_incl _ _ H)),
      ?(proj2 (Nat.eqb_neq a b) (Nat.lt_neq _ _ H)),
      ?(proj2 (Nat.eqb_neq b a) (not_eq_sym (Nat.lt_neq _ _ H)))
  | subst; rewrite ?Nat.ltb_irrefl, ?Nat.eqb_refl
  | rewrite ?(proj2 (Nat.ltb_lt b a) H), ?(proj2 (Nat.ltb_ge a b) (Nat.lt_le_incl _ _ H)),
      ?(proj2 (Nat.eqb_neq b a) (Nat.lt_neq _ _ H)),
      ?(proj2 (Nat.eqb_neq a b) (not_eq_sym (Nat.lt_neq _ _ H))) ].

Lemma key_ltb_irrefl (k : list nat) : key_ltb k k = false.
Proof.
  induction k as [|a k IH]; [reflexivity|].
  rewrite key_ltb_cons, Nat.ltb_irrefl, Nat.eqb_refl. exact IH.
Qed.

Lemma key_ltb_trichotomy (k1 k2 : list nat) :
  key_ltb k1 k2 = true \/ k1 = k2 \/ key_ltb k2 k1 = true.
Proof.
  revert k2. induction k1 as [|a k1 IH]; intros [|b k2]; simpl; auto.
  fold (key_ltb k1 k2) (key_ltb k2 k1). nat_cmp a b; simpl; auto.
  destruct (IH k2) as [H|[->|H]]; auto.
Qed.

Lemma key_ltb_trans (k1 k2 k3 : list nat) :
  key_ltb k1 k2 = true -> key_ltb k2 k3 = true -> key_ltb k1 k3 = true.
Proof.
  revert k2 k3. induction k1 as [|a k1 IH]; intros [|b k2] [|c k3]; try discriminate; auto.
  rewrite !key_ltb_cons. intros H1 H2.
  destruct (Nat.ltb_spec a b), (Nat.eqb_spec a b), (Nat.ltb_spec b c), (Nat.eqb_spec b c),
    (Nat.ltb_spec a c), (Nat.eqb_spec a c);
    try discriminate; try lia; try reflexivity.
  eapply IH; eassumption.
Qed.

Lemma key_ltb_asym (k1 k2 : list nat) : key_ltb k1 k2 = true -> key_ltb k2 k1 = false.
Proof.
  intros H. destruct (key_ltb k2 k1) eqn:E; [|reflexivity].
  pose proof (key_ltb_trans _ _ _ H E) as Hc. rewrite key_ltb_irrefl in Hc. discriminate.
Qed.

(** [k1 <= k2]: [k2] is not smaller. *)
Definition key_le (k1 k2 : list nat) : Prop := key_ltb k2 k1 = false.

Lemma key_le_trans (k1 k2 k3 : list nat) : key_le k1 k2 -> key_le k2 k3 -> key_le k1 k3.
Proof.
  unfold key_le. intros H12 H23. destruct (key_ltb k3 k1) eqn:E; [|reflexivity].
  destruct (key_ltb_trichotomy k1 k2) as [H|[->|H]]; try congruence.
  pose proof (key_ltb_trans _ _ _ E H). congruence.
Qed.

Lemma key_le_antisym (k1 k2 : list nat) : key_le k1 k2 -> key_le k2 k1 -> k1 = k2.
Proof.
  unfold key_le. intros H1 H2.
  destruct (key_ltb_trichotomy k1 k2) as [H|[->|H]]; congruence.
Qed.

(** *** The stable sort *)

Section sorting.
Context {A : Type} (key : A -> list nat).

Definition ordered (x y : A) : Prop := key_le (key x) (key y).

Lemma insert_sorted_perm (x : A) (l : list A) : Permutation (x :: l) (insert_sorted key x l).
Proof.
  induction l as [|y l IH]; simpl; [reflexivity|].
  destruct (key_ltb (key y) (key x)); [|reflexivity].
  rewrite perm_swap. apply perm_skip. exact IH.
Qed.

Lemma stable_sort_perm (l : list A) : Permutation l (stable_sort key l).
Proof.
  induction l as [|x l IH]; simpl; [reflexivity|].
  rewrite <- insert_sorted_perm. apply perm_skip. exact IH.
Qed.

Lemma insert_sorted_Forall (P : A -> Prop) (x : A) (l : list A) :
  P x -> Forall P l -> Forall P (insert_sorted key x l).
Proof.
  intros Hx Hl. induction Hl as [|y l Hy Hl IH]; simpl; [repeat constructor; exact Hx|].
  destruct (key_ltb (key y) (key x)); repeat constructor; auto.
Qed.

Lemma insert_sorted_sorted (x : A) (l : list A) :
  StronglySorted ordered l -> StronglySorted ordered (insert_sorted key x l).
Proof.
  induction 1 as [|y l Hs IH Hall]; simpl; [repeat constructor|].
  destruct (key_ltb (key y) (key x)) eqn:E.
  - constructor; [exact IH|]. apply insert_sorted_Forall; [|exact Hall].
    unfold ordered, key_le. apply key_ltb_asym. exact E.
  - constructor; [constructor; assumption|]. constructor; [exact E|].
    eapply Forall_impl; [exact Hall|]. intros z Hz.
    unfold ordered in *. eapply key_le_trans; [exact E | exact Hz].
Qed.

Lemma stable_sort_sorted (l : list A) : StronglySorted ordered (stable_sort key l).
Proof.
  induction l as [|x l IH]; simpl; [constructor | apply insert_sorted_sorted; exact IH].
Qed.

(** The elements of one key keep their order. *)
Lemma insert_sorted_stable (k : list nat) (x : A) (l : list A) :
  filter (fun y => key y = k) (insert_sorted key x l) = filter (fun y => key y = k) (x :: l).
Proof.
  induction l as [|y l IH]; simpl; [reflexivity|].
  destruct (key_ltb (key y) (key x)) eqn:E; [|reflexivity].
  rewrite (filter_cons _ y), IH, !(filter_cons _ x), !(filter_cons _ y).
  destruct (decide (key x = k)) as [Hx|Hx]; [|reflexivity].
  destruct (decide (key y = k)) as [Hy|Hy]; [|reflexivity].
  rewrite Hx, Hy, key_ltb_irrefl in E. discriminate.
Qed.

Lemma stable_sort_stable (k : list nat) (l : list A) :
  filter (fun y => key y = k) (stable_sort key l) = filter (fun y => key y = k) l.
Proof.
  induction l as [|x l IH]; simpl; [reflexivity|].
  rewrite insert_sorted_stable, !filter_cons, IH. reflexivity.
Qed.

(** In a sorted list the earlier of two elements has the smaller key. *)
Lemma sorted_lookup (l : list A) (i j : nat) (x y : A) :
  StronglySorted ordered l -> i < j -> l !! i = Some x -> l !! j = Some y -> ordered x y.
Proof.
  intros Hs. revert i j. induction Hs as [|z l Hs IH Hall]; intros i j Hij Hi Hj.
  - rewrite lookup_nil in Hi. discriminate.
  - destruct j as [|j]; [lia|]. destruct i as [|i].
    + simpl in Hi, Hj. injection Hi as <-.
      rewrite Forall_forall in Hall. apply Hall.
      eapply list_elem_of_lookup_2. exact Hj.
    + simpl in Hi, Hj. apply (IH i j); [lia | assumption | assumption].
Qed.

End sorting.

(** *** The two extractors *)

Lemma restore_posts_order (E : Env) (blocks : list Block) :
  forall (idx : nat) (se se' : Flag) (posts : list RestoredPost),
    restore_posts E idx blocks se = Some (posts, se') ->
    length posts <= length blocks /\
    (se = None -> length posts = length blocks) /\
    (forall k p, posts !! k = Some p ->
       exists b, blocks !! k = Some b /\ restored_post E (idx + k) b = Some p).
Proof.
  induction blocks as [|b rest IH]; intros idx se se' posts H.
  - injection H as <- _. split; [reflexivity|]. split; [reflexivity|].
    intros k p Hk. rewrite lookup_nil in Hk. discriminate.
  - cbn [restore_posts] in H. destruct (is_set se) as [stop se1] eqn:Es. destruct stop.
    + injection H as <- _. split; [simpl; lia|].
      split; [intros ->; discriminate|].
      intros k p Hk. rewrite lookup_nil in Hk. discriminate.
    + apply bind_Some in H as (p0 & Hp0 & H).
      apply bind_Some in H as ([ps se2] & Hrest & H). injection H as <- _.
      destruct (IH _ _ _ _ Hrest) as (Hle & Hlen & Hall).
      split; [simpl; lia|]. split.
      * intros ->. injection Es as <-. simpl. rewrite Hlen; reflexivity.
      * intros [|k] p Hk; simpl in Hk.
        -- injection Hk as <-. exists b. rewrite Nat.add_0_r. auto.
        -- destruct (Hall k p Hk) as (b' & Hb' & Hp). exists b'. split; [exact Hb'|].
           rewrite <- Hp. f_equal. lia.
Qed.

Lemma restore_posts_returns (E : Env) (blocks : list Block) :
  forall (idx : nat) (se : Flag),
    (forall i b, b ∈ blocks -> is_Some (restored_post E i b)) ->
    is_Some (restore_posts E idx blocks se).
Proof.
  induction blocks as [|b rest IH]; intros idx se Hall; [eexists; reflexivity|].
  cbn [restore_posts]. destruct (is_set se) as [stop se1]. destruct stop; [eexists; reflexivity|].
  destruct (Hall idx b) as [p ->]; [left|].
  destruct (IH (S idx) se1) as [[ps se2] ->]; [|eexists; reflexivity].
  intros i b' Hb'. apply Hall. right. exact Hb'.
Qed.

Lemma restore_posts_raises (E : Env) (blocks : list Block) :
  forall (idx k : nat) (b : Block),
    blocks !! k = Some b -> restored_post E (idx + k) b = None ->
    restore_posts E idx blocks None = None.
Proof.
  induction blocks as [|b0 rest IH]; intros idx k b Hk Hb.
  - rewrite lookup_nil in Hk. discriminate.
  - cbn [restore_posts is_set]. destruct k as [|k]; simpl in Hk.
    + injection Hk as ->. rewrite Nat.add_0_r in Hb. rewrite Hb. reflexivity.
    + destruct (restored_post E idx b0); [|reflexivity]. simpl.
      rewrite (IH (S idx) k b Hk); [reflexivity|].
      rewrite <- Hb. f_equal. lia.
Qed.

(** C8, as the code has it.  When [extract_posts_html] returns, it returns
    the posts of the blocks of the page sorted: a post with a parsed date
    stands before every post with a later date and before every post
    without one, and the posts that compare equal, those without a parsed
    date among them, keep the order of the document; it returns unless the
    media loops raise on a block.  [_parse_single_html] parses no date and
    sorts nothing: the page yields one thread or, when a block raises,
    none; post [k] of the thread is the post of block [k] of the document,
    up to the block at which the flag was found set. *)
Theorem posts_order (E : Env) (message_blocks : list Block) :
  (forall posts,
     extract_posts_html E message_blocks = Some posts ->
     exists source,
       Forall2 (fun b p => post_of_block E b = Some p) message_blocks source /\
       Permutation source posts /\
       (forall i j p q,
          i < j -> posts !! i = Some p -> posts !! j = Some q ->
          match date_obj p, date_obj q with
          | Some a, Some b => key_le (datetime_fields a) (datetime_fields b)
          | None, Some _ => False
          | _, None => True
          end) /\
       (forall k, filter (fun p => sort_key p = k) posts
                  = filter (fun p => sort_key p = k) source) /\
       filter (fun p => date_obj p = None) posts
       = filter (fun p => date_obj p = None) source) /\
  (is_Some (extract_posts_html E message_blocks) <->
   Forall (fun b => is_Some (post_of_block E b)) message_blocks) /\
  (forall se posts,
     _parse_single_html E message_blocks se = [posts] ->
     length posts <= length message_blocks /\
     (se = None -> length posts = length message_blocks) /\
     (forall k p, posts !! k = Some p ->
        exists b, message_blocks !! k = Some b /\ restored_post E k b = Some p)) /\
  (forall se,
     _parse_single_html E message_blocks se = [] \/
     exists posts, _parse_single_html E message_blocks se = [posts]) /\
  (forall se,
     (forall i b, b ∈ message_blocks -> is_Some (restored_post E i b)) ->
     exists posts, _parse_single_html E message_blocks se = [posts]) /\
  (forall k b,
     message_blocks !! k = Some b -> restored_post E k b = None ->
     _parse_single_html E message_blocks None = []).
Proof.
  split; [|split; [|split; [|split; [|split]]]].
  - intros posts H. unfold extract_posts_html in H.
    apply bind_Some in H as (source & Hm & H). injection H as <-.
    exists source. split; [apply mapM_Some; exact Hm|].
    split; [apply stable_sort_perm|]. split; [|split].
    + intros i j p q Hij Hp Hq.
      pose proof (sorted_lookup sort_key _ i j p q (stable_sort_sorted sort_key _) Hij Hp Hq)
        as Ho.
      unfold ordered, sort_key, key_le in Ho.
      destruct (date_obj p) as [a|], (date_obj q) as [b|]; try exact I.
      * unfold key_le. rewrite key_ltb_cons in Ho. exact Ho.
      * discriminate.
    + intros k. apply stable_sort_stable.
    + pose proof (stable_sort_stable sort_key [1] source) as H.
      assert (Hext : forall l : list Post,
                 filter (fun p => date_obj p = None) l = filter (fun p => sort_key p = [1]) l).
      { intros l. apply list_filter_iff. intros p. unfold sort_key.
        destruct (date_obj p); split; intros; try discriminate; reflexivity. }
      rewrite !Hext. exact H.
  - unfold extract_posts_html. split.
    + intros [posts H]. apply bind_Some in H as (source & Hm & _).
      apply mapM_Some in Hm. induction Hm as [|b p bs ps Hb _ IH]; constructor; eauto.
    + intros H.
      assert (Hm : is_Some (mapM (post_of_block E) message_blocks)).
      { apply mapM_is_Some. exact H. }
      destruct Hm as [source ->]. eexists. reflexivity.
  - intros se posts H. unfold _parse_single_html in H.
    destruct (restore_posts E 0 message_blocks se) as [[ps se']|] eqn:Er; [|discriminate].
    injection H as ->. apply restore_posts_order in Er. exact Er.
  - intros se. unfold _parse_single_html.
    destruct (restore_posts E 0 message_blocks se) as [[ps se']|]; [right; eauto | left; reflexivity].
  - intros se Hall. unfold _parse_single_html.
    destruct (restore_posts_returns E message_blocks 0 se Hall) as [[ps se'] ->]. eauto.
  - intros k b Hk Hb. unfold _parse_single_html.
    rewrite (restore_posts_raises E message_blocks 0 k b Hk Hb). reflexivity.
Qed.

(** C8 as stated fails for [_parse_single_html]: on the sample page the
    post dated 2 January stands before the post dated 1 January, while
    [extract_posts_html] puts them the other way round. *)
Lemma restoration_keeps_document_order :
  map (map r_date) (_parse_single_html PostSample.env PostSample.blocks None)
  = [[PostSample.later; PostSample.earlier; "yesterday"]] /\
  (map date <$> extract_posts_html PostSample.env PostSample.blocks)
  = Some [PostSample.earlier; PostSample.later; "yesterday"] /\
  (exists a b,
     parse_date PostSample.env PostSample.later = Some a /\
     parse_date PostSample.env PostSample.earlier = Some b /\
     key_ltb (datetime_fields b) (datetime_fields a) = true).
Proof.
  split; [vm_compute; reflexivity|]. split; [vm_compute; reflexivity|].
  eexists. eexists. split; [vm_compute; reflexivity|]. split; vm_compute; reflexivity.
Qed.

(** A page whose last post holds an anchor on which the media loops raise:
    neither extractor returns a post of the page.  The text of a comment is
    part of the converted body and no part of [get_text]. *)
Example parse_error_sample :
  _parse_single_html PostSample.strict_env PostSample.blocks_with_link None = [] /\
  extract_posts_html PostSample.strict_env PostSample.blocks_with_link = None /\
  length (concat (_parse_single_html PostSample.env PostSample.blocks_with_link None)) = 4 /\
  get_text (Restoration.Tag "div" ∅
              [ Restoration.NavigableString "a"; Restoration.Comment "hidden";
                Restoration.NavigableString "b" ]) = "ab" /\
  Restoration._html_to_bbcode
    (Restoration.Tag "div" ∅
       [ Restoration.NavigableString "a"; Restoration.Comment "hidden";
         Restoration.NavigableString "b" ]) = "ahiddenb".
Proof. repeat split; vm_compute; reflexivity. Qed.

End ExtractorFacts.

(** ** The site mirror crawler *)

Module MirrorFacts.
Import PyStr Mirror.

Section crawl.
Variable E : Env.
Variable seed : string.
Variable output_dir : string.

Local Abbreviation _normalize := (Mirror._normalize E).
Local Abbreviation process_url := (Mirror.process_url E seed output_dir).
Local Abbreviation _url_to_path := (Mirror._url_to_path E output_dir).
Local Abbreviation base_domain := (Mirror.base_domain E seed).
Local Abbreviation base_url := (Mirror.base_url seed).
Local Abbreviation step := (Mirror.step E seed output_dir).

(** The URLs a page puts on the queue. *)
Definition children (url : string) : list string := enqueued (process_url url).

Lemma scan_links_spec (url : string) (links : list (option string)) (w : string) :
  w ∈ fst (scan_links E seed output_dir url links) ->
  _normalize w = Some w /\ netloc_of E w = base_domain /\ is_Some (_url_to_path w).
Proof.
  induction links as [|[link|] rest IH]; simpl.
  - intros H. apply not_elem_of_nil in H. contradiction.
  - destruct (skipped_link link); [exact IH|].
    destruct (urljoin E url link ≫= _normalize) as [absolute|] eqn:Ea;
      [|intros H; apply not_elem_of_nil in H; contradiction].
    destruct (netloc_of E absolute) as [domain|] eqn:Ed;
      [|intros H; apply not_elem_of_nil in H; contradiction].
    destruct (bool_decide (Some domain = base_domain)) eqn:Eb; simpl; [|exact IH].
    destruct (_url_to_path absolute) as [p|] eqn:Ep;
      [|intros H; apply not_elem_of_nil in H; contradiction].
    destruct (scan_links E seed output_dir url rest) as [more ok]. simpl in *.
    intros H. apply elem_of_cons in H as [->|H]; [|apply IH; exact H].
    apply bind_Some in Ea as (j & _ & Hj).
    split; [eapply MirrorUrlFacts._normalize_fixed; exact Hj|].
    apply bool_decide_eq_true in Eb. split; [congruence | eexists; exact Ep].
  - exact IH.
Qed.

Lemma children_spec (url w : string) :
  w ∈ children url ->
  _normalize w = Some w /\ netloc_of E w = base_domain /\ is_Some (_url_to_path w).
Proof.
  unfold children, Mirror.process_url.
  destruct (respond E url) as [|status ctype body]; simpl;
    [intros H; apply not_elem_of_nil in H; contradiction|].
  destruct (negb (Nat.eqb status 200)); simpl;
    [intros H; apply not_elem_of_nil in H; contradiction|].
  destruct (_url_to_path url); simpl;
    [|intros H; apply not_elem_of_nil in H; contradiction].
  destruct (contains "text/html" ctype); simpl;
    [|intros H; apply not_elem_of_nil in H; contradiction].
  pose proof (scan_links_spec url (soup_links E body) w) as Hs.
  destruct (scan_links E seed output_dir url (soup_links E body)) as [urls ok]. exact Hs.
Qed.

Lemma survives_with_path (url : string) :
  is_Some (_url_to_path url) -> survives (process_url url) = true.
Proof.
  intros [p Hp]. unfold Mirror.process_url.
  destruct (respond E url) as [|status ctype body]; [reflexivity|].
  destruct (negb (Nat.eqb status 200)); [reflexivity|]. rewrite Hp.
  destruct (contains "text/html" ctype); [|reflexivity].
  destruct (scan_links E seed output_dir url (soup_links E body)). reflexivity.
Qed.

(** A page is saved when it answers 200 (and has a local path). *)
Lemma saved_iff_200 (url : string) :
  is_Some (_url_to_path url) ->
  (is_Some (saved (process_url url)) <->
   exists ctype body, respond E url = Answer 200 ctype body).
Proof.
  intros [p Hp]. unfold Mirror.process_url.
  destruct (respond E url) as [|status ctype body].
  - split; [intros [x Hx]; discriminate | intros (c & b & H); discriminate].
  - destruct (Nat.eqb status 200) eqn:Es; simpl.
    + apply Nat.eqb_eq in Es. subst status. rewrite Hp.
      split; [intros _; eauto|]. intros _.
      destruct (contains "text/html" ctype); [|eexists; reflexivity].
      destruct (scan_links E seed output_dir url (soup_links E body)). eexists. reflexivity.
    + apply Nat.eqb_neq in Es.
      split; [intros [x Hx]; discriminate|]. intros (c & b & H). congruence.
Qed.

(** *** The links of a page *)

(** [w] is a link of the page at [u] for the crawler to follow: the page
    answers 200 as HTML, and one of its links, not of a kind that is
    skipped, stands for [w], a URL of the seed's domain. *)
Definition links_to (u w : string) : Prop :=
  exists ctype body link,
    respond E u = Answer 200 ctype body /\ contains "text/html" ctype = true /\
    Some link ∈ soup_links E body /\ skipped_link link = false /\
    urljoin E u link ≫= _normalize = Some w /\ netloc_of E w = base_domain.

(** No link of the page at [u] makes [urljoin], [urldefrag] or [urlparse]
    raise. *)
Definition no_raise (u : string) : Prop :=
  forall ctype body link,
    respond E u = Answer 200 ctype body -> contains "text/html" ctype = true ->
    Some link ∈ soup_links E body -> skipped_link link = false ->
    exists w, urljoin E u link ≫= _normalize = Some w /\
              is_Some (UrlLib.urlparse (netloc_ok E) w).

Lemma scan_links_sound (url : string) (links : list (option string)) (w : string) :
  w ∈ fst (scan_links E seed output_dir url links) ->
  exists link, Some link ∈ links /\ skipped_link link = false /\
               urljoin E url link ≫= _normalize = Some w /\ netloc_of E w = base_domain.
Proof.
  induction links as [|[link|] rest IH]; simpl.
  - intros H. apply not_elem_of_nil in H. contradiction.
  - assert (Hrest : w ∈ fst (scan_links E seed output_dir url rest) ->
              exists link0, Some link0 ∈ Some link :: rest /\ skipped_link link0 = false /\
                urljoin E url link0 ≫= _normalize = Some w /\ netloc_of E w = base_domain).
    { intros H. destruct (IH H) as (l0 & Hl0 & Hrest). exists l0. split; [right; exact Hl0|].
      exact Hrest. }
    destruct (skipped_link link) eqn:Esk; [exact Hrest|].
    destruct (urljoin E url link ≫= _normalize) as [absolute|] eqn:Ea;
      [|intros H; apply not_elem_of_nil in H; contradiction].
    destruct (netloc_of E absolute) as [domain|] eqn:Ed;
      [|intros H; apply not_elem_of_nil in H; contradiction].
    destruct (bool_decide (Some domain = base_domain)) eqn:Eb; simpl; [|exact Hrest].
    destruct (_url_to_path absolute) as [p|] eqn:Ep;
      [|intros H; apply not_elem_of_nil in H; contradiction].
    destruct (scan_links E seed output_dir url rest) as [more ok]. simpl in *.
    intros H. apply elem_of_cons in H as [->|H]; [|apply Hrest; exact H].
    exists link. split; [left|]. split; [exact Esk|]. split; [exact Ea|].
    apply bool_decide_eq_true in Eb. congruence.
  - intros H. destruct (IH H) as (l0 & Hl0 & Hrest). exists l0. split; [right; exact Hl0|].
    exact Hrest.
Qed.

Lemma scan_links_complete (url : string) (links : list (option string))
    (link w : string) :
  snd (scan_links E seed output_dir url links) = true ->
  Some link ∈ links -> skipped_link link = false ->
  urljoin E url link ≫= _normalize = Some w -> netloc_of E w = base_domain ->
  w ∈ fst (scan_links E seed output_dir url links).
Proof.
  intros Hok Hin Hsk Hw Hd. induction links as [|[l0|] rest IH].
  - apply not_elem_of_nil in Hin. contradiction.
  - cbn [scan_links] in Hok |- *. destruct (decide (l0 = link)) as [->|Hne].
    + rewrite Hsk, Hw in Hok |- *. rewrite Hd in Hok |- *.
      destruct (Mirror.base_domain E seed) as [domain|] eqn:Eb; [|discriminate].
      rewrite bool_decide_eq_true_2 in Hok |- * by reflexivity. cbn [negb] in Hok |- *.
      destruct (_url_to_path w) as [p|]; [|discriminate].
      destruct (scan_links E seed output_dir url rest) as [more ok]. left.
    + assert (Hin' : Some link ∈ rest).
      { apply elem_of_cons in Hin as [Heq|Hin]; [congruence | exact Hin]. }
      destruct (skipped_link l0); [apply IH; assumption|].
      destruct (urljoin E url l0 ≫= _normalize) as [absolute|]; [|discriminate].
      destruct (netloc_of E absolute) as [domain|]; [|discriminate].
      destruct (negb (bool_decide (Some domain = base_domain))); [apply IH; assumption|].
      destruct (_url_to_path absolute) as [p|]; [|discriminate].
      destruct (scan_links E seed output_dir url rest) as [more ok]. cbn [fst snd] in *.
      right. apply IH; assumption.
  - cbn [scan_links] in Hok |- *. apply IH; [exact Hok|].
    apply elem_of_cons in Hin as [Heq|Hin]; [discriminate | exact Hin].
Qed.

(** The link loop runs to its end when no link of the page raises. *)
Lemma scan_links_runs (url : string) (links : list (option string)) :
  (forall link, Some link ∈ links -> skipped_link link = false ->
     exists w, urljoin E url link ≫= _normalize = Some w /\
               is_Some (UrlLib.urlparse (netloc_ok E) w)) ->
  snd (scan_links E seed output_dir url links) = true.
Proof.
  induction links as [|[l0|] rest IH]; intros Hall; simpl.
  - reflexivity.
  - assert (Hrest : snd (scan_links E seed output_dir url rest) = true).
    { apply IH. intros link Hin. apply Hall. right. exact Hin. }
    destruct (skipped_link l0) eqn:Esk; [exact Hrest|].
    destruct (Hall l0 ltac:(left) Esk) as (w & -> & [[r b] Hp]).
    unfold netloc_of, Mirror._url_to_path. rewrite Hp.
    destruct (negb _); [exact Hrest|].
    destruct (scan_links E seed output_dir url rest) as [more ok]. exact Hrest.
  - apply IH. intros link Hin. apply Hall. right. exact Hin.
Qed.

(** What a page puts on the queue are links of it, and all of them when
    none raises. *)
Lemma children_links (u w : string) : w ∈ children u -> links_to u w.
Proof.
  unfold children, Mirror.process_url.
  destruct (respond E u) as [|status ctype body] eqn:Er; simpl;
    [intros H; apply not_elem_of_nil in H; contradiction|].
  destruct (Nat.eqb status 200) eqn:Es; simpl;
    [|intros H; apply not_elem_of_nil in H; contradiction].
  apply Nat.eqb_eq in Es. subst status.
  destruct (_url_to_path u); simpl;
    [|intros H; apply not_elem_of_nil in H; contradiction].
  destruct (contains "text/html" ctype) eqn:Ec; simpl;
    [|intros H; apply not_elem_of_nil in H; contradiction].
  pose proof (scan_links_sound u (soup_links E body) w) as Hs.
  destruct (scan_links E seed output_dir u (soup_links E body)) as [urls ok]. simpl in *.
  intros H. destruct (Hs H) as (link & H1 & H2 & H3 & H4).
  exists ctype, body, link. repeat split; assumption.
Qed.

(** The link loop of the page at [u] runs to its end. *)
Definition scan_done (u : string) : bool :=
  match respond E u with
  | Answer _ _ body => snd (scan_links E seed output_dir u (soup_links E body))
  | Failed => true
  end.

Lemma links_children_done (u w : string) :
  is_Some (_url_to_path u) -> scan_done u = true -> links_to u w -> w ∈ children u.
Proof.
  intros [p Hp] Hdone (ctype & body & link & Hr & Hc & Hin & Hsk & Hw & Hd).
  unfold scan_done in Hdone. rewrite Hr in Hdone.
  unfold children, Mirror.process_url. rewrite Hr. simpl. rewrite Hp, Hc.
  pose proof (scan_links_complete u (soup_links E body) link w) as Hs.
  destruct (scan_links E seed output_dir u (soup_links E body)) as [urls ok]. simpl in *.
  apply Hs; assumption.
Qed.

Lemma links_children (u w : string) :
  is_Some (_url_to_path u) -> no_raise u -> links_to u w -> w ∈ children u.
Proof.
  intros Hp Hno Hl. apply links_children_done; [exact Hp| |exact Hl].
  destruct Hl as (ctype & body & link & Hr & Hc & _).
  unfold scan_done. rewrite Hr. apply scan_links_runs.
  intros l Hl Hskl. eapply Hno; eassumption.
Qed.

(** What is saved for a page that answers 200: its body, after the links
    were rewritten when the page is HTML and the link loop ran to its end. *)
Lemma saved_content (url ctype body p : string) :
  respond E url = Answer 200 ctype body -> _url_to_path url = Some p ->
  saved (process_url url)
  = Some (p, if contains "text/html" ctype
             then (if snd (scan_links E seed output_dir url (soup_links E body))
                   then rewritten E url body else body)
             else body).
Proof.
  intros Hr Hp. unfold Mirror.process_url. rewrite Hr. simpl. rewrite Hp.
  destruct (contains "text/html" ctype); [|reflexivity].
  destruct (scan_links E seed output_dir url (soup_links E body)) as [urls ok]. reflexivity.
Qed.

Variable s0 : string.
Hypothesis seed_normal : _normalize base_url = Some s0.
Hypothesis seed_path : is_Some (_url_to_path s0).

(** The pages the links lead to from the seed. *)
Inductive linked : string -> Prop :=
| linked_seed : linked s0
| linked_link (u w : string) : linked u -> links_to u w -> linked w.

(** The pages of the site the crawl can come to: the seed, and what a page
    that was come to puts on the queue. *)
Inductive reach : string -> Prop :=
| reach_seed : reach s0
| reach_link (u w : string) : reach u -> w ∈ children u -> reach w.

Lemma reach_path (v : string) : reach v -> is_Some (_url_to_path v).
Proof.
  induction 1 as [|u w _ _ Hw]; [exact seed_path|].
  apply children_spec in Hw. tauto.
Qed.

Lemma reach_linked (v : string) : reach v -> linked v.
Proof.
  induction 1 as [|u w _ IH Hw]; [constructor|].
  econstructor; [exact IH | apply children_links; exact Hw].
Qed.

(** What may stand on the queue: the seed as given, or a link of a page
    that was come to. *)
Definition pending (x : string) : Prop :=
  x = base_url \/ exists u, reach u /\ x ∈ children u.

Lemma pending_normal (x : string) :
  pending x ->
  exists v, _normalize x = Some v /\ reach v /\ (forall u, x ∈ children u -> v = x).
Proof.
  intros [->|(u & Hu & Hx)].
  - exists s0. split; [exact seed_normal|]. split; [constructor|].
    intros u Hu. apply children_spec in Hu as [Hn _]. congruence.
  - exists x. destruct (children_spec _ _ Hx) as [Hn _].
    split; [exact Hn|]. split; [econstructor; eassumption | reflexivity].
Qed.

Lemma saved_path (url p c : string) :
  saved (process_url url) = Some (p, c) -> _url_to_path url = Some p.
Proof.
  unfold Mirror.process_url.
  destruct (respond E url) as [|status ctype body]; [discriminate|].
  destruct (negb (Nat.eqb status 200)); [discriminate|].
  destruct (_url_to_path url) as [q|]; [|discriminate].
  destruct (contains "text/html" ctype).
  - destruct (scan_links E seed output_dir url (soup_links E body)). simpl. congruence.
  - simpl. congruence.
Qed.

(** *** The schedule [next] is a run *)

Lemma next_step (s s' : State) : Mirror.next E seed output_dir s = Some s' -> step s s'.
Proof.
  unfold Mirror.next. destruct (working s) as [|url w2] eqn:Ew.
  - destruct (holding s) as [|url h2] eqn:Eh.
    + destruct (queue s) as [|url q] eqn:Eq; [discriminate|].
      destruct (idle s) as [|k] eqn:Ei; [discriminate|].
      intros [= <-]. pose proof (step_get E seed output_dir s url q k Eq Ei) as H.
      rewrite Eh, Ew in H. exact H.
    + destruct (_normalize url) as [v|] eqn:En.
      * destruct (decide (v ∈ visited s)) as [Hin|Hout]; intros [= <-].
        -- pose proof (step_seen E seed output_dir s url v [] h2 Eh En Hin) as H.
           rewrite Ew in H. exact H.
        -- pose proof (step_visit E seed output_dir s url v [] h2 Eh En Hout) as H.
           rewrite Ew in H. exact H.
      * intros [= <-]. pose proof (step_raise E seed output_dir s url [] h2 Eh En) as H.
        rewrite Ew in H. exact H.
  - intros [= <-]. apply (step_work E seed output_dir s url [] w2). exact Ew.
Qed.

Lemma run_steps_rtc (fuel : nat) (s : State) :
  rtc step s (Mirror.run_steps E seed output_dir fuel s).
Proof.
  revert s. induction fuel as [|fuel IH]; intros s; simpl; [apply rtc_refl|].
  destruct (Mirror.next E seed output_dir s) as [s'|] eqn:En; [|apply rtc_refl].
  eapply rtc_l; [apply next_step; exact En | apply IH].
Qed.

(** With nothing on the queue, in hand or in work, no worker can step. *)
Lemma empty_at_rest (s : State) :
  queue s = [] -> holding s = [] -> working s = [] -> at_rest E seed output_dir s.
Proof.
  intros Eq Eh Ew s' Hs'.
  destruct Hs' as [? ? ? ? H1 | ? ? h1 ? H1 | ? ? ? h1 ? H1 | ? ? ? h1 ? H1 | ? ? h1 ? H1];
    rewrite ?Eq, ?Eh, ?Ew in H1; try discriminate; destruct h1; discriminate.
Qed.

(** *** What every state of a run keeps *)

Variable max_workers : nat.

(** The invariant of a run: what stands on the queue or in a worker's hand
    is the seed or a link of a page come to; the visited set holds the
    URLs being worked on and those fetched, each once, all of them pages
    come to; the seed and the links of every fetched page are on the
    queue, in a hand, or visited; no worker has died; and the saves are
    those of the fetched pages that answered 200. *)
Record Inv (s : State) : Prop := mkInv {
  inv_pending : forall x, x ∈ queue s \/ x ∈ holding s -> pending x;
  inv_visited : forall v, v ∈ visited s <-> v ∈ working s \/ v ∈ fetched s;
  inv_nodup : NoDup (working s ++ fetched s)%list;
  inv_reach : forall v, v ∈ visited s -> reach v;
  inv_seed : base_url ∈ queue s \/ base_url ∈ holding s \/ s0 ∈ visited s;
  inv_closed : forall u w, u ∈ fetched s -> w ∈ children u ->
                 w ∈ queue s \/ w ∈ holding s \/ w ∈ visited s;
  inv_workers : idle s + length (holding s) + length (working s) = max_workers /\ dead s = 0;
  inv_saves : map fst (saves s)
              = filter (fun u => is_Some (saved (process_url u))) (fetched s);
  inv_paths : forall u p, (u, p) ∈ saves s -> _url_to_path u = Some p;
  inv_count : downloaded s = length (saves s);
  inv_files : forall p c, files s !! p = Some c ->
                exists u, u ∈ fetched s /\ saved (process_url u) = Some (p, c) }.

Lemma Inv_init : Inv (Mirror.init seed max_workers).
Proof.
  split; simpl.
  - intros x [Hx|Hx]; [|apply not_elem_of_nil in Hx; contradiction].
    apply list_elem_of_singleton in Hx. left. exact Hx.
  - intros v. rewrite elem_of_empty, !elem_of_nil. tauto.
  - constructor.
  - intros v Hv. apply elem_of_empty in Hv. contradiction.
  - left. apply list_elem_of_singleton. reflexivity.
  - intros u w Hu. apply not_elem_of_nil in Hu. contradiction.
  - split; [lia | reflexivity].
  - reflexivity.
  - intros u p Hu. apply not_elem_of_nil in Hu. contradiction.
  - reflexivity.
  - intros p c Hp. rewrite lookup_empty in Hp. discriminate.
Qed.

Lemma elem_of_middle (x url : string) (h1 h2 : list string) :
  x ∈ (h1 ++ url :: h2)%list <-> x = url \/ x ∈ (h1 ++ h2)%list.
Proof. rewrite !elem_of_app, elem_of_cons. tauto. Qed.

Lemma length_middle (url : string) (h1 h2 : list string) :
  length (h1 ++ url :: h2)%list = S (length (h1 ++ h2)%list).
Proof. rewrite !length_app. simpl. lia. Qed.

(** A URL in a worker's hand normalises, under the invariant, to a page
    come to; when it is a link of a page, to itself. *)
Lemma held_normal (s : State) (url : string) :
  Inv s -> url ∈ holding s ->
  exists v, _normalize url = Some v /\ reach v /\
            (url = base_url -> v = s0) /\ (forall u, url ∈ children u -> v = url).
Proof.
  intros HI Hu. destruct (pending_normal url) as (v & Hn & Hr & Hc).
  { apply (inv_pending s HI). right. exact Hu. }
  exists v. split; [exact Hn|]. split; [exact Hr|]. split; [|exact Hc].
  intros ->. congruence.
Qed.

Lemma Inv_step (s s' : State) : Inv s -> step s s' -> Inv s'.
Proof.
  intros HI Hstep.
  destruct Hstep as [s url q k Hq Hk | s url h1 h2 Hh Hn | s url v h1 h2 Hh Hn Hv
                    | s url v h1 h2 Hh Hn Hv | s url w1 w2 Hw].
  - (* a worker takes a URL from the queue *)
    destruct HI as [Hp Hvis Hnd Hr Hs Hc [Hwk Hd] Hsv Hpa Hcn Hfi].
    split; simpl; try assumption.
    + intros x Hx. apply Hp. rewrite Hq. rewrite !elem_of_cons in *. tauto.
    + rewrite Hq in Hs. rewrite !elem_of_cons in *. tauto.
    + intros u w Hu Hw. specialize (Hc u w Hu Hw). rewrite Hq in Hc.
      rewrite !elem_of_cons in *. tauto.
    + split; [lia | exact Hd].
  - (* normalising a held URL never raises *)
    destruct (held_normal s url HI) as (v & Hv & _).
    { rewrite Hh. apply elem_of_middle. left. reflexivity. }
    congruence.
  - (* the URL was visited already *)
    destruct (held_normal s url HI) as (v' & Hv' & Hr' & Hseed & Hlink).
    { rewrite Hh. apply elem_of_middle. left. reflexivity. }
    assert (v' = v) by congruence. subst v'.
    destruct HI as [Hp Hvis Hnd Hr Hs Hc [Hwk Hd] Hsv Hpa Hcn Hfi].
    split; simpl; try assumption.
    + intros x Hx. apply Hp. rewrite Hh, elem_of_middle. tauto.
    + rewrite Hh, elem_of_middle in Hs. destruct Hs as [Hs|[[Hs|Hs]|Hs]]; auto.
      right. right. rewrite <- (Hseed (eq_sym Hs)). exact Hv.
    + intros u w Hu Hw. specialize (Hc u w Hu Hw). rewrite Hh, elem_of_middle in Hc.
      destruct Hc as [Hc|[[Hc|Hc]|Hc]]; auto.
      right. right. subst w. rewrite <- (Hlink u Hw). exact Hv.
    + rewrite Hh, length_middle in Hwk. split; [lia | exact Hd].
  - (* the URL is marked visited *)
    destruct (held_normal s url HI) as (v' & Hv' & Hr' & Hseed & Hlink).
    { rewrite Hh. apply elem_of_middle. left. reflexivity. }
    assert (v' = v) by congruence. subst v'.
    destruct HI as [Hp Hvis Hnd Hr Hs Hc [Hwk Hd] Hsv Hpa Hcn Hfi].
    split; simpl; try assumption.
    + intros x Hx. apply Hp. rewrite Hh, elem_of_middle. tauto.
    + intros x. rewrite elem_of_union, elem_of_singleton, elem_of_cons, Hvis. tauto.
    + apply NoDup_cons. split; [|exact Hnd].
      rewrite elem_of_app. rewrite Hvis in Hv. exact Hv.
    + intros x. rewrite elem_of_union, elem_of_singleton. intros [->|Hx]; auto.
    + rewrite Hh, elem_of_middle in Hs. destruct Hs as [Hs|[[Hs|Hs]|Hs]]; auto.
      * right. right. rewrite <- (Hseed (eq_sym Hs)).
        apply elem_of_union. left. apply elem_of_singleton. reflexivity.
      * right. right. apply elem_of_union. right. exact Hs.
    + intros u w Hu Hw. specialize (Hc u w Hu Hw). rewrite Hh, elem_of_middle in Hc.
      destruct Hc as [Hc|[[Hc|Hc]|Hc]]; auto.
      * right. right. subst w. rewrite <- (Hlink u Hw).
        apply elem_of_union. left. apply elem_of_singleton. reflexivity.
      * right. right. apply elem_of_union. right. exact Hc.
    + rewrite Hh, length_middle in Hwk. simpl. split; [lia | exact Hd].
  - (* a worker fetches the page and puts its links on the queue *)
    destruct HI as [Hp Hvis Hnd Hr Hs Hc [Hwk Hd] Hsv Hpa Hcn Hfi].
    assert (Hru : reach url).
    { apply Hr, Hvis. left. rewrite Hw. apply elem_of_middle. left. reflexivity. }
    assert (Hsur : survives (process_url url) = true)
      by (apply survives_with_path, reach_path; exact Hru).
    unfold after_work. rewrite Hsur.
    split; simpl.
    + intros x. rewrite elem_of_app. intros [[Hx|Hx]|Hx]; [apply Hp; auto | | apply Hp; auto].
      right. exists url. split; [exact Hru | exact Hx].
    + intros v. rewrite Hvis, Hw, elem_of_middle, elem_of_cons. tauto.
    + rewrite Hw in Hnd.
      assert (Hperm : ((w1 ++ w2) ++ url :: fetched s)%list
                      ≡ₚ ((w1 ++ url :: w2) ++ fetched s)%list).
      { rewrite <- !app_assoc. apply Permutation_app_head. simpl.
        symmetry. apply Permutation_middle. }
      rewrite Hperm. exact Hnd.
    + exact Hr.
    + rewrite elem_of_app. tauto.
    + intros u w. rewrite elem_of_cons, elem_of_app. intros [->|Hu] Hx.
      * left. right. exact Hx.
      * specialize (Hc u w Hu Hx). tauto.
    + rewrite Hw, length_middle in Hwk. split; [lia | exact Hd].
    + rewrite filter_cons. destruct (saved (process_url url)) as [[p c]|] eqn:Es.
      * rewrite decide_True by (eexists; reflexivity). simpl. f_equal. exact Hsv.
      * rewrite decide_False by (intros [x Hx]; discriminate). exact Hsv.
    + intros u p. destruct (saved (process_url url)) as [[p' c]|] eqn:Es; [|apply Hpa].
      rewrite elem_of_cons. intros [Heq|Hu]; [|apply Hpa; exact Hu].
      injection Heq as -> ->. eapply saved_path. exact Es.
    + destruct (saved (process_url url)) as [[p' c]|]; simpl; congruence.
    + intros p c Hl.
      assert (Hold : files s !! p = Some c ->
                exists u, u ∈ url :: fetched s /\ saved (process_url u) = Some (p, c)).
      { intros H. destruct (Hfi p c H) as (u & Hu & Hsu). exists u. split; [right|]; assumption. }
      destruct (saved (process_url url)) as [[p' c']|] eqn:Es; [|exact (Hold Hl)].
      unfold Mirror._save in Hl. destruct (save_ok E (files s) p'); [|exact (Hold Hl)].
      destruct (decide (p' = p)) as [->|Hne].
      * rewrite lookup_insert_eq in Hl. injection Hl as ->. exists url. split; [left | exact Es].
      * rewrite lookup_insert_ne in Hl by exact Hne. exact (Hold Hl).
Qed.

Lemma Inv_run (s : State) : rtc step (Mirror.init seed max_workers) s -> Inv s.
Proof.
  intros H. eapply (rtc_ind_r Inv); [apply Inv_init | | exact H].
  intros y z _ Hyz HI. eapply Inv_step; eassumption.
Qed.

(** *** The run comes to rest *)

Hypothesis workers : 1 <= max_workers.

Lemma can_step (s : State) :
  Inv s -> queue s <> [] \/ holding s <> [] \/ working s <> [] -> exists s', step s s'.
Proof.
  intros HI Hne.
  destruct (working s) as [|url w2] eqn:Ew.
  - destruct (holding s) as [|url h2] eqn:Eh.
    + destruct (queue s) as [|url q] eqn:Eq; [destruct Hne as [?|[?|?]]; congruence|].
      destruct (inv_workers s HI) as [Hwk _]. rewrite Eh, Ew in Hwk. simpl in Hwk.
      destruct (idle s) as [|k] eqn:Ei; [lia|].
      eexists. eapply step_get; eassumption.
    + destruct (held_normal s url HI) as (v & Hv & _).
      { rewrite Eh. apply elem_of_cons. left. reflexivity. }
      destruct (decide (v ∈ visited s)) as [Hin|Hout].
      * eexists. eapply (step_seen E seed output_dir s url v []); eassumption.
      * eexists. eapply (step_visit E seed output_dir s url v []); eassumption.
  - eexists. eapply (step_work E seed output_dir s url []). exact Ew.
Qed.

Lemma at_rest_empty (s : State) :
  Inv s -> at_rest E seed output_dir s -> queue s = [] /\ holding s = [] /\ working s = [].
Proof.
  intros HI Hrest.
  destruct (queue s) as [|a q] eqn:Eq, (holding s) as [|b h] eqn:Eh,
           (working s) as [|c w] eqn:Ew; try (split; [|split]; reflexivity);
    exfalso; destruct (can_step s HI) as [s' Hs']; try (eapply Hrest; exact Hs');
    rewrite ?Eq, ?Eh, ?Ew; auto.
Qed.

(** At rest, every page that can be come to has been fetched. *)
Lemma rest_complete (s : State) :
  Inv s -> at_rest E seed output_dir s -> forall u, reach u -> u ∈ fetched s.
Proof.
  intros HI Hrest. destruct (at_rest_empty s HI Hrest) as (Hq & Hh & Hw).
  assert (Hvf : forall v, v ∈ visited s -> v ∈ fetched s).
  { intros v Hv. apply (inv_visited s HI) in Hv. rewrite Hw in Hv.
    destruct Hv as [Hv|Hv]; [apply not_elem_of_nil in Hv; contradiction | exact Hv]. }
  induction 1 as [|u w _ IH Hw'].
  - destruct (inv_seed s HI) as [H|[H|H]]; [rewrite Hq in H | rewrite Hh in H | auto];
      apply not_elem_of_nil in H; contradiction.
  - destruct (inv_closed s HI u w IH Hw') as [H|[H|H]];
      [rewrite Hq in H | rewrite Hh in H | auto];
      apply not_elem_of_nil in H; contradiction.
Qed.

Variable site : list string.
Hypothesis site_seed : s0 ∈ site.
Hypothesis site_closed : forall u w, u ∈ site -> w ∈ children u -> w ∈ site.

Lemma reach_site (v : string) : reach v -> v ∈ site.
Proof. induction 1; [exact site_seed | eapply site_closed; eassumption]. Qed.

(** When no link of a page of the site raises, the crawl can come to every
    page the links lead to. *)
Lemma linked_reach (v : string) :
  (forall u, u ∈ site -> no_raise u) -> linked v -> reach v.
Proof.
  intros Hno. induction 1 as [|u w _ IH Hw]; [constructor|].
  econstructor; [exact IH|].
  apply links_children; [apply reach_path; exact IH | apply Hno, reach_site; exact IH | exact Hw].
Qed.

(** When every write succeeds and no two pages of the site have one local
    path, what was saved for a fetched page is in its file. *)
Lemma files_complete (s : State) :
  (forall f q, save_ok E f q = true) ->
  (forall u1 u2 p, u1 ∈ site -> u2 ∈ site ->
     _url_to_path u1 = Some p -> _url_to_path u2 = Some p -> u1 = u2) ->
  rtc step (Mirror.init seed max_workers) s ->
  forall u p c, u ∈ fetched s -> saved (process_url u) = Some (p, c) -> files s !! p = Some c.
Proof.
  intros Hok Hinj Hrun.
  eapply (rtc_ind_r (fun s => forall u p c, u ∈ fetched s ->
            saved (process_url u) = Some (p, c) -> files s !! p = Some c));
    [| |exact Hrun].
  - intros u p c Hu. apply not_elem_of_nil in Hu. contradiction.
  - intros y z Hy Hyz IH. pose proof (Inv_run y Hy) as HI.
    destruct Hyz as [y url q k Hq Hk | y url h1 h2 Hh Hn | y url v h1 h2 Hh Hn Hv
                    | y url v h1 h2 Hh Hn Hv | y url w1 w2 Hw]; try exact IH.
    intros u p c Hu Hs. unfold after_work in Hu |- *. cbn [fetched files] in Hu |- *.
    apply elem_of_cons in Hu as [->|Hu].
    + rewrite Hs. unfold Mirror._save. rewrite Hok. apply lookup_insert_eq.
    + pose proof (IH u p c Hu Hs) as Hold.
      destruct (saved (process_url url)) as [[p' c']|] eqn:Es; [|exact Hold].
      unfold Mirror._save. rewrite Hok.
      destruct (decide (p' = p)) as [->|Hne]; [|rewrite lookup_insert_ne by exact Hne; exact Hold].
      assert (Hsite : forall x, x ∈ visited y -> x ∈ site)
        by (intros x Hx; apply reach_site, (inv_reach y HI), Hx).
      assert (Heq : url = u).
      { apply (Hinj url u p).
        - apply Hsite, (inv_visited y HI). left. rewrite Hw. apply elem_of_middle. left.
          reflexivity.
        - apply Hsite, (inv_visited y HI). right. exact Hu.
        - eapply saved_path. exact Es.
        - eapply saved_path. exact Hs. }
      subst u. rewrite Hs in Es. injection Es as ->. apply lookup_insert_eq.
Qed.

(** What a step makes smaller: the pages of the site not yet visited, then
    the URLs being worked on, then the URLs on the queue and in hand. *)
Definition weight (s : State) : nat * (nat * nat) :=
  (size (list_to_set site ∖ visited s : gset string),
   (length (working s), 2 * length (queue s) + length (holding s))).

Definition lighter : nat * (nat * nat) -> nat * (nat * nat) -> Prop :=
  slexprod nat (nat * nat) lt (slexprod nat nat lt lt).

Lemma lighter_wf : well_founded lighter.
Proof. apply wf_slexprod; [apply lt_wf | apply wf_slexprod; apply lt_wf]. Qed.

Lemma step_lighter (s s' : State) : Inv s -> step s s' -> lighter (weight s') (weight s).
Proof.
  intros HI Hstep. unfold weight, lighter.
  destruct Hstep as [s url q k Hq Hk | s url h1 h2 Hh Hn | s url v h1 h2 Hh Hn Hv
                    | s url v h1 h2 Hh Hn Hv | s url w1 w2 Hw]; simpl.
  - apply right_slex, right_slex. rewrite Hq. simpl. lia.
  - apply right_slex, right_slex. rewrite Hh, length_middle. lia.
  - apply right_slex, right_slex. rewrite Hh, length_middle. lia.
  - apply left_slex. apply subset_size.
    destruct (held_normal s url HI) as (v' & Hv' & Hr' & _).
    { rewrite Hh. apply elem_of_middle. left. reflexivity. }
    assert (v' = v) by congruence. subst v'. apply reach_site in Hr'.
    apply strict_spec_alt. split.
    + intros x. rewrite !elem_of_difference, elem_of_union. tauto.
    + intros Heq. assert (Hx : v ∈ (list_to_set site ∖ visited s : gset string)).
      { apply elem_of_difference. split; [apply elem_of_list_to_set; exact Hr' | exact Hv]. }
      rewrite <- Heq in Hx. apply elem_of_difference in Hx as [_ Hx].
      apply Hx, elem_of_union. left. apply elem_of_singleton. reflexivity.
  - unfold after_work. simpl. apply right_slex, left_slex.
    rewrite Hw, length_middle. lia.
Qed.

(** No run goes on for ever. *)
Lemma run_ends (s : State) : Inv s -> Acc (fun s2 s1 => step s1 s2) s.
Proof.
  intros HI.
  induction (wf_inverse_image _ _ _ weight lighter_wf s) as [s _ IH].
  constructor. intros s' Hs'.
  apply IH; [apply step_lighter; assumption | eapply Inv_step; eassumption].
Qed.

Lemma comes_to_rest (s : State) :
  Inv s -> exists s', rtc step s s' /\ at_rest E seed output_dir s'.
Proof.
  intros HI. induction (run_ends s HI) as [s _ IH].
  destruct (queue s) as [|a q] eqn:Eq, (holding s) as [|b h] eqn:Eh,
           (working s) as [|c w] eqn:Ew.
  1: { exists s. split; [apply rtc_refl|]. intros s' Hs'.
       destruct Hs' as [? ? ? ? H1 | ? ? h1 ? H1 | ? ? ? h1 ? H1 | ? ? ? h1 ? H1 | ? ? h1 ? H1];
         rewrite ?Eq, ?Eh, ?Ew in H1; try discriminate; destruct h1; discriminate. }
  all: destruct (can_step s HI) as [s1 Hs1]; [rewrite ?Eq, ?Eh, ?Ew; auto|];
    destruct (IH s1 Hs1 (Inv_step s s1 HI Hs1)) as (s' & Hrun & Hrest);
    exists s'; (split; [eapply rtc_l; eassumption | exact Hrest]).
Qed.

(** *** Once each *)

Lemma saved_200 (url : string) :
  is_Some (saved (process_url url)) -> exists ctype body, respond E url = Answer 200 ctype body.
Proof.
  unfold Mirror.process_url. destruct (respond E url) as [|status ctype body].
  - intros [x Hx]. discriminate.
  - destruct (Nat.eqb status 200) eqn:Es; simpl.
    + apply Nat.eqb_eq in Es. subst status. eauto.
    + intros [x Hx]. discriminate.
Qed.

Lemma fetched_NoDup (s : State) : Inv s -> NoDup (fetched s).
Proof. intros HI. pose proof (inv_nodup s HI) as H. apply NoDup_app in H. tauto. Qed.

Lemma saves_NoDup (s : State) : Inv s -> NoDup (map fst (saves s)).
Proof.
  intros HI. rewrite (inv_saves s HI). apply NoDup_filter, fetched_NoDup. exact HI.
Qed.

Lemma filter_fst_absent (l : list (string * string)) (u : string) :
  u ∉ map fst l -> filter (fun e => fst e = u) l = [].
Proof.
  induction l as [|[a b] l IH]; [reflexivity|]. simpl. rewrite not_elem_of_cons.
  intros [Hne Hl]. rewrite filter_cons. simpl.
  rewrite decide_False by congruence. apply IH, Hl.
Qed.

Lemma filter_fst_unique (l : list (string * string)) (u p : string) :
  NoDup (map fst l) -> (u, p) ∈ l -> filter (fun e => fst e = u) l = [(u, p)].
Proof.
  induction l as [|[a b] l IH]; simpl.
  - intros _ H. apply not_elem_of_nil in H. contradiction.
  - rewrite NoDup_cons, elem_of_cons. intros [Ha Hnd] [Heq|Hin].
    + injection Heq as <- <-. rewrite filter_cons. simpl.
      rewrite decide_True by reflexivity. f_equal. apply filter_fst_absent, Ha.
    + rewrite filter_cons. simpl. rewrite decide_False; [apply IH; assumption|].
      intros <-. apply Ha. apply list_elem_of_fmap. exists (a, p). split; [reflexivity|exact Hin].
Qed.

(** A fetched page that answered 200 has one save, at its local path; a
    page that did not has none. *)
Lemma saved_once (s : State) (u : string) :
  Inv s -> u ∈ fetched s ->
  (exists ctype body, respond E u = Answer 200 ctype body) ->
  exists p, _url_to_path u = Some p /\ filter (fun e => fst e = u) (saves s) = [(u, p)].
Proof.
  intros HI Hu H200.
  assert (Hr : reach u) by (apply (inv_reach s HI), (inv_visited s HI); right; exact Hu).
  assert (Hs : is_Some (saved (process_url u)))
    by (apply saved_iff_200; [apply reach_path; exact Hr | exact H200]).
  assert (Hin : u ∈ map fst (saves s)).
  { rewrite (inv_saves s HI). apply list_elem_of_filter. split; assumption. }
  apply list_elem_of_fmap in Hin as ([u' p] & Heq & Hin). simpl in Heq. subst u'.
  exists p. split; [apply (inv_paths s HI), Hin|].
  apply filter_fst_unique; [apply saves_NoDup; exact HI | exact Hin].
Qed.

Lemma never_saved (s : State) (u : string) :
  Inv s -> ~ (exists ctype body, respond E u = Answer 200 ctype body) ->
  u ∉ map fst (saves s).
Proof.
  intros HI H200. rewrite (inv_saves s HI). rewrite list_elem_of_filter.
  intros [Hs _]. apply H200, saved_200, Hs.
Qed.

(** Only the seed and URLs of the seed's domain stand on the queue. *)
Lemma queue_confined (s : State) (x : string) :
  Inv s -> x ∈ queue s -> x = base_url \/ netloc_of E x = base_domain.
Proof.
  intros HI Hx. destruct (inv_pending s HI x) as [->|(u & _ & Hu)]; [left; exact Hx | auto|].
  right. apply children_spec in Hu. tauto.
Qed.

End crawl.

(** C5, as the code has it.  What a page puts on the queue are links of
    it that lead into the seed's domain, and all of them when no link of
    the page raises.  A run of the mirror crawler from the seed, over a
    site whose links lead only into a finite set, with any number of
    workers taking steps in any order: in every state of the run the
    visited set holds just the URLs in work and those fetched, each once,
    so no URL is requested twice; the fetched URLs are pages the seed
    leads to; a fetched page that answered 200 has one call of [_save], at
    its local path, and a URL that did not answer 200 has none; the
    counter counts these calls; every file of the mirror holds what was
    saved for a fetched page, and when every write succeeds and no two
    pages of the site have one local path, every fetched page that
    answered 200 has its file; what stands on the queue is the seed or a
    URL of the seed's domain.  No run goes on for ever, every run can be
    taken to rest, and at rest the queue is empty and the fetched URLs are
    all the pages the crawl can come to: all the pages the links lead to
    from the seed, when no link of a page of the site raises. *)
Theorem mirror_exactly_once (E : Env) (seed output_dir s0 : string)
    (site : list string) (max_workers : nat) :
  1 <= max_workers ->
  Mirror._normalize E (base_url seed) = Some s0 ->
  is_Some (_url_to_path E output_dir s0) ->
  s0 ∈ site ->
  (forall u w, u ∈ site -> links_to E seed u w -> w ∈ site) ->
  (forall u w, w ∈ children E seed output_dir u -> links_to E seed u w) /\
  (forall u w,
     is_Some (_url_to_path E output_dir u) -> no_raise E u ->
     links_to E seed u w -> w ∈ children E seed output_dir u) /\
  forall s, rtc (step E seed output_dir) (init seed max_workers) s ->
    (forall v, v ∈ visited s <-> v ∈ working s \/ v ∈ fetched s) /\
    NoDup (working s ++ fetched s)%list /\
    (forall u, u ∈ fetched s -> reach E seed output_dir s0 u) /\
    (forall u, u ∈ fetched s -> linked E seed s0 u) /\
    (forall u, u ∈ fetched s ->
       (exists ctype body, respond E u = Answer 200 ctype body) ->
       exists p, _url_to_path E output_dir u = Some p /\
                 filter (fun e => fst e = u) (saves s) = [(u, p)]) /\
    (forall u, ~ (exists ctype body, respond E u = Answer 200 ctype body) ->
       u ∉ map fst (saves s)) /\
    (forall u, u ∈ map fst (saves s) -> u ∈ fetched s) /\
    downloaded s = length (saves s) /\
    (forall p c,
       files s !! p = Some c ->
       exists u, u ∈ fetched s /\ saved (process_url E seed output_dir u) = Some (p, c)) /\
    ((forall f q, save_ok E f q = true) ->
     (forall u1 u2 p, u1 ∈ site -> u2 ∈ site ->
        _url_to_path E output_dir u1 = Some p -> _url_to_path E output_dir u2 = Some p ->
        u1 = u2) ->
     forall u ctype body,
       u ∈ fetched s -> respond E u = Answer 200 ctype body ->
       exists p,
         _url_to_path E output_dir u = Some p /\
         files s !! p
         = Some (if contains "text/html" ctype
                 then (if snd (scan_links E seed output_dir u (soup_links E body))
                       then rewritten E u body else body)
                 else body)) /\
    (forall x, x ∈ queue s -> x = base_url seed \/ netloc_of E x = base_domain E seed) /\
    Acc (fun s2 s1 => step E seed output_dir s1 s2) s /\
    (exists s', rtc (step E seed output_dir) s s' /\ at_rest E seed output_dir s') /\
    (at_rest E seed output_dir s ->
     queue s = [] /\
     (forall u, reach E seed output_dir s0 u <-> u ∈ fetched s) /\
     ((forall u, u ∈ site -> no_raise E u) ->
      forall u, linked E seed s0 u <-> u ∈ fetched s)).
Proof.
  intros Hn Hseed Hpath Hs0 Hlinks.
  assert (Hclosed : forall u w, u ∈ site -> w ∈ children E seed output_dir u -> w ∈ site).
  { intros u w Hu Hw. apply (Hlinks u w Hu).
    apply (children_links E seed output_dir). exact Hw. }
  split; [intros u w; apply (children_links E seed output_dir)|].
  split; [intros u w; apply links_children|].
  intros s Hrun.
  pose proof (Inv_run E seed output_dir s0 Hseed Hpath max_workers s Hrun) as HI.
  split; [apply (inv_visited _ _ _ _ _ _ HI)|].
  split; [apply (inv_nodup _ _ _ _ _ _ HI)|].
  assert (Hfr : forall u, u ∈ fetched s -> reach E seed output_dir s0 u).
  { intros u Hu. apply (inv_reach _ _ _ _ _ _ HI), (inv_visited _ _ _ _ _ _ HI). auto. }
  split; [exact Hfr|].
  split; [intros u Hu; apply (reach_linked E seed output_dir s0), Hfr, Hu|].
  split; [intros u Hu H200; eapply saved_once; eassumption|].
  split; [intros u H200; eapply never_saved; eassumption|].
  split.
  { intros u. rewrite (inv_saves _ _ _ _ _ _ HI), list_elem_of_filter. tauto. }
  split; [apply (inv_count _ _ _ _ _ _ HI)|].
  split; [apply (inv_files _ _ _ _ _ _ HI)|].
  split.
  { intros Hok Hinj u ctype body Hu Hr.
    destruct (reach_path E seed output_dir s0 Hpath u (Hfr u Hu)) as [p Hp].
    exists p. split; [exact Hp|].
    eapply (files_complete E seed output_dir s0 Hseed Hpath max_workers site Hs0 Hclosed);
      try eassumption.
    apply saved_content; assumption. }
  split; [intros x Hx; eapply queue_confined; eassumption|].
  split; [eapply run_ends; eassumption|].
  split; [eapply comes_to_rest; eassumption|].
  intros Hrest. split; [eapply at_rest_empty; eassumption|].
  assert (Hall : forall u, reach E seed output_dir s0 u <-> u ∈ fetched s).
  { intros u. split; [eapply rest_complete; eassumption | apply Hfr]. }
  split; [exact Hall|].
  intros Hno u. rewrite <- Hall. split; [|apply (reach_linked E seed output_dir s0)].
  eapply linked_reach; eassumption.
Qed.

(** The sample site, two workers: the run by the schedule [next] is a run
    that has come to rest, and at rest its fetched URLs are the pages the
    seed leads to. *)
Lemma mirror_exactly_once_witness :
  let s := run_steps MirrorSample.env MirrorSample.seed MirrorSample.output_dir 40
             (init MirrorSample.seed 2) in
  1 <= 2 /\
  Mirror._normalize MirrorSample.env (base_url MirrorSample.seed) = Some "http://m" /\
  "http://m" ∈ MirrorSample.site /\
  rtc (step MirrorSample.env MirrorSample.seed MirrorSample.output_dir)
      (init MirrorSample.seed 2) s /\
  at_rest MirrorSample.env MirrorSample.seed MirrorSample.output_dir s /\
  NoDup (working s ++ fetched s)%list /\
  (forall u, reach MirrorSample.env MirrorSample.seed MirrorSample.output_dir "http://m" u
             <-> u ∈ fetched s).
Proof.
  cbv zeta.
  assert (Hrun := run_steps_rtc MirrorSample.env MirrorSample.seed MirrorSample.output_dir 40
                    (init MirrorSample.seed 2)).
  assert (Hrest : at_rest MirrorSample.env MirrorSample.seed MirrorSample.output_dir
                    (run_steps MirrorSample.env MirrorSample.seed MirrorSample.output_dir 40
                       (init MirrorSample.seed 2)))
    by (apply empty_at_rest; vm_compute; reflexivity).
  assert (Hn : 1 <= 2) by lia.
  assert (Hseed : Mirror._normalize MirrorSample.env (base_url MirrorSample.seed)
                  = Some "http://m") by (vm_compute; reflexivity).
  assert (Hpath : is_Some (_url_to_path MirrorSample.env MirrorSample.output_dir "http://m"))
    by (eexists; vm_compute; reflexivity).
  assert (Hs0 : "http://m" ∈ MirrorSample.site)
    by (apply (bool_decide_unpack _); vm_compute; reflexivity).
  assert (Hclosed : forall u w, u ∈ MirrorSample.site ->
            links_to MirrorSample.env MirrorSample.seed u w -> w ∈ MirrorSample.site).
  { assert (H : Forall (fun u =>
                  is_Some (_url_to_path MirrorSample.env MirrorSample.output_dir u) /\
                  scan_done MirrorSample.env MirrorSample.seed MirrorSample.output_dir u = true /\
                  Forall (fun w => w ∈ MirrorSample.site)
                    (children MirrorSample.env MirrorSample.seed MirrorSample.output_dir u))
                  MirrorSample.site)
      by (apply (bool_decide_unpack _); vm_compute; reflexivity).
    intros u w Hu Hw. rewrite Forall_forall in H. destruct (H u Hu) as (Hp & Hd & Hc).
    rewrite Forall_forall in Hc. apply Hc.
    apply links_children_done; assumption. }
  destruct (mirror_exactly_once MirrorSample.env MirrorSample.seed MirrorSample.output_dir
              "http://m" MirrorSample.site 2 Hn Hseed Hpath Hs0 Hclosed)
    as (_ & _ & Hall).
  destruct (Hall _ Hrun) as (_ & Hnd & _ & _ & _ & _ & _ & _ & _ & _ & _ & _ & _ & Hat).
  destruct (Hat Hrest) as (_ & Hreach & _).
  repeat (split; [assumption|]). exact Hreach.
Defined.

(** C5 as stated fails where two pages have one local path.  The home
    page of the sample links [/a] and [/a/index.html]: the three pages are
    requested once each and answer 200, [_save] is called three times and
    the counter says 3, but the mirror holds two files, and the file the
    two pages share holds the page saved last; the page [/a] is in no
    file. *)
Lemma twin_pages_share_a_file :
  let s := run_steps MirrorSample.twin_env MirrorSample.seed MirrorSample.output_dir 40
             (init MirrorSample.seed 2) in
  rtc (step MirrorSample.twin_env MirrorSample.seed MirrorSample.output_dir)
      (init MirrorSample.seed 2) s /\
  at_rest MirrorSample.twin_env MirrorSample.seed MirrorSample.output_dir s /\
  rev (fetched s) = ["http://m"; "http://m/a"; "http://m/a/index.html"] /\
  respond MirrorSample.twin_env "http://m/a" = Answer 200 "text/html" "A" /\
  respond MirrorSample.twin_env "http://m/a/index.html" = Answer 200 "text/html" "A-INDEX" /\
  _url_to_path MirrorSample.twin_env MirrorSample.output_dir "http://m/a"
  = Some "mirror/m/a/index.html" /\
  _url_to_path MirrorSample.twin_env MirrorSample.output_dir "http://m/a/index.html"
  = Some "mirror/m/a/index.html" /\
  downloaded s = 3 /\
  files s = {[ "mirror/m/index.html" := "HOME"; "mirror/m/a/index.html" := "A-INDEX" ]} /\
  (forall p, files s !! p <> Some "A").
Proof.
  cbv zeta. split; [apply run_steps_rtc|].
  split; [apply empty_at_rest; vm_compute; reflexivity|].
  assert (Hf : files (run_steps MirrorSample.twin_env MirrorSample.seed
                        MirrorSample.output_dir 40 (init MirrorSample.seed 2))
               = {[ "mirror/m/index.html" := "HOME"; "mirror/m/a/index.html" := "A-INDEX" ]})
    by (vm_compute; reflexivity).
  repeat (split; [vm_compute; reflexivity|]).
  intros p Hp. rewrite Hf in Hp.
  apply lookup_insert_Some in Hp as [[_ H]|[_ Hp]]; [discriminate|].
  apply lookup_singleton_Some in Hp as [_ H]. discriminate.
Qed.

(** The run of the sample by the schedule: the five pages are fetched and
    saved, once each, and neither of the two URLs of other hosts is
    requested. *)
Example mirror_sample_run :
  let s := run_steps MirrorSample.env MirrorSample.seed MirrorSample.output_dir 40
             (init MirrorSample.seed 2) in
  rev (fetched s)
  = ["http://m"; "http://m/a"; "http://m/b"; "http://m/a/c"; "http://m/d.html"] /\
  rev (saves s)
  = [("http://m", "mirror/m/index.html"); ("http://m/a", "mirror/m/a/index.html");
     ("http://m/b", "mirror/m/b/index.html"); ("http://m/a/c", "mirror/m/a/c/index.html");
     ("http://m/d.html", "mirror/m/d.html")] /\
  downloaded s = 5 /\ size (dom (files s)) = 5 /\
  queue s = [] /\ holding s = [] /\ working s = [] /\ idle s = 2 /\ dead s = 0.
Proof. cbv zeta. repeat split; vm_compute; reflexivity. Qed.

End MirrorFacts.

(** * Part III: further properties of the helpers and engines *)

(** ** File names *)

Module NamingFacts.
Import PyStr Regex Media.

Definition replace_unsafe (c : ascii) : ascii := if unsafe_char c then "_"%char else c.

Lemma replace_unsafe_safe (c : ascii) : unsafe_char (replace_unsafe c) = false.
Proof. unfold replace_unsafe. destruct (unsafe_char c) eqn:Eu; [reflexivity | exact Eu]. Qed.

Lemma take_str_length (n : nat) (s : string) :
  String.length (take_str n s) = Nat.min (String.length s) n.
Proof.
  revert s. induction n as [|n IH]; intros [|a r]; simpl; try reflexivity.
  rewrite IH. reflexivity.
Qed.

Lemma map_chars_length (f : ascii -> ascii) (s : string) :
  String.length (map_chars f s) = String.length s.
Proof. induction s as [|a r IH]; simpl; [reflexivity | rewrite IH; reflexivity]. Qed.

Lemma take_str_map_chars (f : ascii -> ascii) (n : nat) (s : string) :
  take_str n (map_chars f s) = map_chars f (take_str n s).
Proof.
  revert s. induction n as [|n IH]; intros [|a r]; simpl; try reflexivity.
  rewrite IH. reflexivity.
Qed.

Lemma take_str_take_str (m n : nat) (s : string) :
  m <= n -> take_str n (take_str m s) = take_str m s.
Proof.
  revert n s. induction m as [|m IH]; intros n s H.
  - destruct n, s; reflexivity.
  - destruct n as [|n]; [lia|]. destruct s as [|a r]; [reflexivity|].
    simpl. rewrite IH by lia. reflexivity.
Qed.

Lemma map_chars_fixed (f : ascii -> ascii) (s : string) :
  (forall c, f (f c) = f c) -> map_chars f (map_chars f s) = map_chars f s.
Proof.
  intros Hf. induction s as [|a r IH]; simpl; [reflexivity|]. rewrite Hf, IH. reflexivity.
Qed.

Lemma mem_all_by (p : ascii -> bool) (c : ascii) (s : string) :
  all_by p s = true -> p c = false -> mem c s = false.
Proof.
  intros Ha Hc. induction s as [|a r IH]; [reflexivity|]. simpl in *.
  apply andb_true_iff in Ha as [Hpa Hr]. rewrite (IH Hr), orb_false_r.
  destruct (eqc a c) eqn:Ee; [|reflexivity].
  apply PyStrFacts.eqc_true in Ee. congruence.
Qed.

Lemma all_by_take_str (p : ascii -> bool) (n : nat) (s : string) :
  all_by p s = true -> all_by p (take_str n s) = true.
Proof.
  revert s. induction n as [|n IH]; intros [|a r] H; simpl in *; try reflexivity.
  apply andb_true_iff in H as [Ha Hr]. rewrite Ha, (IH r Hr). reflexivity.
Qed.

Lemma all_safe_map_chars (s : string) :
  all_by (fun c => negb (unsafe_char c)) (map_chars replace_unsafe s) = true.
Proof.
  induction s as [|a r IH]; simpl; [reflexivity|].
  rewrite replace_unsafe_safe, IH. reflexivity.
Qed.

(** [safe_filename] gives a name of at most [maxlen] characters, as long as
    the given one when that is shorter, in which none of the characters
    [<>:/|?*], the double quote, the backslash, newline, carriage return
    and tab is left. *)
Theorem safe_filename_safe (name : string) (maxlen : nat) :
  String.length (safe_filename name maxlen) = Nat.min (String.length name) maxlen /\
  (forall c, unsafe_char c = true -> mem c (safe_filename name maxlen) = false).
Proof.
  unfold safe_filename. fold replace_unsafe. split.
  - rewrite take_str_length, map_chars_length. reflexivity.
  - intros c Hc. apply (mem_all_by (fun c => negb (unsafe_char c))).
    + apply all_by_take_str, all_safe_map_chars.
    + rewrite Hc. reflexivity.
Qed.

(** A name [safe_filename] has made is left as it is by [safe_filename]
    with the same or a larger bound, and so is every name that was short
    enough and safe. *)
Theorem safe_filename_fixed (name : string) (m n : nat) :
  m <= n ->
  safe_filename (safe_filename name m) n = safe_filename name m /\
  (String.length name <= m ->
   all_by (fun c => negb (unsafe_char c)) name = true ->
   safe_filename name m = name).
Proof.
  intros Hmn. unfold safe_filename. fold replace_unsafe. split.
  - rewrite !take_str_map_chars, take_str_take_str by exact Hmn.
    apply map_chars_fixed. intros c. unfold replace_unsafe at 1.
    rewrite replace_unsafe_safe. reflexivity.
  - intros Hlen Hsafe. clear Hmn n. revert m Hlen.
    induction name as [|a r IH]; intros m Hlen; [destruct m; reflexivity|].
    simpl in *. destruct m as [|m]; [lia|]. simpl.
    apply andb_true_iff in Hsafe as [Ha Hr].
    unfold replace_unsafe at 1. apply negb_true_iff in Ha. rewrite Ha.
    rewrite IH; [reflexivity | exact Hr | lia].
Qed.

Lemma safe_filename_fixed_witness :
  3 <= 5 /\
  safe_filename (safe_filename "a/b:c?d" 3) 5 = safe_filename "a/b:c?d" 3 /\
  safe_filename "a_b" 3 = "a_b".
Proof.
  split; [lia|].
  destruct (safe_filename_fixed "a/b:c?d" 3 5) as [H1 _]; [lia|].
  split; [exact H1|].
  destruct (safe_filename_fixed "a_b" 3 3) as [_ H2]; [lia|].
  apply H2; [simpl; lia | vm_compute; reflexivity].
Defined.

End NamingFacts.

(** ** The id of a unit *)

Module ThreadIdFacts.
Import PyStr Regex Backup.

(** A match hands on some rest of the text to its continuation. *)
Lemma match_re_cont {A : Type} (r : re) :
  forall (s : string) (cap : option string)
         (k : string -> option string -> option A) (x : A),
    match_re r s cap k = Some x -> exists s' cap', k s' cap' = Some x.
Proof.
  induction r as [|p|r1 IH1 r2 IH2|r1 IH1 r2 IH2|r1 IH1|r1 IH1]; intros s cap k x H.
  - simpl in H. eauto.
  - simpl in H. destruct s as [|a s']; [discriminate|].
    destruct (p a); [eauto | discriminate].
  - simpl in H. apply IH1 in H as (s1 & c1 & H). apply IH2 in H. exact H.
  - simpl in H. destruct (match_re r1 s cap k) eqn:E1.
    + injection H as ->. eapply IH1. exact E1.
    + eapply IH2. exact H.
  - simpl in H. revert H. generalize (String.length s). intros n. revert s cap.
    induction n as [|n IHn]; intros s cap H.
    + eauto.
    + match type of H with
      | match ?m with _ => _ end = _ => destruct m eqn:E1
      end.
      * injection H as ->. apply IH1 in E1 as (s1 & c1 & E1).
        destruct (Nat.ltb (String.length s1) (String.length s)); [|discriminate].
        eapply IHn. exact E1.
      * eauto.
  - simpl in H. apply IH1 in H as (s1 & c1 & H). eauto.
Qed.

(** The characters [r*] reads for a class [r] are all of the class. *)
Lemma star_class {A : Type} (p : ascii -> bool) :
  forall (s : string) (cap : option string)
         (k : string -> option string -> option A) (x : A),
    match_re (Star (Cls p)) s cap k = Some x ->
    exists w s', s = w ++ s' /\ all_by p w = true /\ k s' cap = Some x.
Proof.
  intros s cap k x H. simpl in H. revert H. generalize (String.length s). intros n.
  revert s. induction n as [|n IHn]; intros s H.
  - exists EmptyString, s. auto.
  - destruct s as [|a s1].
    + exists EmptyString, EmptyString. auto.
    + destruct (p a) eqn:Ep.
      * destruct (Nat.ltb (String.length s1) (String.length (String a s1))) eqn:El.
        -- match type of H with
           | match ?m with _ => _ end = _ => destruct m eqn:E1
           end.
           ++ injection H as ->. apply IHn in E1 as (w & s' & -> & Hw & Hk).
              exists (String a w), s'. simpl. rewrite Ep, Hw. auto.
           ++ exists EmptyString, (String a s1). auto.
        -- exists EmptyString, (String a s1). auto.
      * exists EmptyString, (String a s1). auto.
Qed.

Lemma take_str_app (w s : string) :
  take_str (String.length (w ++ s) - String.length s) (w ++ s) = w.
Proof.
  rewrite PyStrFacts.app_length_str.
  replace (String.length w + String.length s - String.length s) with (String.length w) by lia.
  induction w as [|a w IH]; simpl; [destruct s; reflexivity|]. rewrite IH. reflexivity.
Qed.

(** Group 1 of a match of [(\d+)] is one digit or more. *)
Lemma group_digits {A : Type} (s : string) (cap : option string)
    (k : string -> option string -> option A) (x : A) :
  match_re (Grp (Plus Digit)) s cap k = Some x ->
  exists g s', g <> EmptyString /\ all_by is_digit g = true /\ k s' (Some g) = Some x.
Proof.
  intros H. change (match_re (Grp (Plus Digit)) s cap k)
    with (match_re (Cls is_digit) s cap
            (fun s1 c1 => match_re (Star (Cls is_digit)) s1 c1
               (fun s' _ => k s' (Some (take_str (String.length s - String.length s') s)))))
    in H.
  simpl match_re at 1 in H. destruct s as [|a s1]; [discriminate|].
  destruct (is_digit a) eqn:Ea; [|discriminate].
  apply star_class in H as (w & s' & -> & Hw & Hk).
  exists (String a w), s'. split; [discriminate|]. split; [simpl; rewrite Ea, Hw; reflexivity|].
  rewrite <- Hk. f_equal. f_equal.
  change (String a (w ++ s')) with (String a w ++ s'). symmetry. apply take_str_app.
Qed.

Lemma search_match (r : re) (s : string) (cap : option string) :
  search r s = Some cap -> exists s1 rest, match_here r s1 = Some (rest, cap).
Proof.
  induction s as [|a s IH]; simpl.
  - destruct (match_here r EmptyString) as [[rest c]|] eqn:E; [|discriminate].
    intros [= <-]. eauto.
  - destruct (match_here r (String a s)) as [[rest c]|] eqn:E.
    + intros [= <-]. eauto.
    + exact IH.
Qed.

(** A pattern that ends with the group [(\d+)]. *)
Inductive ends_with_digits : re -> Prop :=
| ends_group : ends_with_digits (Grp (Plus Digit))
| ends_seq (r1 r2 : re) : ends_with_digits r2 -> ends_with_digits (Seq r1 r2).

Lemma ends_with_digits_match (r : re) :
  ends_with_digits r ->
  forall s cap rest g,
    match_re r s cap (fun rest cap => Some (rest, cap)) = Some (rest, Some g) ->
    g <> EmptyString /\ all_by is_digit g = true.
Proof.
  induction 1 as [|r1 r2 _ IH]; intros s cap rest g H.
  - apply group_digits in H as (g' & s' & Hne & Hd & Hk). injection Hk as _ <-. auto.
  - simpl in H. apply match_re_cont in H as (s1 & c1 & H). eapply IH. exact H.
Qed.

Lemma search_group_digits (r : re) (s g : string) :
  ends_with_digits r -> search_group r s = Some g ->
  g <> EmptyString /\ all_by is_digit g = true.
Proof.
  intros Hr. unfold search_group. destruct (search r s) as [[g'|]|] eqn:Es; try discriminate.
  intros [= ->]. apply search_match in Es as (s1 & rest & Hm).
  eapply ends_with_digits_match; [exact Hr | exact Hm].
Qed.

Lemma extract_thread_id_some (url tid : string) :
  extract_thread_id url = Some tid ->
  tid <> EmptyString /\ all_by is_digit tid = true.
Proof.
  unfold extract_thread_id.
  assert (Hps : Forall ends_with_digits thread_id_patterns)
    by (unfold thread_id_patterns; repeat constructor).
  induction Hps as [|p ps Hp _ IH]; [discriminate|].
  destruct (search_group p url) as [g|] eqn:Eg; [|exact IH].
  intros [= <-]. eapply search_group_digits; [exact Hp | exact Eg].
Qed.

(** [extract_thread_id] gives [None] or a text of one decimal digit or
    more, whatever the URL. *)
Theorem extract_thread_id_digits (url tid : string) :
  extract_thread_id url = Some tid ->
  tid <> EmptyString /\ all_by is_digit tid = true.
Proof. apply extract_thread_id_some. Qed.

Lemma extract_thread_id_digits_witness :
  extract_thread_id "http://f/showthread.php?s=9&t=1234#post5" = Some "1234" /\
  "1234" <> EmptyString /\ all_by is_digit "1234" = true.
Proof.
  assert (H : extract_thread_id "http://f/showthread.php?s=9&t=1234#post5" = Some "1234")
    by (vm_compute; reflexivity).
  split; [exact H|]. exact (extract_thread_id_digits _ _ H).
Defined.

End ThreadIdFacts.

(** ** The units of a discovery and their files *)

Module UnitFacts.
Import PyStr Regex Backup.

(** What holds of every unit of a discovery: its id is the id
    [extract_thread_id] reads off its URL. *)
Definition id_of_url (t : Thread) : Prop := extract_thread_id (t_url t) = Some (t_id t).

Section units.
Variable E : Env.
Variable base_url : string.
Variable start_page : nat.
Variable order : list (list Thread) -> list (list Thread).

Lemma links_of_pattern_ids (anchors : list (string * string)) (pat : string)
    (l : list Thread) :
  links_of_pattern E base_url anchors pat = Some l -> Forall id_of_url l.
Proof.
  unfold links_of_pattern. intros H. apply fmap_Some in H as (l' & Hm & ->).
  apply mapM_Some in Hm. apply Forall_forall. intros t Ht.
  apply list_elem_of_omap in Ht as (o & Ho & Hid). subst o.
  induction Hm as [|a o xs ys Hf _ IH]; [apply not_elem_of_nil in Ho; contradiction|].
  apply elem_of_cons in Ho as [Ho|Ho]; [|apply IH, Ho]. subst o.
  apply bind_Some in Hf as (full_url & _ & Hf). injection Hf as Hf.
  destruct (extract_thread_id full_url) as [tid|] eqn:Et; [|discriminate].
  injection Hf as <-. exact Et.
Qed.

Lemma unique_by_id_Forall (P : Thread -> Prop) (seen : gset string) (ts : list Thread) :
  Forall P ts -> Forall P (unique_by_id seen ts).
Proof.
  intros H. apply Forall_forall. intros t Ht.
  apply DiscoveryFacts.unique_by_id_fresh in Ht as [_ Ht].
  rewrite Forall_forall in H. apply H, Ht.
Qed.

Lemma extract_thread_links_ids (html : string) (l : list Thread) :
  extract_thread_links E base_url html = Some l -> Forall id_of_url l.
Proof.
  unfold extract_thread_links. intros H.
  apply bind_Some in H as (l1 & H1 & H). apply bind_Some in H as (l2 & H2 & H).
  apply bind_Some in H as (l3 & H3 & H). injection H as <-.
  apply unique_by_id_Forall. rewrite !Forall_app.
  split; [|split]; eapply links_of_pattern_ids; eassumption.
Qed.

Lemma process_page_ids (u : string) (st : State) :
  Forall id_of_url (fst (process_page E base_url u st)).
Proof.
  unfold process_page. destruct (poll st) as [stop st1]. destruct stop; [constructor|].
  unfold get_page. destruct (http_get E u) as [[|a r]|]; try constructor.
  simpl. destruct (extract_thread_links E base_url (String a r)) as [l|] eqn:El;
    [|constructor].
  eapply extract_thread_links_ids. exact El.
Qed.

Lemma process_pages_ids (pages : list string) (st : State) :
  Forall (Forall id_of_url) (fst (process_pages E base_url pages st)).
Proof.
  revert st. induction pages as [|p rest IH]; intros st; simpl; [constructor|].
  pose proof (process_page_ids p st) as Hp.
  destruct (process_page E base_url p st) as [ts st1].
  pose proof (IH st1) as Hr. destruct (process_pages E base_url rest st1) as [tss st2].
  simpl in *. constructor; assumption.
Qed.

Lemma collect_ids (results : list (list Thread)) (st : State) :
  Forall (Forall id_of_url) results -> Forall id_of_url (fst (collect results st)).
Proof.
  intros H. revert st. induction H as [|ts rest Hts _ IH]; intros st; simpl; [constructor|].
  destruct (poll st) as [stop st1]. destruct stop; [constructor|].
  pose proof (IH st1) as Hr. destruct (collect rest st1) as [more st2]. simpl in *.
  apply Forall_app. split; assumption.
Qed.

Hypothesis completion_perm : forall l, Permutation l (order l).

Lemma discover_ids (st : State) :
  Forall id_of_url (fst (discover_all_threads E base_url start_page order st)).
Proof.
  unfold discover_all_threads, gather_threads.
  destruct (get_all_pages_urls E start_page base_url st) as [pages st1].
  pose proof (process_pages_ids pages st1) as Hp.
  destruct (process_pages E base_url pages st1) as [results st2]. simpl in Hp.
  rewrite (completion_perm results) in Hp.
  pose proof (collect_ids _ st2 Hp) as Hc.
  destruct (collect (order results) st2) as [all st3]. simpl in *.
  apply unique_by_id_Forall. exact Hc.
Qed.

End units.

Lemma digits_then_underscore (d1 d2 r1 r2 : string) :
  all_by is_digit d1 = true -> all_by is_digit d2 = true ->
  d1 ++ String "_" r1 = d2 ++ String "_" r2 -> d1 = d2 /\ r1 = r2.
Proof.
  revert d2. induction d1 as [|a d1 IH]; intros [|b d2] H1 H2 H; simpl in *.
  - injection H as ->. auto.
  - injection H as <- _. discriminate.
  - injection H as -> _. discriminate.
  - injection H as <- H. apply andb_true_iff in H1 as [_ H1]. apply andb_true_iff in H2 as [_ H2].
    destruct (IH d2 H1 H2 H) as [-> ->]. auto.
Qed.

Lemma NoDup_map_inj {A B : Type} (f : A -> B) (l : list A) (x y : A) :
  NoDup (map f l) -> x ∈ l -> y ∈ l -> f x = f y -> x = y.
Proof.
  induction l as [|a l IH]; simpl; intros Hnd Hx Hy Hf.
  - apply not_elem_of_nil in Hx. contradiction.
  - apply NoDup_cons in Hnd as [Ha Hnd].
    apply elem_of_cons in Hx as [->|Hx]; apply elem_of_cons in Hy as [->|Hy];
      try reflexivity; try (apply IH; assumption); exfalso; apply Ha.
    + rewrite Hf. apply list_elem_of_fmap. exists y. auto.
    + rewrite <- Hf. apply list_elem_of_fmap. exists x. auto.
Qed.

(** Every unit a discovery returns carries the id that [extract_thread_id]
    reads off its URL, a text of one digit or more. *)
Theorem discovered_unit_ids (E : Env) (base_url : string) (start_page : nat)
    (order : list (list Thread) -> list (list Thread)) (st : State) (t : Thread) :
  (forall l, Permutation l (order l)) ->
  t ∈ fst (discover_all_threads E base_url start_page order st) ->
  extract_thread_id (t_url t) = Some (t_id t) /\
  t_id t <> EmptyString /\ all_by is_digit (t_id t) = true.
Proof.
  intros Hperm Ht.
  pose proof (discover_ids E base_url start_page order Hperm st) as H.
  rewrite Forall_forall in H. specialize (H t Ht).
  split; [exact H|]. eapply ThreadIdFacts.extract_thread_id_some. exact H.
Qed.

Lemma discovered_unit_ids_witness :
  (forall l, Permutation l (ForumSample.in_order l)) /\
  ForumSample.unit3 ∈ fst (discover_all_threads ForumSample.env ForumSample.base_url 1 ForumSample.in_order
                             (ForumSample.fresh None)) /\
  extract_thread_id (t_url ForumSample.unit3) = Some "3".
Proof.
  assert (Hperm : forall l, Permutation l (ForumSample.in_order l))
    by (intros l; apply Permutation_refl).
  assert (Hin : ForumSample.unit3 ∈ fst (discover_all_threads ForumSample.env
                  ForumSample.base_url 1 ForumSample.in_order (ForumSample.fresh None)))
    by (apply list_elem_of_In; vm_compute; auto).
  split; [exact Hperm|]. split; [exact Hin|].
  exact (proj1 (discovered_unit_ids _ _ _ _ _ _ Hperm Hin)).
Defined.

(** No two pages of a discovery share a file: the page files of two units
    of one discovery, or of two pages of a unit, have different names. *)
Theorem page_files_distinct (E : Env) (base_url : string) (start_page : nat)
    (order : list (list Thread) -> list (list Thread)) (st : State) (t1 t2 : Thread) (m n : nat) :
  (forall l, Permutation l (order l)) ->
  t1 ∈ fst (discover_all_threads E base_url start_page order st) ->
  t2 ∈ fst (discover_all_threads E base_url start_page order st) ->
  page_file t1 m = page_file t2 n -> t1 = t2 /\ m = n.
Proof.
  intros Hperm H1 H2 Hf.
  pose proof (discover_ids E base_url start_page order Hperm st) as H.
  rewrite Forall_forall in H.
  destruct (ThreadIdFacts.extract_thread_id_some _ _ (H t1 H1)) as [_ Hd1].
  destruct (ThreadIdFacts.extract_thread_id_some _ _ (H t2 H2)) as [_ Hd2].
  assert (Hid : t_id t1 = t_id t2).
  { unfold page_file in Hf. apply PyStrFacts.app_inv_head_str in Hf.
    apply (digits_then_underscore _ _ _ _ Hd1 Hd2) in Hf. tauto. }
  assert (Heq : t1 = t2).
  { eapply (NoDup_map_inj t_id); [|exact H1|exact H2|exact Hid].
    unfold discover_all_threads.
    destruct (gather_threads E base_url start_page order st) as [all st1]. simpl.
    apply DiscoveryFacts.unique_by_id_NoDup. }
  split; [exact Heq|]. subst t2. eapply DownloadFacts.page_file_inj. exact Hf.
Qed.

Lemma page_files_distinct_witness :
  (forall l, Permutation l (ForumSample.in_order l)) /\
  ForumSample.unit1 ∈ fst (discover_all_threads ForumSample.env ForumSample.base_url 1 ForumSample.in_order
                             (ForumSample.fresh None)) /\
  ForumSample.unit2 ∈ fst (discover_all_threads ForumSample.env ForumSample.base_url 1 ForumSample.in_order
                             (ForumSample.fresh None)) /\
  page_file ForumSample.unit1 2 <> page_file ForumSample.unit2 2.
Proof.
  assert (Hperm : forall l, Permutation l (ForumSample.in_order l))
    by (intros l; apply Permutation_refl).
  assert (H1 : ForumSample.unit1 ∈ fst (discover_all_threads ForumSample.env
                 ForumSample.base_url 1 ForumSample.in_order (ForumSample.fresh None)))
    by (apply list_elem_of_In; vm_compute; auto).
  assert (H2 : ForumSample.unit2 ∈ fst (discover_all_threads ForumSample.env
                 ForumSample.base_url 1 ForumSample.in_order (ForumSample.fresh None)))
    by (apply list_elem_of_In; vm_compute; auto).
  split; [exact Hperm|]. split; [exact H1|]. split; [exact H2|].
  intros Hf. destruct (page_files_distinct _ _ _ _ _ _ _ _ _ Hperm H1 H2 Hf) as [Heq _].
  discriminate Heq.
Defined.

End UnitFacts.

(** ** The media store: what a harvest leaves *)

Module MediaStoreFacts.
Import PyStr OsPath Cancel Media MediaFacts.

(** The body of a response read to its end. *)
Definition body_of (chunks : list string) : string := fold_right append EmptyString chunks.

Lemma app_empty_r (s : string) : s ++ EmptyString = s.
Proof.
  induction s as [|a r IH]; [reflexivity|].
  change (String a r ++ EmptyString) with (String a (r ++ EmptyString)). rewrite IH. reflexivity.
Qed.

Lemma read_chunks_body (chunks : list string) (acc : string) (fl fl' : Flag) (data : string) :
  read_chunks chunks acc fl = (Some data, fl') -> data = acc ++ body_of chunks.
Proof.
  revert acc fl. induction chunks as [|c rest IH]; intros acc fl; simpl.
  - intros [= <- _]. symmetry. apply app_empty_r.
  - destruct (is_set fl) as [stop fl1]. destruct stop; [discriminate|].
    intros H. apply IH in H. rewrite H. apply app_assoc_str.
Qed.

Lemma _fetch_bytes_body (E : Env) (url : string) (fl fl' : Flag) (st st' : State)
    (data : string) :
  _fetch_bytes E url fl st = (Some data, fl', st') ->
  exists chunks, media_get E url = Some chunks /\ data = body_of chunks.
Proof.
  unfold _fetch_bytes. destruct (media_get E url) as [chunks|]; [|discriminate].
  destruct (read_chunks chunks EmptyString fl) as [d f] eqn:Er.
  intros [= -> _ _]. exists chunks. split; [reflexivity|].
  apply read_chunks_body in Er. exact Er.
Qed.

Lemma numbered_nonempty (fname : string) (n : nat) : numbered fname n <> EmptyString.
Proof.
  unfold numbered. destruct (splitext fname) as [b e]. intros H.
  apply (f_equal String.length) in H. rewrite !PyStrFacts.app_length_str in H.
  simpl in H. lia.
Qed.

Lemma endswith_length (suffix s : string) :
  endswith suffix s = true -> String.length suffix <= String.length s.
Proof. unfold endswith. intros H. apply andb_true_iff in H as [H _]. apply Nat.leb_le, H. Qed.

Lemma lower_length (s : string) : String.length (lower s) = String.length s.
Proof. induction s as [|a r IH]; simpl; [reflexivity | rewrite IH; reflexivity]. Qed.

Lemma first_name_nonempty (E : Env) (url : string) : first_name E url <> EmptyString.
Proof.
  unfold first_name.
  set (ext := match default EmptyString (get_ext E url) with
              | EmptyString => ".bin" | e => e end).
  assert (Hext : 1 <= String.length ext).
  { subst ext. destruct (default EmptyString (get_ext E url)); simpl; lia. }
  set (fname := safe_filename _ 120). clearbody ext fname.
  destruct (endswith ext (lower fname)) eqn:Ee; intros H.
  - apply endswith_length in Ee. rewrite lower_length in Ee. subst fname. simpl in Ee. lia.
  - apply (f_equal String.length) in H. rewrite PyStrFacts.app_length_str in H.
    simpl in H. lia.
Qed.

Section store.
Variable E : Env.

(** What the index says of the URLs it gained since [st0]: the name it
    gives is that of a file holding the body that was served. *)
Definition holds_bodies (st0 st : State) : Prop :=
  forall u f,
    index st0 !! u = None -> index st !! u = Some f ->
    f <> EmptyString /\
    exists chunks, media_get E u = Some chunks /\ media_files st !! f = Some (body_of chunks).

Lemma harvest_loop_bodies (st0 : State) (urls : list string) :
  forall d fl st d' fl' st',
    (forall u, is_Some (index st0 !! u) -> is_Some (index st !! u)) ->
    holds_bodies st0 st ->
    harvest_loop E urls d fl st = (d', fl', st') -> holds_bodies st0 st'.
Proof.
  induction urls as [|url rest IH]; intros d fl st d' fl' st' Hmono HQ H; simpl in H.
  - injection H as _ _ <-. exact HQ.
  - destruct (is_set fl) as [stop fl1]. destruct stop; [injection H as _ _ <-; exact HQ|].
    destruct (bool_decide (is_Some (index st !! url))) eqn:Hix; [eapply IH; eassumption|].
    apply bool_decide_eq_false in Hix. apply eq_None_not_Some in Hix.
    destruct (_fetch_bytes E url fl1 st) as [[data fl2] st1] eqn:Ef.
    pose proof (_fetch_bytes_logged E _ _ _ _ _ _ Ef) as Hl. subst st1.
    destruct data as [bytes|]; [|eapply IH; [| |exact H]; assumption].
    destruct (free_name _ _ _ _ _) as [fpath|] eqn:En; [|eapply IH; [| |exact H]; assumption].
    unfold save_media in H.
    destruct (can_write E fpath); [|eapply IH; [| |exact H]; assumption].
    apply free_name_spec in En as [Hfree Hren].
    apply path_exists_false_files in Hfree. simpl in Hfree.
    apply _fetch_bytes_body in Ef as (chunks & Hget & ->).
    eapply IH; [| |exact H].
    + intros u Hu. simpl. destruct (decide (u = url)) as [->|Hne].
      * rewrite lookup_insert_eq. eauto.
      * rewrite lookup_insert_ne by congruence. apply Hmono, Hu.
    + intros u f H0 Hf. simpl in Hf. simpl. destruct (decide (u = url)) as [->|Hne].
      * rewrite lookup_insert_eq in Hf. injection Hf as <-. split.
        -- destruct Hren as [->|(k & _ & ->)];
             [apply first_name_nonempty | apply numbered_nonempty].
        -- exists chunks. split; [exact Hget | apply lookup_insert_eq].
      * rewrite lookup_insert_ne in Hf by congruence.
        destruct (HQ u f H0 Hf) as (Hne' & chunks' & Hg' & Hc').
        split; [exact Hne'|]. exists chunks'. split; [exact Hg'|].
        rewrite lookup_insert_ne; [exact Hc' | congruence].
Qed.

Lemma harvest_loop_sizes (urls : list string) :
  forall d fl st d' fl' st',
    harvest_loop E urls d fl st = (d', fl', st') ->
    size (index st') + d = size (index st) + d' /\
    size (media_files st') + d = size (media_files st) + d'.
Proof.
  induction urls as [|url rest IH]; intros d fl st d' fl' st' H; simpl in H.
  - injection H as <- _ <-. lia.
  - destruct (is_set fl) as [stop fl1]. destruct stop; [injection H as <- _ <-; lia|].
    destruct (bool_decide (is_Some (index st !! url))) eqn:Hix; [eapply IH; eassumption|].
    apply bool_decide_eq_false in Hix. apply eq_None_not_Some in Hix.
    destruct (_fetch_bytes E url fl1 st) as [[data fl2] st1] eqn:Ef.
    pose proof (_fetch_bytes_logged E _ _ _ _ _ _ Ef) as Hl. subst st1.
    destruct data as [bytes|]; [|apply IH in H; exact H].
    destruct (free_name _ _ _ _ _) as [fpath|] eqn:En; [|apply IH in H; exact H].
    unfold save_media in H. destruct (can_write E fpath); [|apply IH in H; exact H].
    apply free_name_spec in En as [Hfree _].
    apply path_exists_false_files in Hfree. simpl in Hfree.
    apply IH in H. simpl in H.
    rewrite !map_size_insert_None in H by assumption. lia.
Qed.

End store.



(** A URL a harvest has added to the index is found by [get_local_path],
    and the file it names holds the body the site served for the URL. *)
Theorem stored_media_found (E : Env) (html base : string) (fl fl' : Flag)
    (st st' : State) (r : option nat) (u f : string) :
  download_from_html E html base fl st = (r, fl', st') ->
  index st !! u = None -> index st' !! u = Some f ->
  get_local_name st' u = Some f /\
  exists chunks, media_get E u = Some chunks /\ media_files st' !! f = Some (body_of chunks).
Proof.
  unfold download_from_html. destruct (media_urls E html base) as [urls|].
  - destruct (harvest_loop E urls 0 fl st) as [[k fl1] st1] eqn:El.
    intros [= _ _ <-] H0 Hf. simpl in Hf.
    apply (harvest_loop_bodies E st) in El; [|auto|intros u' f' H1 H2; congruence].
    destruct (El u f H0 Hf) as (Hne & Hbody). split; [|exact Hbody].
    unfold get_local_name. simpl. rewrite Hf. destruct f; [contradiction | reflexivity].
  - intros [= _ _ <-] H0 Hf. congruence.
Qed.

Lemma stored_media_found_witness :
  get_local_name MediaSample.st1 MediaSample.url_a = Some "a_1.png" /\
  exists chunks, media_get MediaSample.env MediaSample.url_a = Some chunks /\
                 media_files MediaSample.st1 !! "a_1.png" = Some (body_of chunks).
Proof.
  apply (stored_media_found _ _ _ _ _ _ _ _ _ _ sample_first); vm_compute; reflexivity.
Defined.


(** *** What a harvest requests *)

Lemma harvest_loop_fetched (E : Env) (urls : list string) :
  forall d fl st d' fl' st' u,
    harvest_loop E urls d fl st = (d', fl', st') ->
    u ∈ fetched st' -> u ∈ fetched st \/ u ∈ urls.
Proof.
  induction urls as [|url rest IH]; intros d fl st d' fl' st' u H Hu; simpl in H.
  - injection H as _ _ <-. auto.
  - destruct (is_set fl) as [stop fl1]. destruct stop; [injection H as _ _ <-; auto|].
    destruct (bool_decide (is_Some (index st !! url))).
    { destruct (IH _ _ _ _ _ _ _ H Hu); [auto | right; right; assumption]. }
    destruct (_fetch_bytes E url fl1 st) as [[data fl2] st1] eqn:Ef.
    pose proof (_fetch_bytes_logged E _ _ _ _ _ _ Ef) as Hl. subst st1.
    assert (Hstep : forall st2, fetched st2 = url :: fetched st ->
              u ∈ fetched st2 \/ u ∈ rest -> u ∈ fetched st \/ u ∈ url :: rest).
    { intros st2 Hf [Hin|Hin]; [|right; right; exact Hin].
      rewrite Hf in Hin. apply elem_of_cons in Hin as [->|Hin]; [right; left | auto]. }
    destruct data as [bytes|].
    + unfold save_media in H.
      destruct (free_name _ _ _ _ _) as [fpath|]; [destruct (can_write E fpath)| ];
        eapply Hstep; try (eapply IH; eassumption); reflexivity.
    + eapply Hstep; [|eapply IH; eassumption]. reflexivity.
Qed.

Lemma media_urls_kind (E : Env) (html base : string) (urls : list string) (u : string) :
  media_urls E html base = Some urls -> u ∈ urls ->
  exists ext sch,
    get_ext E u = Some ext /\ str_in ext MEDIA_EXTS = true /\
    url_scheme E u = Some sch /\ (sch = "http" \/ sch = "https").
Proof.
  unfold media_urls. intros H Hu.
  apply bind_Some in H as (cands & _ & H). apply bind_Some in H as (marked & Hm & H).
  injection H as <-.
  apply list_elem_of_fmap in Hu as ([u' b] & -> & Hu). simpl.
  apply list_elem_of_filter in Hu as [Hb Hu]. simpl in Hb. subst b.
  apply mapM_Some in Hm.
  induction Hm as [|x p xs ps Hf _ IH]; [apply not_elem_of_nil in Hu; contradiction|].
  apply elem_of_cons in Hu as [Hu|Hu]; [|apply IH, Hu]. subst p.
  apply bind_Some in Hf as (ext & He & Hf). apply bind_Some in Hf as (sch & Hs & Hf).
  assert (Hx : x = u') by congruence.
  assert (Hb : str_in ext MEDIA_EXTS && str_in sch ["http"; "https"] = true) by congruence.
  subst x. apply andb_true_iff in Hb as [Hext Hsch].
  exists ext, sch. split; [exact He|]. split; [exact Hext|]. split; [exact Hs|].
  unfold str_in in Hsch. simpl in Hsch. rewrite orb_false_r in Hsch.
  apply orb_true_iff in Hsch as [H1|H1]; apply String.eqb_eq in H1; auto.
Qed.

(** A harvest requests only URLs of the scheme [http] or [https] whose
    path ends with one of the media extensions. *)
Theorem harvest_requests_media_only (E : Env) (html base : string) (fl fl' : Flag)
    (st st' : State) (r : option nat) (u : string) :
  download_from_html E html base fl st = (r, fl', st') ->
  u ∈ fetched st' -> u ∉ fetched st ->
  exists ext sch,
    get_ext E u = Some ext /\ str_in ext MEDIA_EXTS = true /\
    url_scheme E u = Some sch /\ (sch = "http" \/ sch = "https").
Proof.
  unfold download_from_html. destruct (media_urls E html base) as [urls|] eqn:Eu.
  - destruct (harvest_loop E urls 0 fl st) as [[k fl1] st1] eqn:El.
    intros [= _ _ <-] Hu Hnew. simpl in Hu.
    destruct (harvest_loop_fetched E urls _ _ _ _ _ _ u El Hu) as [Hold|Hin];
      [contradiction|].
    eapply media_urls_kind; eassumption.
  - intros [= _ _ <-] Hu Hnew. contradiction.
Qed.

Lemma harvest_requests_media_only_witness :
  exists ext sch,
    get_ext MediaSample.env MediaSample.url_b = Some ext /\
    str_in ext MEDIA_EXTS = true /\
    url_scheme MediaSample.env MediaSample.url_b = Some sch /\
    (sch = "http" \/ sch = "https").
Proof.
  apply (harvest_requests_media_only _ _ _ _ _ _ _ _ _ sample_first).
  - apply list_elem_of_In. vm_compute. auto.
  - intros H. apply list_elem_of_In in H. vm_compute in H. exact H.
Defined.

End MediaStoreFacts.

(** ** The media store: two harvests *)

Module HarvestFacts.
Import PyStr OsPath Cancel Media MediaFacts MediaStoreFacts.

(** An index entry is added only for a URL whose body was read to its end
    and written. *)
Lemma download_from_html_bodies (E : Env) (html base : string) (fl fl' : Flag)
    (st st' : State) (r : option nat) (u f : string) :
  download_from_html E html base fl st = (r, fl', st') ->
  index st !! u = None -> index st' !! u = Some f ->
  exists chunks, media_get E u = Some chunks /\ media_files st' !! f = Some (body_of chunks).
Proof.
  unfold download_from_html. destruct (media_urls E html base) as [urls|].
  - destruct (harvest_loop E urls 0 fl st) as [[k fl1] st1] eqn:El.
    intros [= _ _ <-] H0 Hf. simpl in Hf.
    apply (harvest_loop_bodies E st) in El; [|auto|intros u' f' H1 H2; congruence].
    destruct (El u f H0 Hf) as (_ & Hbody). exact Hbody.
  - intros [= _ _ <-] H0 Hf. congruence.
Qed.

(** A loop that is not cancelled requests each of its URLs that the index
    does not hold, once. *)
Lemma harvest_loop_requests (E : Env) (urls : list string) :
  NoDup urls ->
  forall d st d' fl' st' u,
    harvest_loop E urls d None st = (d', fl', st') ->
    u ∈ urls -> index st !! u = None ->
    cnt u (fetched st') = S (cnt u (fetched st)).
Proof.
  induction 1 as [|url rest Hnin Hnd IH]; intros d st d' fl' st' u H Hu Hi.
  - apply not_elem_of_nil in Hu. contradiction.
  - cbn [harvest_loop is_set] in H.
    destruct (decide (u = url)) as [->|Hne].
    + rewrite bool_decide_eq_false_2 in H by (rewrite Hi; intros [x Hx]; discriminate).
      destruct (_fetch_bytes E url None st) as [[data fl2] st1] eqn:Ef.
      apply _fetch_bytes_logged in Ef. subst st1.
      assert (Hrest : forall d1 mid,
                fetched mid = url :: fetched st ->
                harvest_loop E rest d1 fl2 mid = (d', fl', st') ->
                cnt url (fetched st') = S (cnt url (fetched st))).
      { intros d1 mid Hm Hrun.
        apply harvest_loop_Harvested in Hrun; [|exact Hnd].
        destruct (hv_other _ _ _ _ Hrun url Hnin) as [_ Hc].
        rewrite Hc, Hm. apply cnt_cons_eq. }
      destruct data as [bytes|]; [|eapply Hrest; [|exact H]; reflexivity].
      unfold save_media in H.
      destruct (free_name _ _ _ _ _) as [fpath|]; [destruct (can_write E fpath)| ];
        eapply Hrest; try exact H; reflexivity.
    + apply elem_of_cons in Hu as [Hu|Hu]; [contradiction|].
      destruct (bool_decide (is_Some (index st !! url))); [eapply IH; eassumption|].
      pose proof (_fetch_bytes_None E url st) as Hfl.
      destruct (_fetch_bytes E url None st) as [[data fl2] st1] eqn:Ef.
      simpl in Hfl. subst fl2.
      apply _fetch_bytes_logged in Ef. subst st1.
      assert (Hrest : forall d1 mid,
                fetched mid = url :: fetched st -> index mid !! u = None ->
                harvest_loop E rest d1 None mid = (d', fl', st') ->
                cnt u (fetched st') = S (cnt u (fetched st))).
      { intros d1 mid Hm Him Hrun.
        rewrite (IH _ _ _ _ _ _ Hrun Hu Him), Hm, cnt_cons_ne by congruence. reflexivity. }
      destruct data as [bytes|]; [|eapply Hrest; [| |exact H]; [reflexivity | exact Hi]].
      destruct (free_name _ _ _ _ _) as [fpath|];
        [|eapply Hrest; [| |exact H]; [reflexivity | exact Hi]].
      unfold save_media in H.
      destruct (can_write E fpath); [|eapply Hrest; [| |exact H]; [reflexivity | exact Hi]].
      eapply Hrest; [| |exact H]; [reflexivity|].
      simpl. rewrite lookup_insert_ne by congruence. exact Hi.
Qed.

(** A read is cut when the flag is found set before one of the chunks. *)
Lemma read_chunks_cut (chunks : list string) :
  forall (acc : string) (fl : Flag),
    fst (read_chunks chunks acc fl) = None <-> exists n, fl = Some n /\ n < length chunks.
Proof.
  induction chunks as [|c rest IH]; intros acc fl.
  - simpl. split; [discriminate|]. intros (n & _ & Hn). lia.
  - cbn [read_chunks]. destruct fl as [[|m]|]; cbn [is_set].
    + split; [intros _; exists 0; split; [reflexivity | simpl; lia] | reflexivity].
    + rewrite IH. split.
      * intros (n & Hn & Hlt). injection Hn as <-. exists (S m). split; [reflexivity|].
        simpl. lia.
      * intros (n & Hn & Hlt). injection Hn as <-. exists m. split; [reflexivity|].
        simpl in Hlt. lia.
    + rewrite IH. split; intros (n & Hn & _); discriminate.
Qed.

(** A request brings nothing when it fails or its read is cut. *)
Lemma _fetch_bytes_nothing (E : Env) (url : string) (fl : Flag) (st : State) :
  fst (fst (_fetch_bytes E url fl st)) = None <->
  media_get E url = None \/
  exists chunks n, media_get E url = Some chunks /\ fl = Some n /\ n < length chunks.
Proof.
  unfold _fetch_bytes. destruct (media_get E url) as [chunks|].
  - pose proof (read_chunks_cut chunks EmptyString fl) as Hc.
    destruct (read_chunks chunks EmptyString fl) as [data fl1]. simpl in *.
    rewrite Hc. split.
    + intros (n & Hn & Hlt). right. exists chunks, n. auto.
    + intros [H|(chunks' & n & Hg & Hn & Hlt)]; [discriminate|].
      injection Hg as <-. exists n. auto.
  - simpl. split; [auto | reflexivity].
Qed.

(** A URL whose request brought nothing is without an entry after the
    loop. *)
Lemma harvest_loop_nothing (E : Env) (u : string) (rest : list string) (d : nat)
    (fl : Flag) (st : State) :
  NoDup (u :: rest) -> index st !! u = None -> fst (is_set fl) = false ->
  fst (fst (_fetch_bytes E u (snd (is_set fl)) st)) = None ->
  index (snd (harvest_loop E (u :: rest) d fl st)) !! u = None.
Proof.
  intros Hnd Hi Hset Hf. apply NoDup_cons in Hnd as [Hnin Hnd].
  cbn [harvest_loop]. destruct (is_set fl) as [stop fl1]. simpl in Hset, Hf. subst stop.
  rewrite bool_decide_eq_false_2 by (rewrite Hi; intros [x Hx]; discriminate).
  destruct (_fetch_bytes E u fl1 st) as [[data fl2] st1] eqn:Ef. simpl in Hf. subst data.
  apply _fetch_bytes_logged in Ef. subst st1.
  destruct (harvest_loop E rest d fl2 (logged u st)) as [[d' fl'] st'] eqn:El.
  apply harvest_loop_Harvested in El; [|exact Hnd].
  destruct (hv_other _ _ _ _ El u Hnin) as [Hix _]. simpl. rewrite Hix. exact Hi.
Qed.

Section harvest_twice.
Variable E : Env.
Hypothesis set_order_perm : forall l, Permutation l (set_order E l).


End harvest_twice.



End HarvestFacts.

(** ** The archive crawler: what a run keeps and what it counts *)

Module ArchiveFacts.
Import PyStr Cancel Backup DownloadFacts RunFacts.

(** From [st] to [st'] the page files that were there keep their content. *)
Definition keeps (st st' : State) : Prop :=
  forall name c, files st !! name = Some c -> files st' !! name = Some c.

Lemma keeps_refl (st : State) : keeps st st.
Proof. intros name c H. exact H. Qed.

Lemma keeps_trans (a b c : State) : keeps a b -> keeps b c -> keeps a c.
Proof. intros H1 H2 name x H. apply H2, H1, H. Qed.

Lemma keeps_same (st st' : State) : files st' = files st -> keeps st st'.
Proof. intros H name c. rewrite H. auto. Qed.

Section archive.
Variable E : Env.
Variable base_url : string.
Variable start_page : nat.
Variable order : list (list Thread) -> list (list Thread).

Lemma poll_files (st : State) : files (snd (poll st)) = files st.
Proof. unfold poll. destruct (is_set (flag st)). reflexivity. Qed.

Lemma process_page_files (u : string) (st : State) :
  files (snd (process_page E base_url u st)) = files st.
Proof.
  unfold process_page. pose proof (poll_files st) as Hp.
  destruct (poll st) as [stop st1]. simpl in Hp. destruct stop; [exact Hp|].
  unfold get_page. destruct (http_get E u) as [[|a r]|]; exact Hp.
Qed.

Lemma process_pages_files (pages : list string) (st : State) :
  files (snd (process_pages E base_url pages st)) = files st.
Proof.
  revert st. induction pages as [|p rest IH]; intros st; simpl; [reflexivity|].
  pose proof (process_page_files p st) as Hp.
  destruct (process_page E base_url p st) as [ts st1].
  pose proof (IH st1) as Hr. destruct (process_pages E base_url rest st1) as [tss st2].
  simpl in *. congruence.
Qed.

Lemma collect_files (results : list (list Thread)) (st : State) :
  files (snd (collect results st)) = files st.
Proof.
  revert st. induction results as [|ts rest IH]; intros st; simpl; [reflexivity|].
  pose proof (poll_files st) as Hp. destruct (poll st) as [stop st1]. simpl in Hp.
  destruct stop; [exact Hp|].
  pose proof (IH st1) as Hr. destruct (collect rest st1) as [more st2]. simpl in *.
  congruence.
Qed.

Lemma discover_files (st : State) :
  files (snd (discover_all_threads E base_url start_page order st)) = files st.
Proof.
  unfold discover_all_threads, gather_threads. rewrite get_all_pages_urls_eq.
  pose proof (process_pages_files (section_pages E base_url start_page)
                (with_requests (base_url :: requests st) st)) as Hp.
  destruct (process_pages E base_url _ _) as [results st2].
  pose proof (collect_files (order results) st2) as Hc.
  destruct (collect (order results) st2) as [all st3]. simpl in *. congruence.
Qed.

Lemma download_thread_keeps (t : Thread) (st : State) :
  keeps st (snd (download_thread E t st)).
Proof.
  rewrite download_thread_unfold.
  pose proof (poll_files st) as Hp. destruct (poll st) as [stop st1]. simpl in Hp.
  destruct stop; [apply keeps_same; exact Hp|].
  unfold get_page. destruct (http_get E (t_url t)) as [[|a r]|];
    try (apply keeps_same; exact Hp).
  set (st2 := mkState _ _ _ _ _ _ _).
  pose proof (download_pages_extends E t (get_thread_pages E (t_url t) (String a r))
                1 0 None st2) as Hd.
  destruct (download_pages E t _ 1 0 None st2) as [n st3]. simpl in Hd.
  destruct Hd as [Hf _ _ _]. intros name c Hc. simpl. apply Hf. subst st2. simpl.
  rewrite Hp. exact Hc.
Qed.

Lemma download_single_keeps (t : Thread) (st : State) :
  keeps st (snd (download_single E t st)).
Proof.
  unfold download_single. pose proof (download_thread_keeps t st) as H1.
  destruct (download_thread E t st) as [result st1]. simpl in H1.
  destruct result; [exact H1|].
  eapply keeps_trans; [exact H1 | apply download_thread_keeps].
Qed.

Lemma run_units_keeps (units : list Thread) :
  forall stopped successful st,
    keeps st (snd (run_units E units stopped successful st)).
Proof.
  induction units as [|t rest IH]; intros stopped successful st; [apply keeps_refl|].
  cbn [run_units]. pose proof (download_single_keeps t st) as H1.
  destruct (download_single E t st) as [result st1]. simpl in H1.
  destruct stopped; [eapply keeps_trans; [exact H1 | apply IH]|].
  pose proof (poll_files st1) as Hp. destruct (poll st1) as [stop st2]. simpl in Hp.
  assert (H2 : keeps st st2) by (eapply keeps_trans; [exact H1 | apply keeps_same, Hp]).
  destruct stop; [eapply keeps_trans; [exact H2 | apply IH]|].
  destruct result; [|eapply keeps_trans; [exact H2 | apply IH]].
  eapply keeps_trans; [|apply IH]. exact H2.
Qed.

End archive.

(** A run of [run_backup], cancelled or not, changes and removes no page
    file that was in the output directory: it only adds files. *)
Theorem run_backup_keeps_files (E : Env) (base_url : string) (start_page : nat)
    (order : list (list Thread) -> list (list Thread)) (st : State) (name c : string) :
  files st !! name = Some c ->
  files (snd (run_backup E base_url start_page order st)) !! name = Some c.
Proof.
  intros Hc. unfold run_backup.
  pose proof (discover_files E base_url start_page order st) as Hd.
  destruct (discover_all_threads E base_url start_page order st) as [[|t ts] st1]; simpl in Hd.
  - simpl. rewrite Hd. exact Hc.
  - match goal with
    | |- context [run_units E ?u false 0 ?s] =>
        pose proof (run_units_keeps E u false 0 s) as Hr;
        destruct (run_units E u false 0 s) as [n st2]
    end.
    simpl in *. apply Hr. simpl. rewrite Hd. exact Hc.
Qed.

Lemma run_backup_keeps_files_witness :
  let st1 := snd (run_backup ForumSample.env ForumSample.base_url 1 ForumSample.in_order (ForumSample.fresh None)) in
  files st1 !! "thread_2_Beta__page1.html" = Some "UNIT-2 ONLY PAGE" /\
  files (snd (run_backup ForumSample.env ForumSample.base_url 1 ForumSample.in_order st1))
    !! "thread_2_Beta__page1.html" = Some "UNIT-2 ONLY PAGE".
Proof.
  cbv zeta.
  assert (H : files (snd (run_backup ForumSample.env ForumSample.base_url 1 ForumSample.in_order
                            (ForumSample.fresh None)))
              !! "thread_2_Beta__page1.html" = Some "UNIT-2 ONLY PAGE")
    by (vm_compute; reflexivity).
  split; [exact H|]. exact (run_backup_keeps_files _ _ _ _ _ _ _ H).
Defined.

(** *** A run that is cancelled before it starts *)

Lemma process_pages_stopped (E : Env) (base_url : string) (pages : list string) (st : State) :
  flag st = Some 0 ->
  process_pages E base_url pages st = (map (fun _ => []) pages, st).
Proof.
  intros H. induction pages as [|p rest IH]; [reflexivity|].
  simpl. unfold process_page. rewrite (poll_set _ H), IH. reflexivity.
Qed.

Lemma collect_stopped (results : list (list Thread)) (st : State) :
  flag st = Some 0 -> collect results st = ([], st).
Proof.
  intros H. destruct results as [|ts rest]; [reflexivity|].
  simpl. rewrite (poll_set _ H). reflexivity.
Qed.

(** With the flag set before the run, [run_backup] still requests the
    section page, once; it scans no page, finds no unit, returns 0, and
    writes neither a page nor the metadata. *)
Theorem run_backup_cancelled_at_start (E : Env) (base_url : string) (start_page : nat)
    (order : list (list Thread) -> list (list Thread)) (st : State) :
  flag st = Some 0 ->
  run_backup E base_url start_page order st
  = (0, with_requests (base_url :: requests st) st).
Proof.
  intros H. unfold run_backup, discover_all_threads, gather_threads.
  rewrite get_all_pages_urls_eq.
  rewrite process_pages_stopped by exact H.
  rewrite collect_stopped by exact H. reflexivity.
Qed.

Lemma run_backup_cancelled_at_start_witness :
  run_backup ForumSample.env ForumSample.base_url 1 ForumSample.in_order (ForumSample.fresh (Some 0))
  = (0, with_requests [ForumSample.base_url] (ForumSample.fresh (Some 0))).
Proof. exact (run_backup_cancelled_at_start _ _ _ _ (ForumSample.fresh (Some 0)) eq_refl). Defined.

(** *** What a run counts *)

(** The first page of the unit can be fetched. *)
Definition fetchable (E : Env) (t : Thread) : bool :=
  negb (no_content (http_get E (t_url t))).

Lemma run_units_count (E : Env) (units : list Thread) :
  forall (successful : nat) (st : State) (n : nat) (st' : State),
    flag st = None ->
    NoDup (map t_id units) ->
    (forall t, t ∈ units -> threads (metadata st) !! t_id t = None) ->
    run_units E units false successful st = (n, st') ->
    flag st' = None /\
    n = successful + length (filter (fun t => fetchable E t = true) units) /\
    size (threads (metadata st')) + successful = size (threads (metadata st)) + n /\
    completed_threads (metadata st')
    = (if decide (successful < n) then n else completed_threads (metadata st)).
Proof.
  induction units as [|t rest IH]; intros successful st n st' Hfl Hnd Hnew H.
  - injection H as <- <-. simpl. split; [exact Hfl|]. split; [lia|]. split; [lia|].
    rewrite decide_False by lia. reflexivity.
  - simpl in Hnd. apply NoDup_cons in Hnd as [Ht Hnd]. cbn [run_units] in H.
    rewrite filter_cons.
    destruct (no_content (http_get E (t_url t))) eqn:Hno.
    + rewrite (download_single_no_content E t st Hfl Hno) in H.
      set (st1 := with_requests _ st) in H.
      assert (Hfl1 : flag st1 = None) by exact Hfl.
      rewrite (poll_None _ Hfl1) in H.
      apply IH in H; [|exact Hfl1|exact Hnd|intros t0 Ht0; apply Hnew; right; exact Ht0].
      rewrite decide_False by (unfold fetchable; rewrite Hno; discriminate). exact H.
    + destruct (download_single_content E t st Hfl Hno) as (st1 & r & Hd & H1 & H2 & H3).
      rewrite Hd in H. rewrite (poll_None _ H1) in H.
      set (st2 := save_metadata (set_completed (S successful) st1)) in H.
      assert (Hth : threads (metadata st2) = <[t_id t := r]> (threads (metadata st)))
        by (rewrite <- H2; reflexivity).
      assert (Hcm : completed_threads (metadata st2) = S successful) by reflexivity.
      apply IH in H; [|exact H1|exact Hnd|].
      * destruct H as (Hf & Hn & Hs & Hc).
        rewrite decide_True by (unfold fetchable; rewrite Hno; reflexivity). simpl.
        rewrite Hth in Hs.
        rewrite map_size_insert_None in Hs by (apply Hnew; left).
        split; [exact Hf|]. split; [lia|]. split; [lia|].
        rewrite decide_True by lia. rewrite Hc, Hcm.
        destruct (decide (S successful < n)); [reflexivity | lia].
      * intros t0 Ht0. rewrite Hth, lookup_insert_ne; [apply Hnew; right; exact Ht0|].
        intros Heq. apply Ht. rewrite Heq. apply list_elem_of_fmap. exists t0. auto.
Qed.

(** A run that is not cancelled returns the number of units it found that
    the metadata did not hold and whose first page could be fetched; the
    metadata gains that many units, and when there is one at least,
    [completed_threads] is that number, [total_threads] the number of units
    found, and the metadata on disk is the metadata in memory. *)
Theorem run_backup_count (E : Env) (base_url : string) (start_page : nat)
    (order : list (list Thread) -> list (list Thread)) (st : State) :
  flag st = None ->
  let found := fst (discover_all_threads E base_url start_page order st) in
  let new := filter (fun t => threads (metadata st) !! t_id t = None) found in
  let '(n, st') := run_backup E base_url start_page order st in
  n = length (filter (fun t => fetchable E t = true) new) /\
  size (threads (metadata st')) = size (threads (metadata st)) + n /\
  (1 <= n ->
   completed_threads (metadata st') = n /\
   total_threads (metadata st') = length found /\
   metadata_file st' = Some (metadata st')).
Proof.
  intros Hfl. cbv zeta. rewrite (run_backup_None E base_url start_page order st Hfl).
  rewrite (discover_None E base_url start_page order st Hfl). cbv zeta. simpl fst.
  destruct (found E base_url start_page order) as [|t ts] eqn:Ef.
  - simpl. split; [reflexivity|]. split; [lia|]. intros H. lia.
  - rewrite <- Ef.
    set (stT := set_total _ _).
    set (units := filter _ (found E base_url start_page order)).
    destruct (run_units E units false 0 stT) as [n st1] eqn:Er. simpl fst. simpl snd.
    assert (Htot : total_threads (metadata st1) = length (found E base_url start_page order)).
    { pose proof (run_units_None E units false 0 stT Hfl) as (_ & _ & Ht & _).
      rewrite Er in Ht. exact Ht. }
    apply run_units_count in Er.
    + destruct Er as (Hf1 & Hn & Hs & Hc). simpl in Hn, Hs.
      split; [exact Hn|]. split; [simpl; simpl in Hs; lia|].
      intros Hn1. rewrite decide_True in Hc by lia. auto.
    + exact Hfl.
    + apply NoDup_fmap_2_strong.
      * intros x y Hx Hy Hxy. apply list_elem_of_filter in Hx as [_ Hx].
        apply list_elem_of_filter in Hy as [_ Hy].
        eapply (UnitFacts.NoDup_map_inj t_id); [|exact Hx|exact Hy|exact Hxy].
        apply DiscoveryFacts.unique_by_id_NoDup.
      * apply NoDup_filter. eapply NoDup_fmap_1. apply DiscoveryFacts.unique_by_id_NoDup.
    + intros t0 Ht0. apply list_elem_of_filter in Ht0 as [Ht0 _]. exact Ht0.
Qed.

Lemma run_backup_count_witness :
  run_backup ForumSample.env ForumSample.base_url 1 ForumSample.in_order (ForumSample.fresh None)
  = (2, snd (run_backup ForumSample.env ForumSample.base_url 1 ForumSample.in_order (ForumSample.fresh None))) /\
  size (threads (metadata (snd (run_backup ForumSample.env ForumSample.base_url 1 ForumSample.in_order
                                  (ForumSample.fresh None))))) = 0 + 2.
Proof.
  pose proof (run_backup_count ForumSample.env ForumSample.base_url 1 ForumSample.in_order
                (ForumSample.fresh None) eq_refl) as H.
  cbv zeta in H.
  assert (Hr : run_backup ForumSample.env ForumSample.base_url 1 ForumSample.in_order (ForumSample.fresh None)
               = (2, snd (run_backup ForumSample.env ForumSample.base_url 1 ForumSample.in_order
                            (ForumSample.fresh None))))
    by (vm_compute; reflexivity).
  rewrite Hr in H. destruct H as (_ & Hs & _). split; [exact Hr | exact Hs].
Defined.

(** *** The pages a unit is recorded with *)

Lemma download_pages_counted (E : Env) (t : Thread) (thread_pages : list string) :
  forall page_num downloaded prev st n st',
    download_pages E t thread_pages page_num downloaded prev st = (n, st') ->
    exists nums,
      NoDup nums /\ length nums + downloaded = n /\
      forall i, i ∈ nums -> page_num <= i /\ is_Some (files st' !! page_file t i).
Proof.
  induction thread_pages as [|u rest IH]; intros page_num downloaded prev st n st' H.
  - injection H as <- <-. exists []. split; [constructor|]. split; [reflexivity|].
    intros i Hi. apply not_elem_of_nil in Hi. contradiction.
  - assert (Hnone : exists nums : list nat,
              NoDup nums /\ length nums + downloaded = downloaded /\
              forall i, i ∈ nums -> page_num <= i /\ is_Some (files st' !! page_file t i)).
    { exists []. split; [constructor|]. split; [reflexivity|].
      intros i Hi. apply not_elem_of_nil in Hi. contradiction. }
    rewrite download_pages_cons in H.
    pose proof (poll_files st) as Hp. destruct (poll st) as [stop st1]. simpl in Hp.
    destruct stop; [injection H as <- <-; exact Hnone|].
    destruct (files st1 !! page_file t page_num) as [saved|] eqn:Ef.
    + pose proof (download_pages_extends E t rest (S page_num) (S downloaded)
                    (Some (utf8_len saved))
                    (if Nat.eqb (utf8_len saved) 0 then st1
                     else harvest_media E saved u st1)) as Hx.
      rewrite H in Hx. simpl in Hx. destruct Hx as [Hfiles _ _ _].
      apply IH in H as (nums & Hnd & Hlen & Hall).
      exists (page_num :: nums). split; [|split].
      * apply NoDup_cons. split; [|exact Hnd]. intros Hin. apply Hall in Hin. lia.
      * simpl. lia.
      * intros i Hi. apply elem_of_cons in Hi as [->|Hi].
        -- split; [lia|]. exists saved. apply Hfiles.
           destruct (Nat.eqb (utf8_len saved) 0); [exact Ef|].
           destruct (harvest_media_same E saved u st1) as [[Hs _ _ _] _].
           rewrite Hs. exact Ef.
        -- destruct (Hall i Hi). split; [lia | assumption].
    + unfold get_page in H. destruct (http_get E u) as [[|a r]|].
      * apply IH in H as (nums & Hnd & Hlen & Hall). exists nums.
        split; [exact Hnd|]. split; [exact Hlen|].
        intros i Hi. destruct (Hall i Hi). split; [lia | assumption].
      * destruct (bool_decide (prev = Some (utf8_len (String a r))));
          [injection H as <- <-; exact Hnone|].
        destruct (writable E (page_file t page_num)); cycle 1.
        { apply IH in H as (nums & Hnd & Hlen & Hall). exists nums.
          split; [exact Hnd|]. split; [exact Hlen|].
          intros i Hi. destruct (Hall i Hi). split; [lia | assumption]. }
        match type of H with
        | download_pages E t rest _ _ _ ?s = _ =>
            pose proof (download_pages_extends E t rest (S page_num) (S downloaded)
                          (Some (utf8_len (String a r))) s) as Hx;
            assert (Hw : files s !! page_file t page_num = Some (String a r))
        end.
        { match goal with
          | |- files (harvest_media E ?h ?p ?s) !! _ = _ =>
              destruct (harvest_media_same E h p s) as [[Hs _ _ _] _]; rewrite Hs
          end.
          apply lookup_insert_eq. }
        rewrite H in Hx. simpl in Hx. destruct Hx as [Hfiles _ _ _].
        apply IH in H as (nums & Hnd & Hlen & Hall).
        exists (page_num :: nums). split; [|split].
        -- apply NoDup_cons. split; [|exact Hnd]. intros Hin. apply Hall in Hin. lia.
        -- simpl. lia.
        -- intros i Hi. apply elem_of_cons in Hi as [->|Hi].
           ++ split; [lia|]. exists (String a r). apply Hfiles, Hw.
           ++ destruct (Hall i Hi). split; [lia | assumption].
      * apply IH in H as (nums & Hnd & Hlen & Hall). exists nums.
        split; [exact Hnd|]. split; [exact Hlen|].
        intros i Hi. destruct (Hall i Hi). split; [lia | assumption].
Qed.



End ArchiveFacts.

(** ** The archive crawler: a run over an archive that exists *)

Module RerunFacts.
Import PyStr PyStrFacts Cancel Backup DownloadFacts RunFacts ArchiveFacts.

(** *** What discovery leaves alone *)

Lemma poll_metadata (st : State) : metadata (snd (poll st)) = metadata st.
Proof. unfold poll. destruct (is_set (flag st)). reflexivity. Qed.

Section discovery.
Variable E : Env.
Variable base_url : string.
Variable start_page : nat.
Variable order : list (list Thread) -> list (list Thread).

Lemma process_page_metadata (u : string) (st : State) :
  metadata (snd (process_page E base_url u st)) = metadata st.
Proof.
  unfold process_page. pose proof (poll_metadata st) as Hp.
  destruct (poll st) as [stop st1]. simpl in Hp. destruct stop; [exact Hp|].
  unfold get_page. destruct (http_get E u) as [[|a r]|]; exact Hp.
Qed.

Lemma process_pages_metadata (pages : list string) (st : State) :
  metadata (snd (process_pages E base_url pages st)) = metadata st.
Proof.
  revert st. induction pages as [|p rest IH]; intros st; simpl; [reflexivity|].
  pose proof (process_page_metadata p st) as Hp.
  destruct (process_page E base_url p st) as [ts st1].
  pose proof (IH st1) as Hr. destruct (process_pages E base_url rest st1) as [tss st2].
  simpl in *. congruence.
Qed.

Lemma collect_metadata (results : list (list Thread)) (st : State) :
  metadata (snd (collect results st)) = metadata st.
Proof.
  revert st. induction results as [|ts rest IH]; intros st; simpl; [reflexivity|].
  pose proof (poll_metadata st) as Hp. destruct (poll st) as [stop st1]. simpl in Hp.
  destruct stop; [exact Hp|].
  pose proof (IH st1) as Hr. destruct (collect rest st1) as [more st2]. simpl in *.
  congruence.
Qed.

Lemma discover_metadata (st : State) :
  metadata (snd (discover_all_threads E base_url start_page order st)) = metadata st.
Proof.
  unfold discover_all_threads, gather_threads. rewrite get_all_pages_urls_eq.
  pose proof (process_pages_metadata (section_pages E base_url start_page)
                (with_requests (base_url :: requests st) st)) as Hp.
  destruct (process_pages E base_url _ _) as [results st2].
  pose proof (collect_metadata (order results) st2) as Hc.
  destruct (collect (order results) st2) as [all st3]. simpl in *. congruence.
Qed.

(** *** The records of the other units *)

Lemma download_thread_other (t : Thread) (st : State) (id : string) :
  id <> t_id t ->
  threads (metadata (snd (download_thread E t st))) !! id = threads (metadata st) !! id.
Proof.
  intros Hne. rewrite download_thread_unfold.
  pose proof (poll_metadata st) as Hp. destruct (poll st) as [stop st1]. simpl in Hp.
  destruct stop; [simpl; rewrite Hp; reflexivity|].
  unfold get_page. destruct (http_get E (t_url t)) as [[|a r]|];
    try (simpl; rewrite Hp; reflexivity).
  set (st2 := mkState _ _ _ _ _ _ _).
  pose proof (download_pages_extends E t (get_thread_pages E (t_url t) (String a r))
                1 0 None st2) as Hd.
  destruct (download_pages E t _ 1 0 None st2) as [n st3]. simpl in Hd.
  destruct Hd as [_ _ _ Hm]. simpl.
  rewrite lookup_insert_ne by congruence. rewrite Hm. subst st2. simpl.
  rewrite Hp. reflexivity.
Qed.

Lemma download_single_other (t : Thread) (st : State) (id : string) :
  id <> t_id t ->
  threads (metadata (snd (download_single E t st))) !! id = threads (metadata st) !! id.
Proof.
  intros Hne. unfold download_single. pose proof (download_thread_other t st id Hne) as H1.
  destruct (download_thread E t st) as [result st1]. simpl in H1.
  destruct result; [exact H1|]. rewrite download_thread_other by exact Hne. exact H1.
Qed.

Lemma run_units_other (units : list Thread) (id : string) :
  (forall t, t ∈ units -> t_id t <> id) ->
  forall stopped successful st,
    threads (metadata (snd (run_units E units stopped successful st))) !! id
    = threads (metadata st) !! id.
Proof.
  induction units as [|t rest IH]; intros Hne stopped successful st; [reflexivity|].
  assert (Hrest : forall t0, t0 ∈ rest -> t_id t0 <> id)
    by (intros t0 Ht0; apply Hne; right; exact Ht0).
  assert (Ht : id <> t_id t) by (intros ->; apply (Hne t); [left | reflexivity]).
  cbn [run_units]. pose proof (download_single_other t st id Ht) as H1.
  destruct (download_single E t st) as [result st1]. simpl in H1.
  destruct stopped; [rewrite IH by exact Hrest; exact H1|].
  pose proof (poll_metadata st1) as Hp. destruct (poll st1) as [stop st2]. simpl in Hp.
  destruct stop; [rewrite IH by exact Hrest; rewrite Hp; exact H1|].
  destruct result; rewrite IH by exact Hrest; [|rewrite Hp; exact H1].
  simpl. rewrite Hp. exact H1.
Qed.

(** A unit whose id the metadata holds is not in the download set of a
    run, cancelled or not: the run leaves its record as it is. *)
Lemma run_backup_keeps_records (st : State) (id : string) (r : ThreadRecord) :
  threads (metadata st) !! id = Some r ->
  threads (metadata (snd (run_backup E base_url start_page order st))) !! id = Some r.
Proof.
  intros Hr. unfold run_backup.
  pose proof (discover_metadata st) as Hd.
  destruct (discover_all_threads E base_url start_page order st) as [[|t ts] st1];
    simpl in Hd; [simpl; rewrite Hd; exact Hr|].
  match goal with
  | |- context [run_units E ?u false 0 ?s] =>
      pose proof (fun H => run_units_other u id H false 0 s) as Ho;
      destruct (run_units E u false 0 s) as [n st2]
  end.
  simpl in *. rewrite Ho; [rewrite Hd; exact Hr|].
  intros t0 Ht0 Heq. apply list_elem_of_filter in Ht0 as [Hnone _].
  simpl in Hnone. rewrite Heq, Hd, Hr in Hnone. discriminate.
Qed.

(** *** The files of the other units *)

(** The pages of [t] on disk among the [m] pages from page [from] on. *)
Definition on_disk (t : Thread) (st : State) (k : nat) : bool :=
  bool_decide (is_Some (files st !! page_file t k)).

Definition pages_on_disk (t : Thread) (st : State) (from m : nat) : nat :=
  length (filter (fun k => on_disk t st k = true) (seq from m)).

Lemma pages_on_disk_S (t : Thread) (st : State) (from m : nat) :
  pages_on_disk t st from (S m)
  = (if on_disk t st from then 1 else 0) + pages_on_disk t st (S from) m.
Proof.
  unfold pages_on_disk. simpl seq. rewrite filter_cons.
  destruct (on_disk t st from).
  - rewrite decide_True by reflexivity. reflexivity.
  - rewrite decide_False by discriminate. reflexivity.
Qed.

(** What the loop over the pages of a unit has done when it returns [n]
    in the state [st']: it came to some [m] of the pages, counted those of
    them whose file is on disk, and touched no other file; and when it did
    not come to all the pages, it stopped before page [m] on the flag, or
    on the size of that page, which it had just requested and did not
    write. *)
Definition came_to (t : Thread) (thread_pages : list string) (page_num downloaded : nat)
    (st : State) (n : nat) (st' : State) (m : nat) : Prop :=
  m <= length thread_pages /\
  n = downloaded + pages_on_disk t st' page_num m /\
  (forall name, (forall k, page_num <= k < page_num + m -> name <> page_file t k) ->
                files st' !! name = files st !! name) /\
  (m < length thread_pages ->
   flag st' = Some 0 \/
   (files st' !! page_file t (page_num + m) = None /\
    exists u, thread_pages !! m = Some u /\ head (requests st') = Some u)).

Lemma poll_stop (st st1 : State) : poll st = (true, st1) -> flag st1 = Some 0.
Proof.
  unfold poll. destruct (flag st) as [[|k]|]; simpl; intros [= <-]; reflexivity.
Qed.

Lemma came_to_stop (t : Thread) (u : string) (rest : list string) (page_num downloaded : nat)
    (st s : State) :
  files s = files st ->
  flag s = Some 0 \/ (files s !! page_file t page_num = None /\ head (requests s) = Some u) ->
  came_to t (u :: rest) page_num downloaded st downloaded s 0.
Proof.
  intros Hs Hwhy. split; [simpl; lia|].
  split; [unfold pages_on_disk; simpl; lia|].
  split; [intros name _; rewrite Hs; reflexivity|].
  intros _. rewrite Nat.add_0_r. destruct Hwhy as [Hf|[Hf Hr]]; [left; exact Hf|].
  right. split; [exact Hf|]. exists u. split; [reflexivity | exact Hr].
Qed.

Lemma came_to_step (t : Thread) (u : string) (rest : list string) (page_num downloaded : nat)
    (st s st' : State) (b : bool) (n m : nat) :
  on_disk t s page_num = b ->
  (forall name, name <> page_file t page_num -> files s !! name = files st !! name) ->
  came_to t rest (S page_num) ((if b then 1 else 0) + downloaded) s n st' m ->
  came_to t (u :: rest) page_num downloaded st n st' (S m).
Proof.
  intros Hb Hs (Hm & Hn & Hf & Hwhy).
  assert (Hhere : on_disk t st' page_num = b).
  { unfold on_disk in *. rewrite Hf; [exact Hb|].
    intros k Hk Heq. apply page_file_inj in Heq. lia. }
  split; [simpl; lia|]. split; [rewrite pages_on_disk_S, Hhere; lia|]. split.
  - intros name Hname. rewrite Hf.
    + apply Hs. apply (Hname page_num). lia.
    + intros k Hk. apply Hname. lia.
  - intros Hlt. replace (page_num + S m) with (S page_num + m) by lia.
    apply Hwhy. simpl in Hlt. lia.
Qed.

Lemma download_pages_count (t : Thread) (thread_pages : list string) :
  forall page_num downloaded prev st n st',
    download_pages E t thread_pages page_num downloaded prev st = (n, st') ->
    exists m, came_to t thread_pages page_num downloaded st n st' m.
Proof.
  induction thread_pages as [|u rest IH]; intros page_num downloaded prev st n st' H.
  - injection H as <- <-. exists 0. split; [simpl; lia|].
    split; [unfold pages_on_disk; simpl; lia|]. split; [reflexivity|]. simpl. lia.
  - rewrite download_pages_cons in H.
    pose proof (poll_files st) as Hp. destruct (poll st) as [stop st1] eqn:Epoll.
    simpl in Hp. destruct stop.
    { injection H as <- <-. exists 0. apply came_to_stop; [exact Hp|].
      left. eapply poll_stop. exact Epoll. }
    destruct (files st1 !! page_file t page_num) as [saved|] eqn:Ef.
    + apply IH in H as (m & Hm). exists (S m).
      eapply (came_to_step t u rest page_num downloaded st _ st' true); [| |exact Hm].
      * apply bool_decide_eq_true_2. exists saved.
        destruct (Nat.eqb (utf8_len saved) 0); [exact Ef|].
        destruct (harvest_media_same E saved u st1) as [[Hs _ _ _] _]. rewrite Hs. exact Ef.
      * intros name _.
        destruct (Nat.eqb (utf8_len saved) 0); [rewrite Hp; reflexivity|].
        destruct (harvest_media_same E saved u st1) as [[Hs _ _ _] _]. rewrite Hs, Hp.
        reflexivity.
    + unfold get_page in H.
      set (st2 := mkState (flag st1) (files st1) (metadata st1) (metadata_file st1)
                          (clock st1) (u :: requests st1) (media st1)) in *.
      assert (Hskip : forall p,
                download_pages E t rest (S page_num) downloaded p st2 = (n, st') ->
                exists m, came_to t (u :: rest) page_num downloaded st n st' m).
      { intros p Hrun. apply IH in Hrun as (m & Hm). exists (S m).
        eapply (came_to_step t u rest page_num downloaded st st2 st' false); [| |exact Hm].
        - apply bool_decide_eq_false_2. subst st2. cbn [files]. rewrite Ef.
          intros [x Hx]. discriminate.
        - intros name _. simpl. rewrite Hp. reflexivity. }
      destruct (http_get E u) as [[|a r]|]; [eapply Hskip; exact H| |eapply Hskip; exact H].
      destruct (bool_decide (prev = Some (utf8_len (String a r)))).
      { injection H as <- <-. exists 0. apply came_to_stop; [exact Hp|].
        right. split; [exact Ef | reflexivity]. }
      destruct (writable E (page_file t page_num)); [|eapply Hskip; exact H].
      apply IH in H as (m & Hm). exists (S m).
      eapply (came_to_step t u rest page_num downloaded st _ st' true); [| |exact Hm].
      * apply bool_decide_eq_true_2. exists (String a r).
        match goal with
        | |- files (harvest_media E ?h ?p ?s) !! _ = _ =>
            destruct (harvest_media_same E h p s) as [[Hs _ _ _] _]; rewrite Hs
        end.
        apply lookup_insert_eq.
      * intros name Hname.
        match goal with
        | |- files (harvest_media E ?h ?p ?s) !! _ = _ =>
            destruct (harvest_media_same E h p s) as [[Hs _ _ _] _]; rewrite Hs
        end.
        unfold written. subst st2. cbn [files]. rewrite lookup_insert_ne by congruence.
        rewrite Hp. reflexivity.
Qed.

(** What [download_thread] records for a unit whose first page it fetched:
    the number of its page files on disk among the pages the loop came to,
    which are all the pages of the unit unless the loop stopped. *)
Lemma download_thread_count (t : Thread) (st st' : State) :
  download_thread E t st = (true, st') ->
  exists r html m,
    http_get E (t_url t) = Some html /\
    threads (metadata st') !! t_id t = Some r /\
    came_to t (get_thread_pages E (t_url t) html) 1 0 st (pages r) st' m.
Proof.
  rewrite download_thread_unfold.
  pose proof (poll_files st) as Hp. destruct (poll st) as [stop st1]. simpl in Hp.
  destruct stop; [discriminate|].
  unfold get_page. destruct (http_get E (t_url t)) as [[|a r]|]; try discriminate.
  destruct (download_pages E t _ 1 0 None _) as [n st2] eqn:Ed.
  intros [= <-]. apply download_pages_count in Ed as (m & Hm & Hn & Hf & Hwhy).
  eexists. exists (String a r), m. split; [reflexivity|].
  split; [apply lookup_insert_eq|].
  split; [exact Hm|]. split; [exact Hn|]. split; [|exact Hwhy].
  intros name Hname. simpl. rewrite (Hf name Hname). simpl. rewrite Hp. reflexivity.
Qed.

Lemma download_thread_files (t : Thread) (st : State) (name : string) :
  (forall k, name <> page_file t k) ->
  files (snd (download_thread E t st)) !! name = files st !! name.
Proof.
  intros Hname. rewrite download_thread_unfold.
  pose proof (poll_files st) as Hp. destruct (poll st) as [stop st1]. simpl in Hp.
  destruct stop; [simpl; rewrite Hp; reflexivity|].
  unfold get_page. destruct (http_get E (t_url t)) as [[|a r]|];
    try (simpl; rewrite Hp; reflexivity).
  destruct (download_pages E t _ 1 0 None _) as [n st2] eqn:Ed.
  apply download_pages_count in Ed as (m & _ & _ & Hf & _).
  simpl. rewrite Hf by (intros k _; apply Hname). simpl. rewrite Hp. reflexivity.
Qed.

Lemma download_single_files (t : Thread) (st : State) (name : string) :
  (forall k, name <> page_file t k) ->
  files (snd (download_single E t st)) !! name = files st !! name.
Proof.
  intros Hname. unfold download_single.
  pose proof (download_thread_files t st name Hname) as H1.
  destruct (download_thread E t st) as [result st1]. simpl in H1.
  destruct result; [exact H1|]. rewrite download_thread_files by exact Hname. exact H1.
Qed.

Lemma run_units_files (units : list Thread) (name : string) :
  (forall t k, t ∈ units -> name <> page_file t k) ->
  forall stopped successful st,
    files (snd (run_units E units stopped successful st)) !! name = files st !! name.
Proof.
  induction units as [|t rest IH]; intros Hne stopped successful st; [reflexivity|].
  assert (Hrest : forall t0 k, t0 ∈ rest -> name <> page_file t0 k)
    by (intros t0 k Ht0; apply Hne; right; exact Ht0).
  assert (Ht : forall k, name <> page_file t k) by (intros k; apply Hne; left).
  cbn [run_units]. pose proof (download_single_files t st name Ht) as H1.
  destruct (download_single E t st) as [result st1]. simpl in H1.
  destruct stopped; [rewrite IH by exact Hrest; exact H1|].
  pose proof (poll_files st1) as Hp. destruct (poll st1) as [stop st2]. simpl in Hp.
  destruct stop; [rewrite IH by exact Hrest; rewrite Hp; exact H1|].
  destruct result; rewrite IH by exact Hrest; [|rewrite Hp; exact H1].
  simpl. rewrite Hp. exact H1.
Qed.

(** The page files of a unit whose id the metadata holds are not touched
    by a run: a page of it that is missing stays missing. *)
Lemma run_backup_keeps_unit_files (st : State) (t0 : Thread) (k : nat) :
  (forall l, Permutation l (order l)) ->
  is_Some (threads (metadata st) !! t_id t0) ->
  all_by is_digit (t_id t0) = true ->
  files (snd (run_backup E base_url start_page order st)) !! page_file t0 k
  = files st !! page_file t0 k.
Proof.
  intros Hperm [r Hr] Hdig. unfold run_backup.
  pose proof (discover_metadata st) as Hd.
  pose proof (discover_files E base_url start_page order st) as Hdf.
  pose proof (UnitFacts.discover_ids E base_url start_page order Hperm st) as Hids.
  destruct (discover_all_threads E base_url start_page order st) as [[|t ts] st1];
    simpl in Hd, Hdf, Hids; [simpl; rewrite Hdf; reflexivity|].
  match goal with
  | |- context [run_units E ?u false 0 ?s] =>
      pose proof (fun H => run_units_files u (page_file t0 k) H false 0 s) as Ho;
      destruct (run_units E u false 0 s) as [n st2]
  end.
  simpl in *. rewrite Ho; [rewrite Hdf; reflexivity|].
  intros t1 k1 Ht1 Heq. apply list_elem_of_filter in Ht1 as [Hnone Ht1].
  simpl in Hnone. rewrite Forall_forall in Hids.
  destruct (ThreadIdFacts.extract_thread_id_some _ _ (Hids t1 Ht1)) as [_ Hd1].
  unfold page_file in Heq. apply app_inv_head_str in Heq.
  apply (UnitFacts.digits_then_underscore _ _ _ _ Hdig Hd1) in Heq as [Heq _].
  rewrite <- Heq, Hd, Hr in Hnone. discriminate.
Qed.

(** Pages whose files are all there: each is counted, none is requested or
    written. *)
Lemma download_pages_all_existing (t : Thread) (thread_pages : list string) :
  forall page_num downloaded prev st,
    flag st = None ->
    (forall k, k < length thread_pages ->
               is_Some (files st !! page_file t (page_num + k))) ->
    exists st',
      download_pages E t thread_pages page_num downloaded prev st
      = (downloaded + length thread_pages, st') /\
      flag st' = None /\ files st' = files st /\ requests st' = requests st /\
      metadata st' = metadata st /\ metadata_file st' = metadata_file st.
Proof.
  induction thread_pages as [|u rest IH]; intros page_num downloaded prev st Hfl Hall.
  - exists st. simpl. rewrite Nat.add_0_r. repeat split; auto.
  - destruct (Hall 0 ltac:(simpl; lia)) as [saved Hs]. rewrite Nat.add_0_r in Hs.
    rewrite download_pages_cons, (poll_None _ Hfl), Hs.
    set (st1 := if Nat.eqb (utf8_len saved) 0 then st else harvest_media E saved u st).
    assert (H1 : same_pages st st1 /\ flag st1 = None).
    { subst st1. destruct (Nat.eqb (utf8_len saved) 0); [split; [apply same_pages_refl|exact Hfl]|].
      destruct (harvest_media_same E saved u st) as [Hsame Hf]. split; [exact Hsame | auto]. }
    destruct H1 as [[A1 A2 A3 A4] Hfl1].
    destruct (IH (S page_num) (S downloaded) (Some (utf8_len saved)) st1 Hfl1)
      as (st' & Hrun & B0 & B1 & B2 & B3 & B4).
    + intros k Hk. rewrite A1. replace (S page_num + k) with (page_num + S k) by lia.
      apply Hall. simpl. lia.
    + exists st'. split; [rewrite Hrun; f_equal; simpl; lia|].
      repeat split; congruence.
Qed.

End discovery.

(** *** The units two runs find *)

Lemma concat_perm {A : Type} (l k : list (list A)) :
  Permutation l k -> Permutation (concat l) (concat k).
Proof.
  induction 1 as [|x l k _ IH|x y l|l k m _ IH1 _ IH2]; simpl.
  - constructor.
  - apply Permutation_app_head. exact IH.
  - rewrite !app_assoc. apply Permutation_app_tail, Permutation_app_comm.
  - etransitivity; eassumption.
Qed.

Section two_runs.
Variable E : Env.
Variable base_url : string.
Variable start_page : nat.

(** Every link to a unit on the listing pages of the section. *)
Definition links : list Thread :=
  concat (map (page_result E base_url) (section_pages E base_url start_page)).

Local Abbreviation found := (RunFacts.found E base_url start_page).

Section one_order.
Variable order : list (list Thread) -> list (list Thread).
Hypothesis order_perm : forall l, Permutation l (order l).

Lemma found_links (t : Thread) : t ∈ found order -> t ∈ links.
Proof.
  intros H. apply DiscoveryFacts.unique_by_id_fresh in H as [_ H].
  unfold links. rewrite (concat_perm _ _ (order_perm _)). exact H.
Qed.

Lemma links_found (t : Thread) :
  t ∈ links -> exists t', t' ∈ found order /\ t_id t' = t_id t.
Proof.
  intros H. apply DiscoveryFacts.unique_by_id_covers; [|apply not_elem_of_empty].
  unfold links in H. rewrite (concat_perm _ _ (order_perm _)) in H. exact H.
Qed.

Lemma found_ids (id : string) :
  id ∈ map t_id (found order) <-> id ∈ map t_id links.
Proof.
  split; intros H; apply list_elem_of_fmap in H as (t & -> & Ht).
  - apply list_elem_of_fmap. exists t. split; [reflexivity | apply found_links, Ht].
  - apply links_found in Ht as (t' & Ht' & Hid). apply list_elem_of_fmap.
    exists t'. split; [symmetry; exact Hid | exact Ht'].
Qed.

End one_order.

Lemma found_length (order1 order2 : list (list Thread) -> list (list Thread)) :
  (forall l, Permutation l (order1 l)) -> (forall l, Permutation l (order2 l)) ->
  length (found order1) = length (found order2).
Proof.
  intros H1 H2.
  assert (Hp : Permutation (map t_id (found order1)) (map t_id (found order2))).
  { apply NoDup_Permutation; try apply DiscoveryFacts.unique_by_id_NoDup.
    intros id. rewrite (found_ids order1 H1), (found_ids order2 H2). reflexivity. }
  apply Permutation_length in Hp. rewrite !length_map in Hp. exact Hp.
Qed.

Lemma found_nil (order1 order2 : list (list Thread) -> list (list Thread)) :
  (forall l, Permutation l (order1 l)) -> (forall l, Permutation l (order2 l)) ->
  found order1 = [] -> found order2 = [].
Proof.
  intros H1 H2 Hnil. apply length_zero_iff_nil.
  rewrite <- (found_length order1 order2 H1 H2), Hnil. reflexivity.
Qed.

Lemma run_backup_keeps_all (order : list (list Thread) -> list (list Thread))
    (st : State) (name c : string) :
  files st !! name = Some c ->
  files (snd (run_backup E base_url start_page order st)) !! name = Some c.
Proof.
  intros Hc. unfold run_backup.
  pose proof (discover_files E base_url start_page order st) as Hd.
  destruct (discover_all_threads E base_url start_page order st) as [[|t ts] st1];
    simpl in Hd; [simpl; rewrite Hd; exact Hc|].
  match goal with
  | |- context [run_units E ?u false 0 ?s] =>
      pose proof (run_units_keeps E u false 0 s) as Hr;
      destruct (run_units E u false 0 s) as [n st2]
  end.
  simpl in *. apply Hr. simpl. rewrite Hd. exact Hc.
Qed.

(** C1, as the code has it.  Whatever the order in which the listing pages
    complete, and cancelled or not, a run changes no record the metadata
    holds (a unit whose id is in [metadata.threads] is not in the download
    set) and no page file that exists; and a page whose file exists is
    counted without a request or a write: the loop counts the pages it
    came to whose file is on disk when it ends.  When neither run is
    cancelled and a unit is linked under one URL on all the listing pages,
    a second run by a new instance over the directory the first has left
    downloads nothing (it returns 0): the page files are the same, and the
    metadata in memory and on disk is the same but for [last_backup]; the
    units it tries are those the metadata does not hold, the first page of
    each cannot be fetched, and every request it makes is for a listing
    page or fails. *)
Theorem run_backup_idempotent
    (order1 order2 : list (list Thread) -> list (list Thread)) (st0 : State) :
  flag st0 = None ->
  metadata st0 = load_metadata (metadata_file st0) ->
  (forall l, Permutation l (order1 l)) ->
  (forall l, Permutation l (order2 l)) ->
  (forall t t', t ∈ links -> t' ∈ links -> t_id t = t_id t' -> t_url t = t_url t') ->
  let st1 := snd (run_backup E base_url start_page order1 st0) in
  let second := run_backup E base_url start_page order2 (reopen st1) in
  let st2 := snd second in
  (fst second = 0 /\
   files st2 = files st1 /\
   forget_time (metadata st2) = forget_time (metadata st1) /\
   forget_time <$> metadata_file st2 = forget_time <$> metadata_file st1 /\
   (forall t, t ∈ found order2 -> threads (metadata st1) !! t_id t = None ->
              no_content (http_get E (t_url t)) = true) /\
   (exists new,
      requests st2 = (new ++ requests st1)%list /\
      forall u, u ∈ new ->
        u ∈ base_url :: section_pages E base_url start_page \/
        no_content (http_get E u) = true)) /\
  (forall order st id r,
     threads (metadata st) !! id = Some r ->
     threads (metadata (snd (run_backup E base_url start_page order st))) !! id = Some r) /\
  (forall order st name c,
     files st !! name = Some c ->
     files (snd (run_backup E base_url start_page order st)) !! name = Some c) /\
  (forall t thread_pages page_num downloaded prev st,
     flag st = None ->
     (forall k, k < length thread_pages ->
                is_Some (files st !! page_file t (page_num + k))) ->
     exists st',
       download_pages E t thread_pages page_num downloaded prev st
       = (downloaded + length thread_pages, st') /\
       flag st' = None /\ files st' = files st /\ requests st' = requests st /\
       metadata st' = metadata st /\ metadata_file st' = metadata_file st) /\
  (forall t u rest page_num downloaded prev st saved,
     flag st = None -> files st !! page_file t page_num = Some saved ->
     exists st',
       download_pages E t (u :: rest) page_num downloaded prev st
       = download_pages E t rest (S page_num) (S downloaded) (Some (utf8_len saved)) st' /\
       files st' = files st /\ requests st' = requests st /\ metadata st' = metadata st) /\
  (forall t thread_pages page_num downloaded prev st n st',
     download_pages E t thread_pages page_num downloaded prev st = (n, st') ->
     exists m, came_to t thread_pages page_num downloaded st n st' m).
Proof.
  intros Hfl Hmeta Hp1 Hp2 Hurl. cbv zeta.
  split; [|split; [intros; apply run_backup_keeps_records; assumption|
           split; [intros; apply run_backup_keeps_all; assumption|
           split; [intros; apply download_pages_all_existing; assumption|
           split; [intros; apply download_pages_existing; assumption|
                   intros; eapply download_pages_count; eassumption]]]]].
  destruct (decide (found order1 = [])) as [Hnil|Hcons].
  - (* nothing found: neither run writes anything *)
    pose proof (found_nil order1 order2 Hp1 Hp2 Hnil) as Hnil2.
    rewrite (run_backup_nothing_found E base_url start_page order1 st0 Hfl Hnil). cbn [snd].
    set (st1 := with_requests _ st0).
    assert (Hfl1 : flag (reopen st1) = None) by exact Hfl.
    rewrite (run_backup_nothing_found E base_url start_page order2 _ Hfl1 Hnil2).
    cbn [fst snd].
    split; [reflexivity|]. split; [reflexivity|].
    split; [unfold st1, reopen, with_requests; cbn [metadata metadata_file];
            rewrite <- Hmeta; reflexivity|].
    split; [reflexivity|].
    split; [intros t Ht; rewrite Hnil2 in Ht; apply not_elem_of_nil in Ht; contradiction|].
    exists (rev (section_pages E base_url start_page) ++ [base_url])%list. split.
    + cbn. rewrite <- app_assoc. reflexivity.
    + intros u Hu. left. apply elem_of_app in Hu as [Hu|Hu].
      * right. apply list_elem_of_In, in_rev, list_elem_of_In. exact Hu.
      * apply list_elem_of_singleton in Hu. subst. left.
  - (* the first run has tried every unit the metadata did not hold *)
    assert (Hcons2 : found order2 <> []).
    { intros Hnil2. apply Hcons. exact (found_nil order2 order1 Hp2 Hp1 Hnil2). }
    rewrite (run_backup_found E base_url start_page order1 st0 Hfl Hcons). cbv zeta.
    set (stA := with_requests _ st0).
    set (stT := set_total (length (found order1)) stA).
    set (units := filter _ (found order1)).
    assert (HflT : flag stT = None) by exact Hfl.
    destruct (run_units_None E units false 0 stT HflT) as (HflB & Hdom & Htot & Hdone).
    set (stB := snd (run_units E units false 0 stT)) in *.
    cbn [snd].
    set (st1 := save_metadata stB).
    assert (Hth1 : threads (metadata st1) = threads (metadata stB)) by reflexivity.
    assert (Hfail1 : forall t, t ∈ found order1 -> threads (metadata st1) !! t_id t = None ->
                               no_content (http_get E (t_url t)) = true).
    { intros t Ht Hnone. rewrite Hth1 in Hnone.
      assert (Hnot : t_id t ∉ dom (threads (metadata stB))).
      { rewrite not_elem_of_dom. exact Hnone. }
      destruct (Hdone t) as [Hno|Hin]; [|exact Hno|contradiction].
      subst units. apply list_elem_of_filter. split; [|exact Ht].
      apply not_elem_of_dom. intros Hin. apply Hnot, Hdom. exact Hin. }
    assert (Hfail : forall t, t ∈ found order2 -> threads (metadata st1) !! t_id t = None ->
                              no_content (http_get E (t_url t)) = true).
    { intros t' Ht' Hnone. pose proof (found_links order2 Hp2 t' Ht') as Hl'.
      destruct (links_found order1 Hp1 t' Hl') as (t & Ht & Hid).
      rewrite <- (Hurl t t' (found_links order1 Hp1 t Ht) Hl' Hid).
      apply Hfail1; [exact Ht|]. rewrite Hid. exact Hnone. }
    assert (Hfl1 : flag (reopen st1) = None) by exact HflB.
    rewrite (run_backup_found E base_url start_page order2 _ Hfl1 Hcons2). cbv zeta.
    set (stA2 := with_requests _ (reopen st1)).
    set (stT2 := set_total (length (found order2)) stA2).
    set (units2 := filter _ (found order2)).
    assert (HflT2 : flag stT2 = None) by exact HflB.
    assert (Hno2 : forall t, t ∈ units2 -> no_content (http_get E (t_url t)) = true).
    { intros t Ht. subst units2. apply list_elem_of_filter in Ht as [Hnone Ht].
      apply Hfail; [exact Ht|]. exact Hnone. }
    rewrite (run_units_no_content E units2 0 stT2 HflT2 Hno2). cbn [fst snd].
    split; [reflexivity|]. split; [reflexivity|].
    assert (HtotB : total_threads (metadata stB) = length (found order2)).
    { rewrite Htot. apply (found_length order1 order2 Hp1 Hp2). }
    split; [cbn; rewrite HtotB; reflexivity|].
    split; [cbn; rewrite HtotB; reflexivity|].
    split; [exact Hfail|].
    exists (retried units2 ++ rev (section_pages E base_url start_page) ++ [base_url])%list.
    split.
    + cbn. rewrite <- !app_assoc. reflexivity.
    + intros u Hu. apply elem_of_app in Hu as [Hu|Hu].
      * right. apply elem_of_retried in Hu as (t & Ht & ->). apply Hno2. exact Ht.
      * left. apply elem_of_app in Hu as [Hu|Hu].
        -- right. apply list_elem_of_In, in_rev, list_elem_of_In. exact Hu.
        -- apply list_elem_of_singleton in Hu. subst. left.
Qed.

End two_runs.

(** The theorem at the sample forum, the listing pages of the second run
    completing in the opposite order. *)
Lemma run_backup_idempotent_witness :
  let st1 := snd (run_backup ForumSample.env ForumSample.base_url 1 ForumSample.in_order
                    (ForumSample.fresh None)) in
  let second := run_backup ForumSample.env ForumSample.base_url 1 TwoLinksSample.last_first
                  (reopen st1) in
  fst second = 0 /\
  files (snd second) = files st1 /\
  forget_time (metadata (snd second)) = forget_time (metadata st1) /\
  forget_time <$> metadata_file (snd second) = forget_time <$> metadata_file st1.
Proof.
  assert (Hp1 : forall l, Permutation l (ForumSample.in_order l))
    by (intros l; apply Permutation_refl).
  assert (Hp2 : forall l, Permutation l (TwoLinksSample.last_first l))
    by (intros l; apply Permutation_rev).
  assert (Hurl : forall t t',
            t ∈ links ForumSample.env ForumSample.base_url 1 ->
            t' ∈ links ForumSample.env ForumSample.base_url 1 ->
            t_id t = t_id t' -> t_url t = t_url t').
  { intros t t' Ht Ht'. apply list_elem_of_In in Ht, Ht'. vm_compute in Ht, Ht'.
    repeat match goal with H : _ \/ _ |- _ => destruct H as [<-|H] end;
      try contradiction; intros Hid; first [reflexivity | discriminate Hid]. }
  pose proof (run_backup_idempotent ForumSample.env ForumSample.base_url 1
                ForumSample.in_order TwoLinksSample.last_first
                (ForumSample.fresh None) eq_refl eq_refl Hp1 Hp2 Hurl) as H.
  cbv zeta in H. destruct H as ((H1 & H2 & H3 & H4 & _) & _).
  cbv zeta. split; [exact H1|]. split; [exact H2|]. split; [exact H3 | exact H4].
Defined.

(** C1 as stated fails.  The sample forum links unit 3 under two URLs, and
    the order in which the listing pages complete decides which is kept.
    In the first run the pages complete as submitted: the unit is tried
    under the URL that cannot be fetched, and nothing is written.  In the
    second run, the site unchanged, the last page completes first: the unit
    is tried under the other URL, downloaded and recorded. *)
Lemma second_run_downloads :
  let st1 := snd (run_backup TwoLinksSample.env TwoLinksSample.base_url 1
                    TwoLinksSample.in_order (ForumSample.fresh None)) in
  let second := run_backup TwoLinksSample.env TwoLinksSample.base_url 1
                  TwoLinksSample.last_first (reopen st1) in
  (forall l, Permutation l (TwoLinksSample.in_order l)) /\
  (forall l, Permutation l (TwoLinksSample.last_first l)) /\
  files st1 = ∅ /\ threads (metadata st1) = ∅ /\
  fst second = 1 /\
  files (snd second) !! "thread_3_Gamma__page1.html" = Some "UNIT-3 ONLY PAGE" /\
  (pages <$> threads (metadata (snd second)) !! "3") = Some 1.
Proof.
  cbv zeta. split; [intros l; apply Permutation_refl|].
  split; [intros l; apply Permutation_rev|].
  repeat split; vm_compute; reflexivity.
Qed.

(** *** Cancellation *)

Lemma download_thread_started (E : Env) (t : Thread) (st : State) :
  fst (poll st) = false -> no_content (http_get E (t_url t)) = false ->
  fst (download_thread E t st) = true.
Proof.
  intros Hp Hno. rewrite download_thread_unfold.
  destruct (poll st) as [stop st1]. simpl in Hp. subst stop.
  unfold get_page. destruct (http_get E (t_url t)) as [[|a r]|]; try discriminate.
  destruct (download_pages E t _ 1 0 None _). reflexivity.
Qed.

(** C6, as the code has it.  With the flag set, a unit is refused at its
    start, and so is its retry: no request, no file, no record; whatever is
    still queued leaves the state as it is; a unit in flight stops before
    its next page.  [download_thread] returns [True] for every unit it
    started whose first page it fetched, whatever the flag does then, and
    records it: with the number of its page files on disk among the pages
    the loop came to (none when the flag is set right after the start), no
    other file being touched; the loop came to all the pages of the unit
    unless it stopped, on the flag or on the size of the page it had just
    requested.  It records no unit for which it returns [False].  A later
    run, cancelled or not, leaves the record of a unit the metadata holds
    as it is and touches none of its page files: a page of it that is
    missing stays missing.
    The metadata written at the end of a run that found units is the
    metadata in memory. *)
Theorem cancellation_outcome (E : Env) :
  (forall t st, flag st = Some 0 -> download_single E t st = (false, st)) /\
  (forall units stopped n st,
     flag st = Some 0 -> run_units E units stopped n st = (n, st)) /\
  (forall t thread_pages page_num downloaded prev st,
     flag st = Some 0 ->
     download_pages E t thread_pages page_num downloaded prev st = (downloaded, st)) /\
  (forall t st st',
     download_thread E t st = (false, st') ->
     metadata st' = metadata st /\ files st' = files st /\
     metadata_file st' = metadata_file st) /\
  (forall t st,
     fst (poll st) = false -> no_content (http_get E (t_url t)) = false ->
     fst (download_thread E t st) = true) /\
  (forall t st st',
     download_thread E t st = (true, st') ->
     exists r html m,
       http_get E (t_url t) = Some html /\
       threads (metadata st') !! t_id t = Some r /\
       r_url r = t_url t /\ r_title r = t_title t /\
       m <= length (get_thread_pages E (t_url t) html) /\
       pages r = pages_on_disk t st' 1 m /\
       (forall name, (forall k, 1 <= k < 1 + m -> name <> page_file t k) ->
                     files st' !! name = files st !! name) /\
       (m < length (get_thread_pages E (t_url t) html) ->
        flag st' = Some 0 \/
        (files st' !! page_file t (1 + m) = None /\
         exists u, get_thread_pages E (t_url t) html !! m = Some u /\
                   head (requests st') = Some u))) /\
  (forall t st html,
     flag st = Some 1 -> http_get E (t_url t) = Some html -> html <> EmptyString ->
     exists st',
       download_thread E t st = (true, st') /\ files st' = files st /\
       exists r, threads (metadata st') !! t_id t = Some r /\ pages r = 0) /\
  (forall base_url start_page order st id r,
     threads (metadata st) !! id = Some r ->
     threads (metadata (snd (run_backup E base_url start_page order st))) !! id = Some r) /\
  (forall base_url start_page order st t k,
     (forall l, Permutation l (order l)) ->
     is_Some (threads (metadata st) !! t_id t) -> all_by is_digit (t_id t) = true ->
     files (snd (run_backup E base_url start_page order st)) !! page_file t k
     = files st !! page_file t k) /\
  (forall base_url start_page order st,
     fst (discover_all_threads E base_url start_page order st) <> [] ->
     let st' := snd (run_backup E base_url start_page order st) in
     metadata_file st' = Some (metadata st')).
Proof.
  split; [intros; apply download_single_stopped; assumption|].
  split; [intros; apply run_units_stopped; assumption|].
  split; [intros; apply download_pages_stopped; assumption|].
  split; [intros; eapply download_thread_false; eassumption|].
  split; [intros; apply download_thread_started; assumption|].
  split.
  { intros t st st' H.
    destruct (download_thread_true E t st st' H) as (r & Hr & Hu & Ht).
    destruct (download_thread_count E t st st' H)
      as (r' & html & m & Hh & Hr' & Hm & Hn & Hf & Hwhy).
    rewrite Hr in Hr'. injection Hr' as <-. exists r, html, m.
    simpl in Hn. repeat split; assumption. }
  split; [intros; eapply download_thread_cut_short; eassumption|].
  split; [intros; apply run_backup_keeps_records; assumption|].
  split; [intros; apply run_backup_keeps_unit_files; assumption|].
  intros. apply run_backup_persists. assumption.
Qed.

(** C6 as stated fails.  In the sample forum the flag is set while unit 1
    is in flight, after its first page: the run ends with a record of unit
    1 on disk ([pages = 1]) although its second page was never written, and
    a later run, which takes the unit for done, does not fetch it. *)
Lemma cancelled_unit_is_recorded :
  let st := snd (run_backup ForumSample.env ForumSample.base_url 1 ForumSample.in_order
                   (ForumSample.fresh (Some 8))) in
  let later := snd (run_backup ForumSample.env ForumSample.base_url 1 ForumSample.in_order
                      (set_flag None (reopen st))) in
  (metadata_file st ≫= fun m => pages <$> (threads m !! "1")) = Some 1 /\
  files st !! page_file ForumSample.unit1 1 = Some "UNIT-1 FIRST PAGE" /\
  files st !! page_file ForumSample.unit1 2 = None /\
  files (snd (run_backup ForumSample.env ForumSample.base_url 1 ForumSample.in_order
                (ForumSample.fresh None)))
    !! page_file ForumSample.unit1 2 = Some "UNIT-1 SECOND AND LAST PAGE" /\
  files later !! page_file ForumSample.unit1 2 = None /\
  (metadata_file later ≫= fun m => pages <$> (threads m !! "1")) = Some 1.
Proof. cbv zeta. repeat split; vm_compute; reflexivity. Qed.

End RerunFacts.

(** ** Text clean-up *)

Module TextFacts.
Import PyStr Restoration Extractor.

(** *** [strip] *)

Definition head_ok (p : ascii -> bool) (s : string) : bool :=
  match s with EmptyString => true | String a _ => negb (p a) end.

Lemma lstrip_by_head (p : ascii -> bool) (s : string) : head_ok p (lstrip_by p s) = true.
Proof.
  induction s as [|a r IH]; [reflexivity|]. simpl.
  destruct (p a) eqn:Ep; [exact IH | simpl; rewrite Ep; reflexivity].
Qed.

Lemma lstrip_by_fixed (p : ascii -> bool) (s : string) :
  head_ok p s = true -> lstrip_by p s = s.
Proof.
  destruct s as [|a r]; [reflexivity|]. simpl. intros H.
  apply negb_true_iff in H. rewrite H. reflexivity.
Qed.

Lemma rstrip_by_head (p : ascii -> bool) (s : string) :
  head_ok p s = true -> head_ok p (rstrip_by p s) = true.
Proof.
  destruct s as [|a r]; [reflexivity|]. simpl. intros H.
  destruct (rstrip_by p r); [|exact H].
  apply negb_true_iff in H. rewrite H. simpl. rewrite H. reflexivity.
Qed.

Lemma rstrip_by_idem (p : ascii -> bool) (s : string) :
  rstrip_by p (rstrip_by p s) = rstrip_by p s.
Proof.
  induction s as [|a r IH]; [reflexivity|]. simpl.
  destruct (rstrip_by p r) as [|b r'] eqn:Er.
  - destruct (p a) eqn:Ep; [reflexivity|]. simpl. rewrite Ep. reflexivity.
  - change (rstrip_by p (String a (String b r'))) with
      (match rstrip_by p (String b r') with
       | EmptyString => if p a then EmptyString else String a EmptyString
       | r0 => String a r0
       end).
    rewrite IH. reflexivity.
Qed.

Lemma strip_idem (s : string) : strip (strip s) = strip s.
Proof.
  unfold strip. rewrite (lstrip_by_fixed is_space (rstrip_by is_space _)).
  - apply rstrip_by_idem.
  - apply rstrip_by_head, lstrip_by_head.
Qed.

(** [_clean_bbcode] changes nothing in a text it has cleaned. *)
Theorem clean_bbcode_idempotent (text : string) :
  _clean_bbcode (_clean_bbcode text) = _clean_bbcode text.
Proof.
  unfold _clean_bbcode.
  rewrite (RestorationFacts.sub_newlines_short 0 (strip (sub_newlines 0 text))).
  - apply strip_idem.
  - apply RestorationFacts.contains_strip, RestorationFacts.sub_newlines_clean.
Qed.

(** *** [clean_text] *)

Definition nonspace (c : ascii) : bool := negb (is_space c).

(** A word: one character or more, none of them white space. *)
Definition word (w : string) : Prop := w <> EmptyString /\ all_by nonspace w = true.

Lemma all_by_app (p : ascii -> bool) (s t : string) :
  all_by p (s ++ t) = all_by p s && all_by p t.
Proof.
  induction s as [|a r IH]; [reflexivity|].
  change (String a r ++ t) with (String a (r ++ t)). simpl. rewrite IH, andb_assoc. reflexivity.
Qed.

Lemma words_nonspace (w : string) :
  forall cur s, all_by nonspace w = true -> words cur (w ++ s) = words (cur ++ w) s.
Proof.
  induction w as [|a w IH]; intros cur s H.
  - rewrite MediaStoreFacts.app_empty_r. reflexivity.
  - simpl in H. apply andb_true_iff in H as [Ha Hw].
    change (String a w ++ s) with (String a (w ++ s)). simpl.
    unfold nonspace in Ha. apply negb_true_iff in Ha. rewrite Ha.
    rewrite (IH _ _ Hw), MediaFacts.app_assoc_str. reflexivity.
Qed.

Lemma words_all (s : string) :
  forall cur, all_by nonspace cur = true -> Forall word (words cur s).
Proof.
  induction s as [|a r IH]; intros cur Hc; simpl.
  - destruct cur; simpl; [constructor|]. repeat constructor; [discriminate | exact Hc].
  - destruct (is_space a) eqn:Ea.
    + destruct cur; simpl; [apply IH; reflexivity|].
      constructor; [split; [discriminate | exact Hc] | apply IH; reflexivity].
    + apply IH. rewrite all_by_app, Hc. simpl. unfold nonspace. rewrite Ea. reflexivity.
Qed.

Lemma join_cons (sep w : string) (rest : list string) :
  join sep (w :: rest) = match rest with [] => w | _ => w ++ sep ++ join sep rest end.
Proof. reflexivity. Qed.

Lemma join_nonempty (w : string) (rest : list string) :
  w <> EmptyString -> join " " (w :: rest) <> EmptyString.
Proof.
  intros Hw. rewrite join_cons. destruct rest; [exact Hw|].
  destruct w as [|a w]; [contradiction | discriminate].
Qed.

Lemma words_space (cur s : string) :
  words cur (String " " s)
  = if is_empty cur then words EmptyString s else cur :: words EmptyString s.
Proof. reflexivity. Qed.

Lemma words_join (ws : list string) : Forall word ws -> words EmptyString (join " " ws) = ws.
Proof.
  induction 1 as [|w rest [Hne Hw] Hrest IH]; [reflexivity|].
  rewrite join_cons. destruct rest as [|w2 rest].
  - rewrite <- (MediaStoreFacts.app_empty_r w) at 1.
    rewrite (words_nonspace w EmptyString EmptyString Hw). simpl.
    destruct w; [contradiction | reflexivity].
  - rewrite (words_nonspace w EmptyString _ Hw).
    change (EmptyString ++ w) with w.
    change (" " ++ join " " (w2 :: rest)) with (String " " (join " " (w2 :: rest))).
    rewrite words_space, IH. destruct w; [contradiction | reflexivity].
Qed.

(** The characters of a cleaned text: no white space but the space. *)
Definition tidy (c : ascii) : bool := nonspace c || eqc c " ".

Lemma join_tidy (ws : list string) : Forall word ws -> all_by tidy (join " " ws) = true.
Proof.
  assert (Hw : forall w, all_by nonspace w = true -> all_by tidy w = true).
  { induction w as [|a w IH]; [reflexivity|]. simpl. intros H.
    apply andb_true_iff in H as [Ha Hr]. unfold tidy at 1. rewrite Ha, (IH Hr). reflexivity. }
  induction 1 as [|w rest [Hne Hd] Hrest IH]; [reflexivity|].
  rewrite join_cons. destruct rest as [|w2 rest]; [apply Hw, Hd|].
  rewrite !all_by_app, (Hw w Hd), IH. reflexivity.
Qed.

Lemma remove_by_fixed (p : ascii -> bool) (s : string) :
  all_by (fun c => negb (p c)) s = true -> remove_by p s = s.
Proof.
  induction s as [|a r IH]; [reflexivity|]. simpl. intros H.
  apply andb_true_iff in H as [Ha Hr]. apply negb_true_iff in Ha. rewrite Ha, (IH Hr).
  reflexivity.
Qed.

Lemma map_chars_same (f : ascii -> ascii) (s : string) :
  all_by (fun c => Ascii.eqb (f c) c) s = true -> Media.map_chars f s = s.
Proof.
  induction s as [|a r IH]; [reflexivity|]. simpl. intros H.
  apply andb_true_iff in H as [Ha Hr]. apply Ascii.eqb_eq in Ha. rewrite Ha, (IH Hr).
  reflexivity.
Qed.

Lemma all_by_impl (p q : ascii -> bool) (s : string) :
  (forall c, p c = true -> q c = true) -> all_by p s = true -> all_by q s = true.
Proof.
  intros Hpq. induction s as [|a r IH]; [reflexivity|]. simpl. intros H.
  apply andb_true_iff in H as [Ha Hr]. rewrite (Hpq a Ha), (IH Hr). reflexivity.
Qed.

Lemma tidy_cases (c : ascii) :
  tidy c = true -> Nat.eqb (code c) 13 = false /\ Nat.eqb (code c) 160 = false.
Proof.
  unfold tidy, nonspace, is_space, between. intros H.
  apply orb_true_iff in H as [H|H].
  - apply negb_true_iff in H.
    destruct (Nat.eqb_spec (code c) 13) as [E|E], (Nat.eqb_spec (code c) 160) as [F|F];
      try (split; reflexivity); exfalso;
      try rewrite E in H; try rewrite F in H; simpl in H; discriminate.
  - apply PyStrFacts.eqc_true in H. subst c. split; reflexivity.
Qed.

Fixpoint last_ok (p : ascii -> bool) (s : string) : bool :=
  match s with
  | EmptyString => true
  | String a r => match r with EmptyString => negb (p a) | _ => last_ok p r end
  end.

Lemma rstrip_by_fixed (p : ascii -> bool) (s : string) :
  last_ok p s = true -> rstrip_by p s = s.
Proof.
  induction s as [|a r IH]; [reflexivity|]. destruct r as [|b r'].
  - simpl. intros H. apply negb_true_iff in H. rewrite H. reflexivity.
  - intros H. change (last_ok p (String a (String b r'))) with (last_ok p (String b r')) in H.
    change (rstrip_by p (String a (String b r'))) with
      (match rstrip_by p (String b r') with
       | EmptyString => if p a then EmptyString else String a EmptyString
       | r0 => String a r0
       end).
    rewrite (IH H). reflexivity.
Qed.

Lemma last_ok_app (p : ascii -> bool) (x y : string) :
  y <> EmptyString -> last_ok p (x ++ y) = last_ok p y.
Proof.
  intros Hy. induction x as [|a x IH]; [reflexivity|].
  change (String a x ++ y) with (String a (x ++ y)).
  destruct (x ++ y) as [|b z] eqn:E.
  - destruct x; [simpl in E; contradiction | discriminate].
  - change (last_ok p (String a (String b z))) with (last_ok p (String b z)). exact IH.
Qed.

Lemma last_ok_word (w : string) : all_by nonspace w = true -> last_ok is_space w = true.
Proof.
  induction w as [|a w IH]; [reflexivity|]. simpl. intros H.
  apply andb_true_iff in H as [Ha Hw]. destruct w; [exact Ha | apply IH, Hw].
Qed.

Lemma join_last_ok (ws : list string) :
  Forall word ws -> last_ok is_space (join " " ws) = true.
Proof.
  induction 1 as [|w rest [Hne Hd] Hrest IH]; [reflexivity|].
  rewrite join_cons. destruct rest as [|w2 rest]; [apply last_ok_word, Hd|].
  rewrite last_ok_app by discriminate.
  change (" " ++ join " " (w2 :: rest)) with (String " " (join " " (w2 :: rest))).
  destruct (join " " (w2 :: rest)) as [|b z] eqn:E; [|exact IH].
  apply Forall_cons in Hrest as [[Hw2 _] _]. apply join_nonempty with (rest := rest) in Hw2.
  contradiction.
Qed.

Lemma join_head_ok (ws : list string) :
  Forall word ws -> head_ok is_space (join " " ws) = true.
Proof.
  intros H. destruct H as [|w rest [Hne Hd] _]; [reflexivity|].
  rewrite join_cons. destruct w as [|a w]; [contradiction|].
  simpl in Hd. apply andb_true_iff in Hd as [Ha _].
  destruct rest; exact Ha.
Qed.

Lemma contains_skip_nonspace (a : ascii) (s : string) :
  nonspace a = true -> contains "  " (String a s) = contains "  " s.
Proof.
  intros Ha. rewrite RestorationFacts.contains_cons, RestorationFacts.startswith_cons.
  destruct (eqc " " a) eqn:E; [|reflexivity].
  apply PyStrFacts.eqc_true in E. subst a. discriminate.
Qed.

Lemma contains_skip_word (w s : string) :
  all_by nonspace w = true -> contains "  " (w ++ s) = contains "  " s.
Proof.
  induction w as [|a w IH]; [reflexivity|]. intros H. simpl in H.
  apply andb_true_iff in H as [Ha Hw].
  change (String a w ++ s) with (String a (w ++ s)).
  rewrite (contains_skip_nonspace a _ Ha). apply IH, Hw.
Qed.

Lemma join_single_spaces (ws : list string) :
  Forall word ws -> contains "  " (join " " ws) = false.
Proof.
  induction 1 as [|w rest [Hne Hd] Hrest IH]; [reflexivity|].
  rewrite join_cons. destruct rest as [|w2 rest].
  - rewrite <- (MediaStoreFacts.app_empty_r w). rewrite (contains_skip_word w _ Hd). reflexivity.
  - rewrite (contains_skip_word w _ Hd).
    change (" " ++ join " " (w2 :: rest)) with (String " " (join " " (w2 :: rest))).
    rewrite RestorationFacts.contains_cons, IH, orb_false_r.
    pose proof (join_head_ok _ Hrest) as Hh.
    destruct (join " " (w2 :: rest)) as [|b z]; [reflexivity|].
    rewrite !RestorationFacts.startswith_cons. simpl in Hh.
    destruct (eqc " " b) eqn:E; [|apply andb_false_r].
    apply PyStrFacts.eqc_true in E. subst b. discriminate.
Qed.

Lemma clean_text_words (text : string) :
  exists ws, Forall word ws /\ clean_text text = join " " ws.
Proof.
  unfold clean_text. eexists. split; [|reflexivity]. apply words_all. reflexivity.
Qed.

(** [clean_text] gives words parted by single spaces: no white space at
    either end, no white space other than the space, no two spaces in a
    row; and a text it has cleaned it leaves as it is. *)
Theorem clean_text_normal (text : string) :
  let r := clean_text text in
  clean_text r = r /\
  strip r = r /\
  contains "  " r = false /\
  (forall c, is_space c = true -> c <> " "%char -> mem c r = false).
Proof.
  cbv zeta. destruct (clean_text_words text) as (ws & Hws & ->).
  assert (Hstrip : strip (join " " ws) = join " " ws).
  { unfold strip. rewrite (lstrip_by_fixed _ _ (join_head_ok ws Hws)).
    apply rstrip_by_fixed, join_last_ok, Hws. }
  pose proof (join_tidy ws Hws) as Htidy.
  split; [|split; [exact Hstrip|split; [apply join_single_spaces, Hws|]]].
  - unfold clean_text. rewrite Hstrip.
    rewrite remove_by_fixed.
    + rewrite map_chars_same; [apply f_equal, words_join, Hws|].
      eapply all_by_impl; [|exact Htidy]. intros c Hc.
      destruct (tidy_cases c Hc) as [_ H160]. rewrite H160. apply Ascii.eqb_refl.
    + eapply all_by_impl; [|exact Htidy]. intros c Hc.
      destruct (tidy_cases c Hc) as [H13 _]. rewrite H13. reflexivity.
  - intros c Hs Hne. apply (PyStrFacts.all_by_mem tidy); [exact Htidy|].
    unfold tidy, nonspace. rewrite Hs. simpl.
    destruct (eqc c " ") eqn:E; [|reflexivity].
    apply PyStrFacts.eqc_true in E. contradiction.
Qed.

End TextFacts.

(** ** The HTML converter: escaping the body of a post *)

Module EscapeFacts.
Import PyStr Converter.

(** What stands for one character of the body. *)
Definition entity (c : ascii) : string :=
  if eqc c "&" then "&amp;"
  else if eqc c "<" then "&lt;"
  else if eqc c ">" then "&gt;"
  else String c EmptyString.

Lemma app_cons (a : ascii) (r t : string) : String a r ++ t = String a (r ++ t).
Proof. reflexivity. Qed.

Lemma app_nil (t : string) : EmptyString ++ t = t.
Proof. reflexivity. Qed.

Lemma replace_char_cons (c : ascii) (repl : string) (a : ascii) (r : string) :
  replace_char c repl (String a r)
  = if eqc a c then repl ++ replace_char c repl r else String a (replace_char c repl r).
Proof. reflexivity. Qed.

Lemma replace_char_app (c : ascii) (repl x y : string) :
  replace_char c repl (x ++ y) = replace_char c repl x ++ replace_char c repl y.
Proof.
  induction x as [|a x IH]; [reflexivity|].
  rewrite app_cons, !replace_char_cons, IH.
  destruct (eqc a c); [rewrite MediaFacts.app_assoc_str|]; reflexivity.
Qed.

Lemma replace_char_other (c : ascii) (repl : string) (a : ascii) (r : string) :
  eqc a c = false -> replace_char c repl (String a r) = String a (replace_char c repl r).
Proof. intros H. rewrite replace_char_cons, H. reflexivity. Qed.

Lemma replace_char_same (c : ascii) (repl r : string) :
  replace_char c repl (String c r) = repl ++ replace_char c repl r.
Proof. rewrite replace_char_cons, PyStrFacts.eqc_refl. reflexivity. Qed.

(** The three replacements one after the other do what one pass does that
    puts an entity for each character. *)
Lemma safe_body_cons (a : ascii) (r : string) :
  safe_body (String a r) = entity a ++ safe_body r.
Proof.
  unfold safe_body, entity.
  destruct (eqc a "&") eqn:E1.
  { apply PyStrFacts.eqc_true in E1. subst a.
    rewrite replace_char_same, !replace_char_app. reflexivity. }
  destruct (eqc a "<") eqn:E2.
  { apply PyStrFacts.eqc_true in E2. subst a.
    rewrite (replace_char_other "&") by reflexivity.
    rewrite replace_char_same, replace_char_app. reflexivity. }
  destruct (eqc a ">") eqn:E3.
  { apply PyStrFacts.eqc_true in E3. subst a.
    rewrite (replace_char_other "&") by reflexivity.
    rewrite (replace_char_other "<") by reflexivity.
    rewrite replace_char_same. reflexivity. }
  rewrite (replace_char_other "&") by exact E1.
  rewrite (replace_char_other "<") by exact E2.
  rewrite (replace_char_other ">") by exact E3. reflexivity.
Qed.

Lemma entity_cases (c : ascii) :
  (c = "&"%char /\ entity c = "&amp;") \/
  (c = "<"%char /\ entity c = "&lt;") \/
  (c = ">"%char /\ entity c = "&gt;") \/
  (c <> "&"%char /\ c <> "<"%char /\ c <> ">"%char /\ entity c = String c EmptyString).
Proof.
  unfold entity.
  destruct (eqc c "&") eqn:E1; [apply PyStrFacts.eqc_true in E1; auto|].
  destruct (eqc c "<") eqn:E2; [apply PyStrFacts.eqc_true in E2; auto|].
  destruct (eqc c ">") eqn:E3; [apply PyStrFacts.eqc_true in E3; auto 6|].
  right. right. right.
  repeat split; try reflexivity; intros ->; discriminate.
Qed.

Lemma entity_inj (a b : ascii) (x y : string) :
  entity a ++ x = entity b ++ y -> a = b /\ x = y.
Proof.
  destruct (entity_cases a) as [[-> ->]|[[-> ->]|[[-> ->]|(A1 & A2 & A3 & ->)]]];
  destruct (entity_cases b) as [[-> ->]|[[-> ->]|[[-> ->]|(B1 & B2 & B3 & ->)]]];
  rewrite ?app_cons, ?app_nil; intros H; try discriminate H;
  injection H; intros; subst; try contradiction; auto.
Qed.

Lemma entity_clean (c d : ascii) :
  d = "<"%char \/ d = ">"%char -> mem d (entity c) = false.
Proof.
  intros Hd.
  destruct (entity_cases c) as [[-> ->]|[[-> ->]|[[-> ->]|(C1 & C2 & C3 & ->)]]];
    try (destruct Hd as [->| ->]; reflexivity).
  simpl. rewrite orb_false_r. destruct (eqc c d) eqn:E; [|reflexivity].
  apply PyStrFacts.eqc_true in E. subst d. destruct Hd; contradiction.
Qed.

(** In the escaped body of a post no [<] and no [>] is left, so the body
    opens and closes no tag; and two bodies that differ stay different. *)
Theorem safe_body_escapes (body : string) :
  mem "<" (safe_body body) = false /\
  mem ">" (safe_body body) = false /\
  (forall other, safe_body body = safe_body other -> body = other).
Proof.
  split; [|split].
  - induction body as [|a r IH]; [reflexivity|].
    rewrite safe_body_cons, PyStrFacts.mem_app, IH, entity_clean; auto.
  - induction body as [|a r IH]; [reflexivity|].
    rewrite safe_body_cons, PyStrFacts.mem_app, IH, entity_clean; auto.
  - induction body as [|a r IH]; intros [|b s] H.
    + reflexivity.
    + rewrite safe_body_cons in H. change (safe_body EmptyString) with EmptyString in H.
      destruct (entity_cases b) as [[_ Hb]|[[_ Hb]|[[_ Hb]|(_ & _ & _ & Hb)]]];
        rewrite Hb in H; discriminate H.
    + rewrite safe_body_cons in H. change (safe_body EmptyString) with EmptyString in H.
      destruct (entity_cases a) as [[_ Ha]|[[_ Ha]|[[_ Ha]|(_ & _ & _ & Ha)]]];
        rewrite Ha in H; discriminate H.
    + rewrite !safe_body_cons in H. apply entity_inj in H as [-> H].
      rewrite (IH _ H). reflexivity.
Qed.

Example safe_body_sample :
  safe_body "a<b> & </div>&lt;" = "a&lt;b&gt; &amp; &lt;/div&gt;&amp;lt;".
Proof. vm_compute. reflexivity. Qed.

End EscapeFacts.

(** ** The site mirror: local paths *)

Module MirrorPathFacts.
Import PyStr OsPath Mirror.

Lemma split_last_app (c : ascii) (x y : string) :
  split_last c (x ++ y)
  = match split_last c y with
    | Some (u, v) => Some (x ++ u, v)
    | None =>
        match split_last c x with
        | Some (u, v) => Some (u, v ++ y)
        | None => None
        end
    end.
Proof.
  induction x as [|a x IH].
  - change (EmptyString ++ y) with y. destruct (split_last c y) as [[u v]|]; reflexivity.
  - change (String a x ++ y) with (String a (x ++ y)). simpl split_last. rewrite IH.
    destruct (split_last c y) as [[u v]|]; [reflexivity|].
    destruct (split_last c x) as [[u v]|]; [reflexivity|].
    destruct (eqc a c); reflexivity.
Qed.

(** The last component of a path keeps the dot of the last component of
    its end. *)
Lemma basename_dot (x y : string) :
  mem "." (basename y) = true -> mem "." (basename (x ++ y)) = true.
Proof.
  unfold basename. rewrite split_last_app.
  destruct (split_last "/" y) as [[u v]|]; [auto|].
  intros Hy. destruct (split_last "/" x) as [[u v]|];
    rewrite PyStrFacts.mem_app, Hy; apply orb_true_r.
Qed.

Lemma path_join_end (a b : string) : exists x, path_join a b = x ++ b.
Proof.
  unfold path_join. destruct (startswith "/" b); [exists EmptyString; reflexivity|].
  destruct (is_empty a || endswith "/" a); [exists a; reflexivity|].
  exists (a ++ "/"). rewrite MediaFacts.app_assoc_str. reflexivity.
Qed.

Section paths.
Variable E : Env.
Variable output_dir : string.

(** The local path [_url_to_path] gives always names a file with a dot in
    its name: [index.html] for a URL that ends with a slash or whose last
    component has no dot, the last component itself otherwise, with
    [.html] added after [.php]. *)
Theorem url_to_path_names_a_file (url p : string) :
  _url_to_path E output_dir url = Some p -> mem "." (basename p) = true.
Proof.
  unfold _url_to_path. destruct (UrlLib.urlparse (netloc_ok E) url) as [[parsed params]|];
    [|discriminate].
  set (path := if is_empty (UrlLib.path parsed) then "/" else UrlLib.path parsed).
  intros [= <-].
  destruct (path_join_end output_dir
              (colons_to_underscores (UrlLib.netloc parsed) ++
               (if is_empty path || endswith "/" path then path ++ "index.html"
                else if negb (mem "." (basename path))
                     then rstrip "/" path ++ "/index.html"
                     else if endswith ".php" (lower path) then path ++ ".html" else path)))
    as [x ->].
  rewrite <- MediaFacts.app_assoc_str. apply basename_dot.
  destruct (is_empty path || endswith "/" path); [apply basename_dot; reflexivity|].
  destruct (mem "." (basename path)) eqn:Hd; simpl negb; cbv iota.
  - destruct (endswith ".php" (lower path)); [|exact Hd].
    unfold basename. rewrite split_last_app. simpl split_last at 1.
    unfold basename in Hd. destruct (split_last "/" path) as [[u v]|];
      rewrite PyStrFacts.mem_app; [rewrite Hd | rewrite Hd]; reflexivity.
  - apply basename_dot. reflexivity.
Qed.

End paths.

Example url_to_path_samples :
  let p := _url_to_path MirrorSample.env "out" in
  p "http://m" = Some "out/m/index.html" /\
  p "http://m/a/" = Some "out/m/a/index.html" /\
  p "http://m/a" = Some "out/m/a/index.html" /\
  p "http://m:8080/a.b/c" = Some "out/m_8080/a.b/c/index.html" /\
  p "http://m/x/view.PHP?id=3" = Some "out/m/x/view.PHP.html" /\
  p "http://m/img/logo.png" = Some "out/m/img/logo.png".
Proof. cbv zeta. repeat split; vm_compute; reflexivity. Qed.

Lemma url_to_path_names_a_file_witness :
  _url_to_path MirrorSample.env "out" "http://m/a.b/c" = Some "out/m/a.b/c/index.html" /\
  mem "." (basename "out/m/a.b/c/index.html") = true.
Proof.
  assert (H : _url_to_path MirrorSample.env "out" "http://m/a.b/c"
              = Some "out/m/a.b/c/index.html") by (vm_compute; reflexivity).
  split; [exact H|]. exact (url_to_path_names_a_file _ _ _ _ H).
Defined.

End MirrorPathFacts.

(** ** Deduplicating twice *)

Module DedupFacts.
Import Backup.

Lemma unique_by_id_app (seen : gset string) (l1 l2 : list Thread) :
  unique_by_id seen (l1 ++ l2)
  = (unique_by_id seen l1 ++ unique_by_id (list_to_set (map t_id l1) ∪ seen) l2)%list.
Proof.
  revert seen. induction l1 as [|t l IH]; intros seen.
  - simpl. f_equal. set_solver.
  - simpl. destruct (decide (t_id t ∈ seen)) as [Hin|Hout].
    + rewrite IH. f_equal. f_equal. set_solver.
    + simpl. rewrite IH. f_equal. f_equal. f_equal. set_solver.
Qed.

(** Units left out while a page was read would be left out anyway. *)
Lemma unique_by_id_absorb (l1 : list Thread) :
  forall (s1 seen : gset string) (l2 : list Thread),
    s1 ⊆ seen ->
    unique_by_id seen (unique_by_id s1 l1 ++ l2) = unique_by_id seen (l1 ++ l2).
Proof.
  induction l1 as [|t l IH]; intros s1 seen l2 Hsub; [reflexivity|].
  simpl. destruct (decide (t_id t ∈ s1)) as [Hin|Hout].
  - rewrite decide_True by set_solver. apply IH, Hsub.
  - simpl. destruct (decide (t_id t ∈ seen)) as [Hs|Hs].
    + apply IH. set_solver.
    + f_equal. apply IH. set_solver.
Qed.

(** [extract_thread_links] leaves out the repeated units of a page, and
    [discover_all_threads] those of all pages together: the outcome is that
    of leaving out the repeated units of all the links of all pages at
    once. *)
Theorem dedup_per_page_then_overall (pages : list (list Thread)) :
  unique_by_id ∅ (concat (map (unique_by_id ∅) pages)) = unique_by_id ∅ (concat pages).
Proof.
  generalize (∅ : gset string) at 1 3. induction pages as [|l rest IH]; intros seen.
  - reflexivity.
  - simpl. rewrite unique_by_id_absorb by set_solver.
    rewrite !unique_by_id_app. f_equal. apply IH.
Qed.

End DedupFacts.

(** ** Inlined media: out of a [data:] URI what went into it *)

Module DataUriFacts.
Import PyStr Extractor DataUri.

Lemma split_first_app (c : ascii) (x y : string) :
  mem c x = false -> split_first c (x ++ String c y) = Some (x, y).
Proof.
  induction x as [|a x IH]; intros H.
  - change (EmptyString ++ String c y) with (String c y). simpl.
    rewrite PyStrFacts.eqc_refl. reflexivity.
  - simpl in H. apply orb_false_iff in H as [Ha Hx].
    change (String a x ++ String c y) with (String a (x ++ String c y)). simpl.
    rewrite Ha, (IH Hx). reflexivity.
Qed.

Lemma split_on_none (c : ascii) (x : string) : mem c x = false -> split_on c x = [x].
Proof.
  induction x as [|a x IH]; intros H; [reflexivity|].
  simpl in H. apply orb_false_iff in H as [Ha Hx]. simpl. rewrite Ha, (IH Hx). reflexivity.
Qed.

Lemma split_on_app (c : ascii) (x y : string) :
  mem c x = false -> split_on c (x ++ String c y) = x :: split_on c y.
Proof.
  induction x as [|a x IH]; intros H.
  - change (EmptyString ++ String c y) with (String c y). simpl.
    rewrite PyStrFacts.eqc_refl. reflexivity.
  - simpl in H. apply orb_false_iff in H as [Ha Hx].
    change (String a x ++ String c y) with (String a (x ++ String c y)). simpl.
    rewrite Ha, (IH Hx). reflexivity.
Qed.

Section round_trip.
Variable E : Env.


End round_trip.


Example extract_b64_media_sample :
  fst (_extract_b64_media DataUriSample.env "data:image/png;base64,PNGdata"
         "recovered_media" (mkState ∅ 3))
  = Some ("recovered_media/a3f9c2d0814b0700000003.png", "image/png") /\
  fst (_extract_b64_media DataUriSample.env "http://h/a.png" "recovered_media" (mkState ∅ 3))
  = None /\
  fst (_extract_b64_media DataUriSample.env "data:image/png;base64" "recovered_media"
         (mkState ∅ 3)) = None.
Proof. repeat split; vm_compute; reflexivity. Qed.

(** [guess_mime] never gives an empty type: an empty entry of the table
    falls through to the signature of the bytes like a missing one. *)
Lemma guess_mime_nonempty (E : Env) (url : string) (data : option string) (m : string) :
  guess_mime E url data = Some m -> m <> EmptyString.
Proof.
  unfold guess_mime. destruct (get_ext E url) as [ext|]; [|discriminate].
  destruct (guess_type E ("file" ++ ext)) as [[|a t]|]; try (intros [= <-]; discriminate);
    (destruct data as [[|b d]|]; [intros [= <-]; discriminate | | intros [= <-]; discriminate];
     repeat match goal with
            | |- context [if ?c then _ else _] => destruct c
            end; intros [= <-]; discriminate).
Qed.

End DataUriFacts.
